(** * The Kundali intake wizard and its results pages

    A shallow embedding of the stateful parts of the front end:
    - [MultiStepForm.tsx]: the three-step wizard, its validation, its
      handlers and the two local-storage entries it writes;
    - [LocationStep] (second component of [BirthDetailsStep.tsx]): the mock
      location lookup, its debounce effect and the selection handler;
    - the results page and the fixture arrays the results components render.

    React state is modelled the way the handlers use it: a handler runs
    against the values captured by the last render and issues a queue of
    state updates and platform calls; the queue is applied afterwards. *)

From Stdlib Require Import ZArith Lia Bool Ascii String List.
From Stdlib Require Import Floats.PrimFloat.
From Stdlib Require Numbers.Cyclic.Int63.Uint63.
From stdpp Require Import base option list strings gmap pretty.

Set Warnings "-inexact-float,-register-all".
Local Open Scope string_scope.
Local Open Scope Z_scope.

(* ===================================================================== *)
(** * Platform: strings, regular expressions, values, dates and JSON      *)
(* ===================================================================== *)

Module Js.

(** A JavaScript string is its sequence of UTF-16 code units.  The model
    covers the code units below 256 (Basic Latin and Latin-1 Supplement):
    one [ascii] is one code unit. *)
Definition code (c : ascii) : N := N_of_ascii c.

(** WhiteSpace and LineTerminator of ECMAScript below U+0100: TAB, LF, VT,
    FF, CR, SPACE and NO-BREAK SPACE.  This is the class [\s] and the set
    [String.prototype.trim] strips. *)
Definition isWhiteSpace (c : ascii) : bool :=
  ((9 <=? code c)%N && (code c <=? 13)%N) || (code c =? 32)%N || (code c =? 160)%N.

Fixpoint trimStart (s : string) : string :=
  match s with
  | EmptyString => EmptyString
  | String c s' => if isWhiteSpace c then trimStart s' else s
  end.

Fixpoint trimEnd (s : string) : string :=
  match s with
  | EmptyString => EmptyString
  | String c s' =>
      match trimEnd s' with
      | EmptyString => if isWhiteSpace c then EmptyString else String c EmptyString
      | t => String c t
      end
  end.

(** [String.prototype.trim] *)
Definition trim (s : string) : string := trimEnd (trimStart s).

(** [String.prototype.toLowerCase] on one code unit below 256: the letters
    A-Z and the Latin-1 capitals U+00C0-U+00DE except the multiplication
    sign U+00D7 move up by 32. *)
Definition toLowerCase_unit (c : ascii) : ascii :=
  let n := code c in
  if ((65 <=? n)%N && (n <=? 90)%N) ||
     ((192 <=? n)%N && (n <=? 222)%N && negb (n =? 215)%N)
  then ascii_of_N (n + 32)
  else c.

Fixpoint toLowerCase (s : string) : string :=
  match s with
  | EmptyString => EmptyString
  | String c s' => String (toLowerCase_unit c) (toLowerCase s')
  end.

(** [String.prototype.includes]: [search] occurs in [s] at some index. *)
Fixpoint includes (s search : string) : bool :=
  String.prefix search s ||
  match s with
  | EmptyString => false
  | String _ s' => includes s' search
  end.

(** ** Regular expressions (the fragment without captures) *)

Inductive regex : Type :=
| Never : regex
| Empty : regex
| Class (p : ascii -> bool) : regex
| Cat (r1 r2 : regex) : regex
| Alt (r1 r2 : regex) : regex
| Star (r : regex) : regex.

(** [r+] *)
Definition Plus (r : regex) : regex := Cat r (Star r).

(** A literal character. *)
Definition Lit (c : ascii) : regex := Class (fun x => Ascii.eqb x c).

(** [\S] *)
Definition NonSpace : regex := Class (fun x => negb (isWhiteSpace x)).

(** Any code unit. *)
Definition AnyUnit : regex := Class (fun _ => true).

(** The words of a regular expression. *)
Inductive Lang : regex -> string -> Prop :=
| Lang_Empty : Lang Empty EmptyString
| Lang_Class p c : p c = true -> Lang (Class p) (String c EmptyString)
| Lang_Cat r1 r2 s1 s2 : Lang r1 s1 -> Lang r2 s2 -> Lang (Cat r1 r2) (s1 ++ s2)
| Lang_Alt_l r1 r2 s : Lang r1 s -> Lang (Alt r1 r2) s
| Lang_Alt_r r1 r2 s : Lang r2 s -> Lang (Alt r1 r2) s
| Lang_Star_nil r : Lang (Star r) EmptyString
| Lang_Star_cons r s1 s2 : Lang r s1 -> Lang (Star r) s2 -> Lang (Star r) (s1 ++ s2).

Fixpoint nullable (r : regex) : bool :=
  match r with
  | Never => false
  | Empty => true
  | Class _ => false
  | Cat r1 r2 => nullable r1 && nullable r2
  | Alt r1 r2 => nullable r1 || nullable r2
  | Star _ => true
  end.

(** The derivative of [r] by the code unit [c]. *)
Fixpoint deriv (c : ascii) (r : regex) : regex :=
  match r with
  | Never => Never
  | Empty => Never
  | Class p => if p c then Empty else Never
  | Cat r1 r2 =>
      if nullable r1
      then Alt (Cat (deriv c r1) r2) (deriv c r2)
      else Cat (deriv c r1) r2
  | Alt r1 r2 => Alt (deriv c r1) (deriv c r2)
  | Star r1 => Cat (deriv c r1) (Star r1)
  end.

(** The whole of [s] is a word of [r]. *)
Fixpoint matches (r : regex) (s : string) : bool :=
  match s with
  | EmptyString => nullable r
  | String c s' => matches (deriv c r) s'
  end.

(** [RegExp.prototype.test] for a pattern without flags: some substring of
    [s] is a word of [r]. *)
Definition RegExp_test (r : regex) (s : string) : bool :=
  matches (Cat (Star AnyUnit) (Cat r (Star AnyUnit))) s.

(** ** Values *)

(** The values the forms hold.  A number is an IEEE 754 binary64; a [Date]
    object is its time value, the milliseconds since the epoch (the calendar
    widget only yields valid dates). *)
Inductive JsValue : Type :=
| VUndefined : JsValue
| VNull : JsValue
| VBool (b : bool) : JsValue
| VString (s : string) : JsValue
| VNumber (x : float) : JsValue
| VDate (t : Z) : JsValue.

(** ToBoolean *)
Definition truthy (v : JsValue) : bool :=
  match v with
  | VUndefined | VNull => false
  | VBool b => b
  | VString s => negb (String.eqb s "")
  | VNumber x => negb (PrimFloat.is_zero x || PrimFloat.is_nan x)
  | VDate _ => true
  end.

(** [a || b] *)
Definition or_else (a b : JsValue) : JsValue := if truthy a then a else b.

(** [o[k]] on an object given by its own properties: a missing property
    reads as [undefined] (none of the keys the code reads is a property of
    [Object.prototype]). *)
Definition prop (o : gmap string JsValue) (k : string) : JsValue :=
  default VUndefined (o !! k).

(** The number with the integer value [n] (exact below 2^53). *)
Definition number_of_Z (n : Z) : float :=
  if n <? 0 then PrimFloat.opp (PrimFloat.of_uint63 (Uint63.of_Z (- n)))
  else PrimFloat.of_uint63 (Uint63.of_Z n).

(** ** Dates: [Date.prototype.toISOString] *)

Definition msPerDay : Z := 86400000.

(** Year, month (1-12) and day of month of a day number counted from the
    epoch, in the proleptic Gregorian calendar. *)
Definition civil_of_day (day : Z) : Z * Z * Z :=
  let z := day + 719468 in
  let era := z / 146097 in
  let doe := z - era * 146097 in
  let yoe := (doe - doe / 1460 + doe / 36524 - doe / 146096) / 365 in
  let doy := doe - (365 * yoe + yoe / 4 - yoe / 100) in
  let mp := (5 * doy + 2) / 153 in
  let d := doy - (153 * mp + 2) / 5 + 1 in
  let m := if mp <? 10 then mp + 3 else mp - 9 in
  let y := yoe + era * 400 + (if m <=? 2 then 1 else 0) in
  (y, m, d).

Fixpoint zeros (n : nat) : string :=
  match n with
  | O => EmptyString
  | S n' => String "0" (zeros n')
  end.

(** The decimal digits of [n >= 0], padded with zeros on the left to
    [width] characters. *)
Definition padStart0 (width : nat) (n : Z) : string :=
  let digits := pretty (Z.to_N n) in
  zeros (width - String.length digits)%nat +:+ digits.

Definition toISOString (t : Z) : string :=
  let '(y, m, d) := civil_of_day (t / msPerDay) in
  let ms := t mod msPerDay in
  let year :=
    if (0 <=? y) && (y <=? 9999) then padStart0 4 y
    else if y <? 0 then "-" +:+ padStart0 6 (- y)
    else "+" +:+ padStart0 6 y in
  year +:+ "-" +:+ padStart0 2 m +:+ "-" +:+ padStart0 2 d +:+ "T" +:+
  padStart0 2 (ms / 3600000) +:+ ":" +:+ padStart0 2 (ms / 60000 mod 60) +:+ ":" +:+
  padStart0 2 (ms / 1000 mod 60) +:+ "." +:+ padStart0 3 (ms mod 1000) +:+ "Z".

(** ** JSON

    A text kept in local storage is represented by the JSON document it
    spells, or, when it is not a JSON text, by whether it is the empty
    text; the documents of the application are primitive values and flat
    objects.  Property order, which the text has and the parsed value does
    not observe, is not kept. *)
Inductive json : Type :=
| JNull : json
| JBool (b : bool) : json
| JNumber (x : float) : json
| JString (s : string) : json.

Inductive document : Type :=
| DValue (v : json) : document
| DObject (props : gmap string json) : document
| DMalformed (empty : bool) : document.

(** Whether a stored text is truthy: only the empty text is not. *)
Definition nonempty (text : document) : bool :=
  match text with
  | DMalformed empty => negb empty
  | _ => true
  end.

(** SerializeJSONProperty on a property value: [undefined] is left out of
    the object, a number that is not finite becomes [null], a zero of
    either sign is written as 0, a [Date] goes through [toJSON], which is
    [toISOString]. *)
Definition toJSON (v : JsValue) : option json :=
  match v with
  | VUndefined => None
  | VNull => Some JNull
  | VBool b => Some (JBool b)
  | VString s => Some (JString s)
  | VNumber x =>
      Some (if PrimFloat.is_finite x
            then JNumber (if PrimFloat.is_zero x then 0%float else x)
            else JNull)
  | VDate t => Some (JString (toISOString t))
  end.

(** [JSON.stringify] of an object of such values. *)
Definition JSON_stringify (o : gmap string JsValue) : document :=
  DObject (omap toJSON o).

(** [n.toString()] for an integer [n]: the decimal text, which is the JSON
    document of the number. *)
Definition Number_toString (n : Z) : document := DValue (JNumber (number_of_Z n)).

(** The value [JSON.parse] builds for a primitive. *)
Definition fromJSON (j : json) : JsValue :=
  match j with
  | JNull => VNull
  | JBool b => VBool b
  | JNumber x => VNumber x
  | JString s => VString s
  end.

End Js.

(* ===================================================================== *)
(** * React: what a handler issues                                        *)
(* ===================================================================== *)

Module React.
Import Js.

(** An entry of the mock location list ([BirthDetailsStep.tsx], lines
    118-123). *)
Record Location : Type := {
  city : string;
  country : string;
  lat : float;
  lng : float
}.

(** The closures handed to [setTimeout]. *)
Inductive callback : Type :=
| redirect_to_results : callback          (* [() => { router.push("/results") }] *)
| delayed_search (searchQuery : string) : callback
                                          (* the effect closure of [LocationStep] *)
| load_user : callback.                   (* the effect closure of [ResultsPage] *)

(** The constants that hold a timer id: [delaySearch] in the effect of
    [LocationStep], [timer] in the effect of [ResultsPage]. *)
Inductive handle : Type :=
| handle_delaySearch : handle
| handle_timer : handle.

(** State updates ([useState] setters, with the updater function they are
    given; a plain value [v] is the updater [fun _ => v]) and platform
    calls. *)
Inductive action : Type :=
| setFormData (u : gmap string JsValue -> gmap string JsValue) : action
| setCurrentStep (u : Z -> Z) : action
| setErrors (u : gmap string string -> gmap string string) : action
| setSearchQuery (q : string) : action
| setSearchResults (results : list Location) : action
| setSearching (b : bool) : action
| setIsLoading (b : bool) : action
| setUserName (v : JsValue) : action
| toast_success (title description : string) : action
| toast_info (title : string) : action
| localStorage_setItem (key : string) (value : document) : action
| router_push (href : string) : action
| setTimeout (cb : callback) (ms : Z) : action
| clearTimeout (id : handle) : action
| call_searchLocations (query : string) : action.

(** A handler's run: the actions issued in order, and the returned value,
    or [None] when a TypeError was thrown on the way. *)
Definition M (A : Type) : Type := (list action * option A)%type.

#[export] Instance M_ret : MRet M := fun A a => ([], Some a).

#[export] Instance M_bind : MBind M := fun A B f m =>
  match m with
  | (l, None) => (l, None)
  | (l, Some a) => let '(l', r) := f a in ((l ++ l')%list, r)
  end.

Definition emit (a : action) : M unit := ([a], Some tt).

Definition throw {A : Type} : M A := ([], None).

(** The receiver of a [String.prototype] method: a call on [undefined],
    [null], a boolean, a number or a [Date] throws. *)
Definition as_string (v : JsValue) : M string :=
  match v with
  | VString s => mret s
  | _ => throw
  end.

(** The platform calls among the actions: everything that is not a state
    update. *)
Definition is_effect (a : action) : bool :=
  match a with
  | toast_success _ _ | toast_info _ | localStorage_setItem _ _
  | router_push _ | setTimeout _ _ | clearTimeout _ | call_searchLocations _ => true
  | _ => false
  end.

Definition effects {A : Type} (m : M A) : list action := List.filter is_effect (fst m).

End React.

(** Runs the monad of handlers on the actions known so far. *)
Ltac run_M :=
  cbn [React.as_string mbind React.M_bind mret React.M_ret React.emit React.throw
       fst snd app].

(* ===================================================================== *)
(** * MultiStepForm.tsx                                                   *)
(* ===================================================================== *)

Module MultiStepForm.
Import Js React.

Definition steps : list string :=
  ["Personal Information"; "Birth Details"; "Birth Location"].

(** The component state: [currentStep], [formData], [errors]. *)
Record State : Type := {
  currentStep : Z;
  formData : gmap string JsValue;
  errors : gmap string string
}.

(** The object literal of [useState<FormData>] (lines 30-39) and of
    [handleReset] (lines 130-139). *)
Definition initialFormData : gmap string JsValue :=
  <["name" := VString ""]> (
  <["email" := VString ""]> (
  <["birthDate" := VUndefined]> (
  <["birthTime" := VString ""]> (
  <["birthCity" := VString ""]> (
  <["birthCountry" := VString ""]> (
  <["latitude" := VNull]> (
  <["longitude" := VNull]> ∅))))))).

Definition initialState : State :=
  {| currentStep := 0; formData := initialFormData; errors := ∅ |}.

(** [/\S+@\S+\.\S+/] *)
Definition email_pattern : regex :=
  Cat (Plus NonSpace)
      (Cat (Lit "@") (Cat (Plus NonSpace) (Cat (Lit ".") (Plus NonSpace)))).

(** [!s] for a string [s] *)
Definition is_empty (s : string) : bool := negb (truthy (VString s)).

(** Lines 42-72. *)
Definition validateCurrentStep (currentStep : Z) (formData : gmap string JsValue) : M bool :=
  let newErrors : gmap string string := ∅ in
  newErrors ←
    (if currentStep =? 0 then
       name ← as_string (prop formData "name");
       let newErrors :=
         if is_empty (trim name) then <["name" := "Name is required"]> newErrors
         else newErrors in
       email ← as_string (prop formData "email");
       mret (if is_empty (trim email) then <["email" := "Email is required"]> newErrors
             else if negb (RegExp_test email_pattern email)
                  then <["email" := "Email is invalid"]> newErrors
                  else newErrors)
     else if currentStep =? 1 then
       let newErrors :=
         if negb (truthy (prop formData "birthDate"))
         then <["birthDate" := "Birth date is required"]> newErrors
         else newErrors in
       mret (if negb (truthy (prop formData "birthTime"))
             then <["birthTime" := "Birth time is required"]> newErrors
             else newErrors)
     else if currentStep =? 2 then
       birthCity ← as_string (prop formData "birthCity");
       let newErrors :=
         if is_empty (trim birthCity) then <["birthCity" := "Birth city is required"]> newErrors
         else newErrors in
       birthCountry ← as_string (prop formData "birthCountry");
       mret (if is_empty (trim birthCountry)
             then <["birthCountry" := "Birth country is required"]> newErrors
             else newErrors)
     else mret newErrors);
  emit (setErrors (fun _ => newErrors));;
  mret (bool_decide (size newErrors = 0%nat)).

(** Lines 106-117. *)
Definition handleSubmit (currentStep : Z) (formData : gmap string JsValue) : M unit :=
  valid ← validateCurrentStep currentStep formData;
  if valid : bool then
    emit (toast_success "Form submitted successfully!" "Redirecting to your results...");;
    emit (setTimeout redirect_to_results 1500)
  else mret tt.

(** Lines 74-82. *)
Definition handleNext (currentStep : Z) (formData : gmap string JsValue) : M unit :=
  valid ← validateCurrentStep currentStep formData;
  if valid : bool then
    if currentStep <? Z.of_nat (length steps) - 1
    then emit (setCurrentStep (fun prev => prev + 1))
    else handleSubmit currentStep formData
  else mret tt.

(** Lines 84-88. *)
Definition handlePrevious (currentStep : Z) : M unit :=
  if 0 <? currentStep
  then emit (setCurrentStep (fun prev => prev - 1))
  else mret tt.

(** [errors[field]] as a condition: the entry exists and its message is not
    the empty string.  (For a key that [Object.prototype] has, the condition
    holds too; the removal it guards then finds no own property, and the
    error map keeps its entries, as it does here.) *)
Definition has_error (errors : gmap string string) (field : string) : bool :=
  match errors !! field with
  | Some message => negb (String.eqb message "")
  | None => false
  end.

(** Lines 90-104. *)
Definition handleUpdateFormData (errors : gmap string string)
    (field : string) (value : JsValue) : M unit :=
  emit (setFormData (fun prev => <[field := value]> prev));;
  if has_error errors field
  then emit (setErrors (fun prev => let newErrors := prev in delete field newErrors))
  else mret tt.

(** Lines 119-127. *)
Definition handleSaveProgress (currentStep : Z) (formData : gmap string JsValue) : M unit :=
  emit (localStorage_setItem "kundaliFormData" (JSON_stringify formData));;
  emit (localStorage_setItem "kundaliFormStep" (Number_toString currentStep));;
  emit (toast_success "Progress saved!" "You can resume from this point later.").

(** Lines 129-144. *)
Definition handleReset : M unit :=
  emit (setFormData (fun _ => initialFormData));;
  emit (setCurrentStep (fun _ => 0));;
  emit (setErrors (fun _ => ∅));;
  emit (toast_info "Form has been reset").

(** Lines 113-115: the closure given to [setTimeout]. *)
Definition fire_redirect : M unit := emit (router_push "/results").

End MultiStepForm.

(* ===================================================================== *)
(** * LocationStep (BirthDetailsStep.tsx, lines 95-259)                   *)
(* ===================================================================== *)

Module LocationStep.
Import Js React.

(** Lines 117-124. *)
Definition mockData : list Location :=
  [ {| city := "New York"; country := "United States"; lat := 40.7128; lng := -74.0060 |};
    {| city := "London"; country := "United Kingdom"; lat := 51.5074; lng := -0.1278 |};
    {| city := "Tokyo"; country := "Japan"; lat := 35.6762; lng := 139.6503 |};
    {| city := "Mumbai"; country := "India"; lat := 19.0760; lng := 72.8777 |};
    {| city := "Delhi"; country := "India"; lat := 28.7041; lng := 77.1025 |};
    {| city := "Berlin"; country := "Germany"; lat := 52.5200; lng := 13.4050 |} ].

(** Lines 113-132: the value the returned promise resolves to. *)
Definition searchLocations (query : string) : list Location :=
  if negb (truthy (VString query)) then []
  else
    List.filter
      (fun location =>
         includes (toLowerCase (city location)) (toLowerCase query) ||
         includes (toLowerCase (country location)) (toLowerCase query))
      mockData.

(** [await searchLocations(query)]: the call is recorded among the
    actions. *)
Definition await_searchLocations (query : string) : M (list Location) :=
  emit (call_searchLocations query);;
  mret (searchLocations query).

(** Lines 147-156: the closure given to [setTimeout] by the effect, over the
    [searchQuery] of the render that ran the effect. *)
Definition delayed_search_body (searchQuery : string) : M unit :=
  if 2 <? Z.of_nat (String.length searchQuery) then
    emit (setSearching true);;
    results ← await_searchLocations searchQuery;
    emit (setSearchResults results);;
    emit (setSearching false)
  else
    emit (setSearchResults []).

(** The delay of the effect's timer (line 156). *)
Definition debounce_ms : Z := 500.

(** Lines 147-156: the effect, over the [searchQuery] of its render. *)
Definition effect (searchQuery : string) : M unit :=
  emit (setTimeout (delayed_search searchQuery) debounce_ms).

(** Line 158: what the effect returns, run before the next effect. *)
Definition cleanup : M unit := emit (clearTimeout handle_delaySearch).

(** Lines 161-168; [updateFormData] is the prop of that name. *)
Definition handleLocationSelect (updateFormData : string -> JsValue -> M unit)
    (location : Location) : M unit :=
  updateFormData "birthCity" (VString (city location));;
  updateFormData "birthCountry" (VString (country location));;
  updateFormData "latitude" (VNumber (lat location));;
  updateFormData "longitude" (VNumber (lng location));;
  emit (setSearchQuery (city location +:+ ", " +:+ country location));;
  emit (setSearchResults []).

(** Line 187: [onChange] of the search box. *)
Definition handleSearchChange (value : string) : M unit :=
  emit (setSearchQuery value).

(** What is recorded of a run, with the time it happened at: the effect
    ran for a query (and armed its timer), or the lookup was called. *)
Inductive entry : Type :=
| EffectRan (query : string) : entry
| Lookup (query : string) : entry.

(** A pending timer of the page: the id [setTimeout] returned for it, the
    time it is due at, and the [searchQuery] its closure holds. *)
Record Timer : Type := {
  timer_id : nat;
  timer_due : Z;
  timer_query : string
}.

(** The component state (lines 142-144), the clock, the timers that are
    pending, in the order they were armed, the id the next [setTimeout]
    returns, the timer id bound to [delaySearch] in the closure of the
    cleanup that runs next, and the history, latest entry first. *)
Record State : Type := {
  searchQuery : string;
  searchResults : list Location;
  searching : bool;
  now : Z;
  timers : list Timer;
  next_id : nat;
  delaySearch : option nat;
  history : list (Z * entry)
}.

(** [clearTimeout(i)]: the timer with id [i] is taken off, if it is
    pending; the other timers stay. *)
Definition cancel (i : nat) (l : list Timer) : list Timer :=
  List.filter (fun tm => negb (timer_id tm =? i)%nat) l.

Definition apply_action (a : action) (w : State) : State :=
  match a with
  | setSearchQuery q =>
      {| searchQuery := q; searchResults := searchResults w; searching := searching w;
         now := now w; timers := timers w; next_id := next_id w;
         delaySearch := delaySearch w; history := history w |}
  | setSearchResults l =>
      {| searchQuery := searchQuery w; searchResults := l; searching := searching w;
         now := now w; timers := timers w; next_id := next_id w;
         delaySearch := delaySearch w; history := history w |}
  | setSearching b =>
      {| searchQuery := searchQuery w; searchResults := searchResults w; searching := b;
         now := now w; timers := timers w; next_id := next_id w;
         delaySearch := delaySearch w; history := history w |}
  | call_searchLocations q =>
      {| searchQuery := searchQuery w; searchResults := searchResults w;
         searching := searching w; now := now w; timers := timers w;
         next_id := next_id w; delaySearch := delaySearch w;
         history := (now w, Lookup q) :: history w |}
  | setTimeout (delayed_search q) ms =>
      (* [const delaySearch = setTimeout(..., ms)]: a new timer is pending
         beside those that already are, and its id is bound. *)
      {| searchQuery := searchQuery w; searchResults := searchResults w;
         searching := searching w; now := now w;
         timers := (timers w ++
                    [{| timer_id := next_id w; timer_due := now w + ms;
                        timer_query := q |}])%list;
         next_id := S (next_id w);
         delaySearch := Some (next_id w);
         history := (now w, EffectRan q) :: history w |}
  | clearTimeout handle_delaySearch =>
      (* [clearTimeout(delaySearch)], over the id the closure holds. *)
      {| searchQuery := searchQuery w; searchResults := searchResults w;
         searching := searching w; now := now w;
         timers := match delaySearch w with
                   | Some i => cancel i (timers w)
                   | None => timers w
                   end;
         next_id := next_id w; delaySearch := delaySearch w; history := history w |}
  | _ => w
  end.

Definition apply_actions (l : list action) (w : State) : State :=
  fold_left (fun w a => apply_action a w) l w.

(** Lines 146-159 at a render whose [searchQuery] is new: the cleanup of
    the previous effect, then the effect over the current query. *)
Definition run_effect (w : State) : State :=
  apply_actions (fst (cleanup ;; effect (searchQuery w))) w.

(** After a handler: the effect runs again when its dependency
    [searchQuery] changed. *)
Definition commit (before after : State) : State :=
  if String.eqb (searchQuery before) (searchQuery after) then after else run_effect after.

(** The state after mounting at time [t]: the effect has run once. *)
Definition mount (t : Z) : State :=
  apply_actions (fst (effect ""))
    {| searchQuery := ""; searchResults := []; searching := false;
       now := t; timers := []; next_id := 0; delaySearch := None; history := [] |}.

Definition set_clock (t : Z) (w : State) : State :=
  {| searchQuery := searchQuery w; searchResults := searchResults w;
     searching := searching w; now := t; timers := timers w; next_id := next_id w;
     delaySearch := delaySearch w; history := history w |}.

(** A timer that fires is no longer pending. *)
Definition expire (i : nat) (w : State) : State :=
  {| searchQuery := searchQuery w; searchResults := searchResults w;
     searching := searching w; now := now w; timers := cancel i (timers w);
     next_id := next_id w; delaySearch := delaySearch w; history := history w |}.

(** The pending timer that fires first: the one due earliest, and of two
    due at the same time the one armed first. *)
Fixpoint earliest (l : list Timer) : option Timer :=
  match l with
  | [] => None
  | tm :: l' =>
      match earliest l' with
      | Some tm' => if timer_due tm <=? timer_due tm' then Some tm else Some tm'
      | None => Some tm
      end
  end.

(** The timer [tm] fires: its closure runs at the time the timer is due. *)
Definition fire_timer (tm : Timer) (w : State) : State :=
  apply_actions (fst (delayed_search_body (timer_query tm)))
    (set_clock (timer_due tm) (expire (timer_id tm) w)).

(** The timers due by time [t] fire, one after the other; [fuel] bounds
    their number. *)
Fixpoint fire_due (fuel : nat) (t : Z) (w : State) : State :=
  match fuel with
  | O => w
  | S fuel' =>
      match earliest (timers w) with
      | Some tm => if timer_due tm <=? t then fire_due fuel' t (fire_timer tm w) else w
      | None => w
      end
  end.

Inductive event : Type :=
| Type_query (value : string) : event
| Select (location : Location) : event
| Elapse (ms : N) : event.

Section Component.
(** The prop [updateFormData]. *)
Variable updateFormData : string -> JsValue -> M unit.

Definition step (w : State) (e : event) : State :=
  match e with
  | Type_query value => commit w (apply_actions (fst (handleSearchChange value)) w)
  | Select location =>
      commit w (apply_actions (fst (handleLocationSelect updateFormData location)) w)
  | Elapse ms =>
      let t := now w + Z.of_N ms in
      set_clock t (fire_due (length (timers w)) t w)
  end.

Definition run (w : State) (es : list event) : State := fold_left step es w.
End Component.

End LocationStep.

(* ===================================================================== *)
(** * The wizard as a transition system                                   *)
(* ===================================================================== *)

Module Wizard.
Import Js React.

(** The state of [MultiStepForm] together with the local storage of the
    browser. *)
Record World : Type := {
  currentStep : Z;
  formData : gmap string JsValue;
  errors : gmap string string;
  localStorage : gmap string document
}.

(** The state after mounting, over what local storage holds: the arguments
    of the three [useState] calls (lines 29-40), which read nothing. *)
Definition initial (storage : gmap string document) : World :=
  {| currentStep := MultiStepForm.currentStep MultiStepForm.initialState;
     formData := MultiStepForm.formData MultiStepForm.initialState;
     errors := MultiStepForm.errors MultiStepForm.initialState;
     localStorage := storage |}.

Definition apply_action (a : action) (w : World) : World :=
  match a with
  | setFormData u =>
      {| currentStep := currentStep w; formData := u (formData w); errors := errors w;
         localStorage := localStorage w |}
  | setCurrentStep u =>
      {| currentStep := u (currentStep w); formData := formData w; errors := errors w;
         localStorage := localStorage w |}
  | setErrors u =>
      {| currentStep := currentStep w; formData := formData w; errors := u (errors w);
         localStorage := localStorage w |}
  | localStorage_setItem key value =>
      {| currentStep := currentStep w; formData := formData w; errors := errors w;
         localStorage := <[key := value]> (localStorage w) |}
  | _ => w
  end.

(** The queue of a handler is applied in order. *)
Definition apply_actions (l : list action) (w : World) : World :=
  fold_left (fun w a => apply_action a w) l w.

(** A handler is run over the values of the last render; what it issued is
    applied afterwards, also when it threw. *)
Definition run_handler {A : Type} (w : World) (h : M A) : World :=
  apply_actions (fst h) w.

(** What the user can do: the four buttons (lines 231-267), a field input
    calling the prop [updateFormData], and the choice of a search result
    in [LocationStep]. *)
Inductive event : Type :=
| Next : event
| Back : event
| Reset : event
| SaveProgress : event
| Update (field : string) (value : JsValue) : event
| SelectLocation (location : Location) : event.

Definition handler (w : World) (e : event) : M unit :=
  match e with
  | Next => MultiStepForm.handleNext (currentStep w) (formData w)
  | Back => MultiStepForm.handlePrevious (currentStep w)
  | Reset => MultiStepForm.handleReset
  | SaveProgress => MultiStepForm.handleSaveProgress (currentStep w) (formData w)
  | Update field value => MultiStepForm.handleUpdateFormData (errors w) field value
  | SelectLocation location =>
      LocationStep.handleLocationSelect
        (MultiStepForm.handleUpdateFormData (errors w)) location
  end.

Definition dispatch (w : World) (e : event) : World := run_handler w (handler w e).

Definition run (w : World) (es : list event) : World := fold_left dispatch es w.

(** The inputs the step components wire to [updateFormData]:
    [PersonalInfoStep] lines 34 and 49, [BirthDetailsStep] lines 61 and 81,
    [LocationStep] lines 226 and 241. *)
Inductive ui_event : event -> Prop :=
| ui_Next : ui_event Next
| ui_Back : ui_event Back
| ui_Reset : ui_event Reset
| ui_SaveProgress : ui_event SaveProgress
| ui_name s : ui_event (Update "name" (VString s))
| ui_email s : ui_event (Update "email" (VString s))
| ui_birthDate_pick t : ui_event (Update "birthDate" (VDate t))
| ui_birthDate_clear : ui_event (Update "birthDate" VUndefined)
| ui_birthTime s : ui_event (Update "birthTime" (VString s))
| ui_birthCity s : ui_event (Update "birthCity" (VString s))
| ui_birthCountry s : ui_event (Update "birthCountry" (VString s))
| ui_SelectLocation location : ui_event (SelectLocation location).

(** The states the user can bring the wizard to. *)
Inductive reachable : World -> Prop :=
| reachable_initial storage : reachable (initial storage)
| reachable_dispatch w e : reachable w -> ui_event e -> reachable (dispatch w e).

(** The interface [FormData] (lines 16-25). *)
Definition is_string (v : JsValue) : Prop := exists s, v = VString s.

Definition is_date_or_undefined (v : JsValue) : Prop :=
  v = VUndefined \/ exists t, v = VDate t.

Definition is_number_or_null (v : JsValue) : Prop :=
  v = VNull \/ exists x, v = VNumber x.

Definition FormData (o : gmap string JsValue) : Prop :=
  is_string (prop o "name") /\
  is_string (prop o "email") /\
  is_date_or_undefined (prop o "birthDate") /\
  is_string (prop o "birthTime") /\
  is_string (prop o "birthCity") /\
  is_string (prop o "birthCountry") /\
  is_number_or_null (prop o "latitude") /\
  is_number_or_null (prop o "longitude").

End Wizard.

(* ===================================================================== *)
(** * The results page (src/unnamed/part_002)                             *)
(* ===================================================================== *)

Module ResultsPage.
Import Js React.

Record State : Type := {
  isLoading : bool;
  userName : JsValue
}.

(** Lines 15-16. *)
Definition initialState : State := {| isLoading := true; userName := VString "" |}.

(** [JSON.parse] of a stored text: the document the text spells; it
    throws for a text that is not JSON. *)
Definition JSON_parse (text : document) : M document :=
  match text with
  | DMalformed _ => throw
  | _ => mret text
  end.

(** [parsedData.name]: reading a property of [null] throws, a number or a
    string has no such property.  [JSON.parse] returns no malformed text. *)
Definition member (parsedData : document) (k : string) : M JsValue :=
  match parsedData with
  | DObject props => mret (default VUndefined (fromJSON <$> props !! k))
  | DValue JNull => throw
  | DValue _ => mret VUndefined
  | DMalformed _ => throw
  end.

(** The delay of the effect's timer (line 31). *)
Definition loading_ms : Z := 2000.

(** Lines 20-31: the closure given to [setTimeout].  [getItem] gives [null]
    for a missing key; of the texts only the empty one is falsy. *)
Definition load_user_body (localStorage : gmap string document) : M unit :=
  emit (setIsLoading false);;
  let formData := localStorage !! "kundaliFormData" in
  match formData with
  | Some text =>
      if nonempty text then
        parsedData ← JSON_parse text;
        name ← member parsedData "name";
        emit (setUserName (or_else name (VString "User")))
      else emit (setUserName (VString "User"))
  | None => emit (setUserName (VString "User"))
  end.

(** Lines 18-34: the effect of the first render, and what it returns. *)
Definition effect : M unit := emit (setTimeout load_user loading_ms).

Definition cleanup : M unit := emit (clearTimeout handle_timer).

Definition apply_action (a : action) (s : State) : State :=
  match a with
  | setIsLoading b => {| isLoading := b; userName := userName s |}
  | setUserName v => {| isLoading := isLoading s; userName := v |}
  | _ => s
  end.

Definition apply_actions (l : list action) (s : State) : State :=
  fold_left (fun s a => apply_action a s) l s.

(** The page once its timer has fired, over what local storage holds. *)
Definition loaded (localStorage : gmap string document) : State :=
  apply_actions (fst (load_user_body localStorage)) initialState.

End ResultsPage.

(** What each closure given to [setTimeout] does when its timer fires;
    [localStorage] is what local storage holds at that time. *)
Module Timers.
Import Js React.

Definition fire (cb : callback) (localStorage : gmap string document) : M unit :=
  match cb with
  | redirect_to_results => MultiStepForm.fire_redirect
  | delayed_search searchQuery => LocationStep.delayed_search_body searchQuery
  | load_user => ResultsPage.load_user_body localStorage
  end.

End Timers.

(* ===================================================================== *)
(** * The results components and their fixture arrays                     *)
(* ===================================================================== *)

(** What a component renders: the element tree, without the styling
    attributes.  [Value v] is a child given by an expression of the props. *)
Inductive node : Type :=
| Text (s : string) : node
| Value (v : Js.JsValue) : node
| Element (tag : string) (children : list node) : node.

(** [d° m'], with the degree sign U+00B0 as one code unit. *)
Definition deg (d m : string) : string := d +:+ String "176" (" " +:+ m +:+ "'").

Definition Skeleton : node := Element "Skeleton" [].

Module PlanetaryPositions.

Record Planet : Type := {
  planet : string; sign : string; degree : string; house : Z; retrograde : bool
}.

(** Lines 12-22. *)
Definition planetaryData : list Planet :=
  [ {| planet := "Sun"; sign := "Taurus"; degree := deg "15" "42"; house := 1; retrograde := false |};
    {| planet := "Moon"; sign := "Pisces"; degree := deg "28" "17"; house := 11; retrograde := false |};
    {| planet := "Mars"; sign := "Capricorn"; degree := deg "09" "03"; house := 9; retrograde := false |};
    {| planet := "Mercury"; sign := "Taurus"; degree := deg "20" "58"; house := 1; retrograde := false |};
    {| planet := "Jupiter"; sign := "Scorpio"; degree := deg "07" "16"; house := 7; retrograde := true |};
    {| planet := "Venus"; sign := "Gemini"; degree := deg "02" "34"; house := 2; retrograde := false |};
    {| planet := "Saturn"; sign := "Capricorn"; degree := deg "24" "51"; house := 9; retrograde := true |};
    {| planet := "Rahu"; sign := "Cancer"; degree := deg "06" "10"; house := 3; retrograde := true |};
    {| planet := "Ketu"; sign := "Capricorn"; degree := deg "06" "10"; house := 9; retrograde := true |} ].

(** Lines 53-68: one table row. *)
Definition row (p : Planet) : node :=
  Element "TableRow"
    [ Element "TableCell" [Text (planet p)];
      Element "TableCell" [Text (sign p)];
      Element "TableCell" [Text (degree p)];
      Element "TableCell" [Text (pretty (house p))];
      Element "TableCell"
        [ if retrograde p then Element "span" [Text "Retrograde"]
          else Element "span" [Text "Direct"] ] ].

(** Lines 35-71: the content of the first card. *)
Definition table (isLoading : bool) : node :=
  if isLoading then Element "div" [Skeleton; Skeleton]
  else
    Element "Table"
      [ Element "TableHeader"
          [ Element "TableRow"
              (map (fun h => Element "TableHead" [Text h])
                   ["Planet"; "Sign"; "Degree"; "House"; "Status"]) ];
        Element "TableBody" (map row planetaryData) ].

End PlanetaryPositions.

Module HouseInterpretations.

Record House : Type := {
  house : Z; title : string; sign : string; lord : string;
  planets : list string; interpretation : string; lifeAreas : string
}.

(** [DashaPredictions.tsx], lines 234-263. *)
Definition houseData : list House :=
  [ {| house := 1;
       title := "First House (Ascendant/Lagna)";
       sign := "Taurus";
       lord := "Venus";
       planets := ["Sun"; "Mercury"];
       interpretation := "With Taurus rising, you present yourself as practical, reliable, and grounded. You likely have a strong physical presence and appreciate beauty and comfort. Venus as your chart ruler gives you a natural charm and diplomatic nature. The presence of Sun and Mercury in this house enhances your self-expression and communication abilities, making you articulate in expressing your identity.";
       lifeAreas := "Self-image, physical appearance, personal approach to life, first impressions you make on others" |};
    {| house := 2;
       title := "Second House";
       sign := "Gemini";
       lord := "Mercury";
       planets := ["Venus"];
       interpretation := "Your second house in Gemini suggests versatility in how you build resources and manage finances. You may have multiple streams of income or frequently change how you make money. With Venus placed here, you likely find financial security through creative pursuits, social connections, or aesthetic fields. You enjoy spending on beautiful things and experiences that stimulate your mind.";
       lifeAreas := "Material resources, earned income, possessions, values, speech, self-worth" |};
    {| house := 3;
       title := "Third House";
       sign := "Cancer";
       lord := "Moon";
       planets := ["Rahu"];
       interpretation := "With Cancer in your third house, your communication style is likely empathetic and nurturing. You connect emotionally with siblings and neighbors. The presence of Rahu here intensifies your curiosity and desire for knowledge, perhaps pushing you toward unconventional learning or communication methods. You may be drawn to writing or speaking about emotional or family-related topics.";
       lifeAreas := "Communication, siblings, neighbors, short trips, early education, courage" |} ].

(** [Array.from({ length: 12 }, (_, i) => i + 1)] *)
Definition house_numbers : list Z := map (fun i => Z.of_nat i + 1) (seq 0 12).

(** Lines 285-309: the content of one house. *)
Definition content (h : House) : node :=
  Element "TabsContent"
    ([ Text ("house" +:+ pretty (house h));
       Element "div"
         [ Element "h3" [Text (title h)];
           Element "p" [Text ("Sign: " +:+ sign h +:+ " | Lord: " +:+ lord h)] ] ] ++
     (if (0 <? length (planets h))%nat
      then [ Element "div"
               [ Element "h4" [Text "Planets in this house:"];
                 Element "p" [Text (String.concat ", " (planets h))] ] ]
      else []) ++
     [ Element "div"
         [ Element "h4" [Text "Life areas influenced:"]; Element "p" [Text (lifeAreas h)] ];
       Element "div"
         [ Element "h4" [Text "Interpretation:"]; Element "p" [Text (interpretation h)] ] ])%list.

(** Lines 312-323: the placeholder of a house without data. *)
Definition placeholder (houseNum : Z) : node :=
  Element "TabsContent"
    [ Text ("house" +:+ pretty houseNum);
      Element "p"
        [ Text ("Detailed interpretation for House " +:+ pretty houseNum +:+
                " would appear here in the complete implementation.") ] ].

(** Lines 275-325: the content of the first card. *)
Definition tabs (isLoading : bool) : node :=
  if isLoading then Skeleton
  else
    Element "Tabs"
      ([ Element "TabsList"
           (map (fun n => Element "TabsTrigger" [Text ("House " +:+ pretty n)])
                house_numbers) ] ++
       map content houseData ++
       map placeholder
         (List.filter
            (fun num => negb (existsb (fun h => house h =? num) houseData))
            house_numbers))%list.

End HouseInterpretations.

Module DashaPredictions.

Record Subperiod : Type := {
  sub_title : string; sub_period : string; sub_prediction : string
}.

Record Dasha : Type := {
  planet : string; period : string; prediction : string; subperiods : list Subperiod
}.

(** Lines 35-80. *)
Definition dashaData : list Dasha :=
  [ {| planet := "Venus";
       period := "Apr 2022 - Apr 2042";
       prediction := "The Venus Mahadasha is a generally favorable period focusing on relationships, creativity, comfort, and sensual pleasures. During these 20 years, you'll likely experience growth in artistic endeavors, relationships, and financial stability. Venus's energy brings harmony and balance, but watch for overindulgence or excessive attachment to material comforts.";
       subperiods :=
         [ {| sub_title := "Venus-Venus";
              sub_period := "Apr 2022 - Oct 2025";
              sub_prediction := "A time of heightened creativity, relationship harmony, and possible financial growth. Artistic pursuits flourish, and you may find yourself particularly attuned to beauty and aesthetics." |};
           {| sub_title := "Venus-Sun";
              sub_period := "Oct 2025 - Oct 2026";
              sub_prediction := "Your creative abilities gain recognition and visibility. Leadership opportunities within artistic or relationship-oriented contexts may emerge. A good period for self-expression through Venusian channels." |};
           {| sub_title := "Venus-Moon";
              sub_period := "Oct 2026 - Jun 2028";
              sub_prediction := "Emotional fulfillment through relationships and artistic expression. Your intuition regarding beauty and harmony is heightened. A favorable time for domestic happiness and emotional security." |} ] |};
    {| planet := "Sun";
       period := "Apr 2042 - Apr 2048";
       prediction := "The Sun Mahadasha brings focus to your core identity, vitality, and self-expression. This 6-year period highlights leadership abilities and may bring recognition or advancement in career. It's a time to shine in areas related to your authentic self, though ego-related challenges may need balancing.";
       subperiods :=
         [ {| sub_title := "Sun-Sun";
              sub_period := "Apr 2042 - Aug 2042";
              sub_prediction := "A brief but powerful period of self-realization and vitality. Your essential nature becomes more apparent, and you may feel a strong drive to express your authentic self." |};
           {| sub_title := "Sun-Moon";
              sub_period := "Aug 2042 - Feb 2043";
              sub_prediction := "Balance between self-expression and emotional needs. Your leadership may take on a more nurturing quality, and you might find yourself in positions where you care for others while still maintaining your authority." |};
           {| sub_title := "Sun-Mars";
              sub_period := "Feb 2043 - Jun 2043";
              sub_prediction := "Energy and drive combine with leadership abilities. A dynamic period for initiating projects and asserting your will. Watch for potential conflicts due to heightened assertiveness." |} ] |} ].

(** Lines 131-140: one sub-period of the timeline. *)
Definition timeline_item (s : Subperiod) : node :=
  Element "TimelineItem"
    [ Element "TimelineItemTitle" [Text (sub_title s +:+ " (" +:+ sub_period s +:+ ")")];
      Element "TimelineItemContent" [Text (sub_prediction s)] ].

(** Lines 116-144: the content of one period. *)
Definition content (d : Dasha) : node :=
  Element "TabsContent"
    [ Text (Js.toLowerCase (planet d));
      Element "div"
        [ Element "h3" [Text (planet d +:+ " Mahadasha (" +:+ period d +:+ ")")];
          Element "p" [Text (prediction d)] ];
      Element "div"
        [ Element "h4" [Text "Antardashas (Sub-periods)"];
          Element "Timeline" (map timeline_item (subperiods d)) ] ].

(** Lines 92-146: the content of the first card, below the note on
    Dashas. *)
Definition tabs (isLoading : bool) : node :=
  if isLoading then Element "div" [Skeleton; Skeleton]
  else
    Element "Tabs"
      (Element "TabsList"
         (map (fun d => Element "TabsTrigger" [Text (planet d +:+ " Dasha")]) dashaData)
       :: map content dashaData).

End DashaPredictions.

Module KundaliResults.
Import Js.

Record Planet : Type := {
  planet : string; sign : string; house : Z; degree : string; retrograde : bool
}.

Record House : Type := { h_house : Z; h_sign : string; h_planets : list string }.

Record Dasha : Type := {
  period : string; startDate : string; endDate : string; description : string
}.

(** [kundali-results.tsx], lines 30-40. *)
Definition planets : list Planet :=
  [ {| planet := "Sun"; sign := "Aries"; house := 1; degree := deg "15" "23"; retrograde := false |};
    {| planet := "Moon"; sign := "Taurus"; house := 2; degree := deg "8" "45"; retrograde := false |};
    {| planet := "Mercury"; sign := "Pisces"; house := 12; degree := deg "2" "18"; retrograde := true |};
    {| planet := "Venus"; sign := "Aquarius"; house := 11; degree := deg "25" "07"; retrograde := false |};
    {| planet := "Mars"; sign := "Capricorn"; house := 10; degree := deg "19" "34"; retrograde := false |};
    {| planet := "Jupiter"; sign := "Leo"; house := 5; degree := deg "11" "42"; retrograde := false |};
    {| planet := "Saturn"; sign := "Scorpio"; house := 8; degree := deg "28" "56"; retrograde := true |};
    {| planet := "Rahu"; sign := "Virgo"; house := 6; degree := deg "3" "12"; retrograde := false |};
    {| planet := "Ketu"; sign := "Pisces"; house := 12; degree := deg "3" "12"; retrograde := false |} ].

(** Lines 42-55. *)
Definition houses : list House :=
  [ {| h_house := 1; h_sign := "Aries"; h_planets := ["Sun"] |};
    {| h_house := 2; h_sign := "Taurus"; h_planets := ["Moon"] |};
    {| h_house := 3; h_sign := "Gemini"; h_planets := [] |};
    {| h_house := 4; h_sign := "Cancer"; h_planets := [] |};
    {| h_house := 5; h_sign := "Leo"; h_planets := ["Jupiter"] |};
    {| h_house := 6; h_sign := "Virgo"; h_planets := ["Rahu"] |};
    {| h_house := 7; h_sign := "Libra"; h_planets := [] |};
    {| h_house := 8; h_sign := "Scorpio"; h_planets := ["Saturn"] |};
    {| h_house := 9; h_sign := "Sagittarius"; h_planets := [] |};
    {| h_house := 10; h_sign := "Capricorn"; h_planets := ["Mars"] |};
    {| h_house := 11; h_sign := "Aquarius"; h_planets := ["Venus"] |};
    {| h_house := 12; h_sign := "Pisces"; h_planets := ["Mercury"; "Ketu"] |} ].

(** Lines 57-76. *)
Definition dashas : list Dasha :=
  [ {| period := "Ketu Mahadasha"; startDate := "Jan 2020"; endDate := "Jan 2027";
       description := "A period of spiritual growth and introspection. There may be sudden changes and detachments from material desires. Good for meditation and inner work." |};
    {| period := "Venus Mahadasha"; startDate := "Jan 2027"; endDate := "Jan 2047";
       description := "A period focused on relationships, creativity, and comforts. Favorable for marriage, arts, and financial growth if Venus is well-placed in the chart." |};
    {| period := "Sun Mahadasha"; startDate := "Jan 2047"; endDate := "Jan 2053";
       description := "A period highlighting leadership, authority, and self-identity. May bring recognition, career advancement, and improved relationship with father figures." |} ].

(** Lines 203-220. *)
Definition planet_row (p : Planet) : node :=
  Element "TableRow"
    [ Element "TableCell" [Text (planet p)];
      Element "TableCell" [Text (sign p)];
      Element "TableCell" [Text (pretty (house p))];
      Element "TableCell" [Text (degree p)];
      Element "TableCell"
        [ if retrograde p then Element "span" [Text "Retrograde"]
          else Element "span" [Text "Direct"] ] ].

(** Lines 245-255. *)
Definition house_row (h : House) : node :=
  Element "TableRow"
    [ Element "TableCell" [Text (pretty (h_house h))];
      Element "TableCell" [Text (h_sign h)];
      Element "TableCell"
        [ Text (if (0 <? length (h_planets h))%nat
                then String.concat ", " (h_planets h) else "-") ] ].

(** Lines 273-287; [index] is the position in [dashas]. *)
Definition dasha_item (index : nat) (d : Dasha) : node :=
  Element "AccordionItem"
    [ Text ("dasha-" +:+ pretty index);
      Element "AccordionTrigger"
        [ Element "span" [Text (period d)];
          Element "span" [Text (startDate d +:+ " - " +:+ endDate d)] ];
      Element "AccordionContent" [Element "p" [Text (description d)]] ].

(** What the component renders for the props [formData] (lines 88-296):
    the birth time and place of the header (the birth date goes through
    the locale and is left out), the chart of the summary tab, and the
    three data tabs. *)
Record View : Type := {
  birth_time : node;
  birth_place : node;
  chart : option node;
  planets_tab : node;
  houses_tab : node;
  dashas_tab : node
}.

(** [houses[i].planets.join(", ")] *)
Definition house_cell (i : nat) : node :=
  Element "div"
    [ Text (match houses !! i with
            | Some h => String.concat ", " (h_planets h)
            | None => "" end) ].

Definition render (formData : gmap string JsValue) : View :=
  {| birth_time := Value (or_else (prop formData "time") (VString "Not specified"));
     birth_place := Value (or_else (prop formData "place") (VString "Not specified"));
     chart :=
       if truthy (prop formData "showChart")
       then Some (Element "Card"
                    [ Element "div"
                        [ Element "div" []; house_cell 0; house_cell 1; house_cell 11;
                          Element "div" [Text "Chart Placeholder"];
                          house_cell 2; house_cell 10; house_cell 9; house_cell 3 ];
                      Element "div" [Value (prop formData "name")] ])
       else None;
     planets_tab :=
       Element "Table"
         [ Element "TableHeader"
             [ Element "TableRow"
                 (map (fun h => Element "TableHead" [Text h])
                      ["Planet"; "Sign"; "House"; "Degree"; "Status"]) ];
           Element "TableBody" (map planet_row planets) ];
     houses_tab :=
       Element "Table"
         [ Element "TableHeader"
             [ Element "TableRow"
                 (map (fun h => Element "TableHead" [Text h]) ["House"; "Sign"; "Planets"]) ];
           Element "TableBody" (map house_row houses) ];
     dashas_tab := Element "Accordion" (imap dasha_item dashas) |}.

End KundaliResults.

Module ResultsView.

(** What the results page renders in state [s] (src/unnamed/part_002,
    lines 36-93): the title with the user's name, and the three data
    components, each given [isLoading] only. *)
Record View : Type := {
  title : node;
  planets : node;
  houses : node;
  dashas : node
}.

Definition render (s : ResultsPage.State) : View :=
  {| title :=
       if ResultsPage.isLoading s then Skeleton
       else Element "h1" [Value (ResultsPage.userName s); Text "'s Vedic Birth Chart"];
     planets := PlanetaryPositions.table (ResultsPage.isLoading s);
     houses := HouseInterpretations.tabs (ResultsPage.isLoading s);
     dashas := DashaPredictions.tabs (ResultsPage.isLoading s) |}.

End ResultsView.

(* ===================================================================== *)
(** * The vocabulary of the properties                                    *)
(* ===================================================================== *)

Module Spec.
Import Js.

(** Empty, or made of white space only. *)
Definition whitespace_only (s : string) : Prop :=
  forall i c, String.get i s = Some c -> isWhiteSpace c = true.

(** The same, as a test. *)
Fixpoint all_whitespace (s : string) : bool :=
  match s with
  | EmptyString => true
  | String c s' => isWhiteSpace c && all_whitespace s'
  end.

(** Free of white space. *)
Definition no_whitespace (s : string) : Prop :=
  forall i c, String.get i s = Some c -> isWhiteSpace c = false.

(** A regular expression matches somewhere in [s]. *)
Definition found (r : regex) (s : string) : Prop :=
  exists pre m post, s = pre ++ m ++ post /\ Lang r m.

(** The shape [/\S+@\S+\.\S+/] looks for: a run free of white space, an at
    sign, a second run, a dot and a third run, each run non-empty. *)
Definition email_shape (s : string) : Prop :=
  exists pre a b c post,
    s = pre ++ a ++ "@" ++ b ++ "." ++ c ++ post /\
    a <> "" /\ b <> "" /\ c <> "" /\
    no_whitespace a /\ no_whitespace b /\ no_whitespace c.

(** [needle] occurs in [hay] when the case of letters is ignored. *)
Definition contains_ci (hay needle : string) : Prop :=
  exists pre mid post,
    hay = pre ++ mid ++ post /\ toLowerCase mid = toLowerCase needle.

(** The required fields of a step pass their presence and format checks. *)
Definition checks_pass (step : Z) (formData : gmap string JsValue) : Prop :=
  (step = 0 ->
     exists name email,
       prop formData "name" = VString name /\ prop formData "email" = VString email /\
       ~ whitespace_only name /\ ~ whitespace_only email /\
       found MultiStepForm.email_pattern email) /\
  (step = 1 ->
     (exists t, prop formData "birthDate" = VDate t) /\
     (exists time, prop formData "birthTime" = VString time /\ time <> "")) /\
  (step = 2 ->
     exists birthCity birthCountry,
       prop formData "birthCity" = VString birthCity /\
       prop formData "birthCountry" = VString birthCountry /\
       ~ whitespace_only birthCity /\ ~ whitespace_only birthCountry).

(** The messages of the error map are not empty. *)
Definition messages_shown (errors : gmap string string) : Prop :=
  forall field message, errors !! field = Some message -> message <> "".

(** Every lookup of a history was called with a query of more than two
    characters, one debounce delay after the effect ran for that query, and
    the effect did not run again in between. *)
Definition lookups_debounced (h : list (Z * LocationStep.entry)) : Prop :=
  forall t q,
    In (t, LocationStep.Lookup q) h ->
    2 < Z.of_nat (String.length q) /\
    In (t - LocationStep.debounce_ms, LocationStep.EffectRan q) h /\
    (forall t' q', In (t', LocationStep.EffectRan q') h ->
                   t' <= t - LocationStep.debounce_ms \/ t <= t').

(** The clock, the pending timers and the history of [LocationStep] agree:
    no entry of the history lies in the future; the ids of the pending
    timers have been given out; at most one timer is pending, and it is
    the one whose id the next cleanup holds, due one delay after the latest
    run of the effect, which was for the query the timer holds; and the
    lookups so far were debounced. *)
Definition timer_consistent (s : LocationStep.State) : Prop :=
  (forall t e, In (t, e) (LocationStep.history s) -> t <= LocationStep.now s) /\
  (forall tm, In tm (LocationStep.timers s) ->
              (LocationStep.timer_id tm < LocationStep.next_id s)%nat) /\
  (LocationStep.timers s = [] \/
   exists tm,
     LocationStep.timers s = [tm] /\
     LocationStep.delaySearch s = Some (LocationStep.timer_id tm) /\
     LocationStep.now s < LocationStep.timer_due tm /\
     In (LocationStep.timer_due tm - LocationStep.debounce_ms,
         LocationStep.EffectRan (LocationStep.timer_query tm))
        (LocationStep.history s) /\
     (forall t' q', In (t', LocationStep.EffectRan q') (LocationStep.history s) ->
                    t' <= LocationStep.timer_due tm - LocationStep.debounce_ms)) /\
  lookups_debounced (LocationStep.history s).

(** A function of local storage reads the entry [key]: two stores that
    differ at [key] only can give different results. *)
Definition reads {A : Type} (f : gmap string document -> A) (key : string) : Prop :=
  exists s1 s2 : gmap string document,
    (forall k, k <> key -> s1 !! k = s2 !! k) /\ f s1 <> f s2.

End Spec.

(* ===================================================================== *)
(** * Sample sessions                                                     *)
(* ===================================================================== *)

Module Examples.
Import Js React Wizard.

(** The first step filled in. *)
Definition filled_in : list event :=
  [ Update "name" (VString "Asha"); Update "email" (VString "asha@example.com") ].

Definition filled : World := run (initial ∅) filled_in.

(** Next pressed on the untouched form: both fields of the first step have
    an error. *)
Definition refused : World := run (initial ∅) [Next].

(** On to the second step, then Save Progress. *)
Definition saved_on_second_step : World := run filled [Next; SaveProgress].

(** The last step, with a location chosen from the search results. *)
Definition on_last_step : World :=
  run filled
    [ Next; Update "birthDate" (VDate 951782400000); Update "birthTime" (VString "06:30");
      Next;
      SelectLocation {| city := "Delhi"; country := "India";
                        lat := 28.7041; lng := 77.1025 |} ].

(** The same session, except that the name is cleared right after the
    first Next, in the box of the first panel, which is still on screen
    while it fades out. *)
Definition blank_name : World :=
  run filled
    [ Next; Update "name" (VString "");
      Update "birthDate" (VDate 951782400000); Update "birthTime" (VString "06:30");
      Next;
      SelectLocation {| city := "Delhi"; country := "India";
                        lat := 28.7041; lng := 77.1025 |} ].

End Examples.

(* ===================================================================== *)
(** * MultiStepForm.tsx: what is rendered (lines 146-272)                 *)
(* ===================================================================== *)

Module WizardView.
Import Js React.

(** One entry of the progress bar (lines 155-184): the number in the
    circle, the label, whether the circle is highlighted, and the line to
    the next circle, if there is one, with whether it is highlighted. *)
Record Progress : Type := {
  number : Z;
  label : string;
  reached : bool;
  connector : option bool
}.

(** A step component with its props (lines 198-223). *)
Inductive Panel : Type :=
| PersonalInfoStep (name email : JsValue) (errors : gmap string string) : Panel
| BirthDetailsStep (birthDate birthTime : JsValue) (errors : gmap string string) : Panel
| LocationStep (birthCity birthCountry latitude longitude : JsValue)
               (errors : gmap string string) : Panel.

(** What the component returns: the progress bar, the children of the
    [motion.div] keyed by [currentStep] (the step panel), and the buttons.
    The progress bar and the buttons are on screen as returned.  The
    keyed children are handed to [AnimatePresence] in its mode "wait",
    which keeps the panel it showed before on screen, wired as it was,
    until the exit animation of 0.3 s has ended, and shows these children
    from then on. *)
Record View : Type := {
  progress : list Progress;
  keyed_children : list Panel;
  back_button : bool;
  next_label : string;
  next_arrow : bool
}.

Definition render (w : Wizard.World) : View :=
  let currentStep := Wizard.currentStep w in
  let formData := Wizard.formData w in
  let errors := Wizard.errors w in
  let steps := MultiStepForm.steps in
  {| progress :=
       imap (fun index step =>
               {| number := Z.of_nat index + 1;
                  label := step;
                  reached := Z.of_nat index <=? currentStep;
                  connector :=
                    if Z.of_nat index <? Z.of_nat (length steps) - 1
                    then Some (Z.of_nat index <? currentStep) else None |})
            steps;
     keyed_children :=
       ((if currentStep =? 0
         then [PersonalInfoStep (prop formData "name") (prop formData "email") errors]
         else []) ++
        (if currentStep =? 1
         then [BirthDetailsStep (prop formData "birthDate") (prop formData "birthTime")
                                errors]
         else []) ++
        (if currentStep =? 2
         then [LocationStep (prop formData "birthCity") (prop formData "birthCountry")
                            (prop formData "latitude") (prop formData "longitude") errors]
         else []))%list;
     back_button := 0 <? currentStep;
     next_label := if currentStep =? Z.of_nat (length steps) - 1 then "Submit" else "Next";
     next_arrow := currentStep <? Z.of_nat (length steps) - 1 |}.

(** The index of the step a panel belongs to. *)
Definition panel_step (p : Panel) : Z :=
  match p with
  | PersonalInfoStep _ _ _ => 0
  | BirthDetailsStep _ _ _ => 1
  | LocationStep _ _ _ _ _ => 2
  end.


End WizardView.

(* ===================================================================== *)
(** * Sessions through the rendered interface                             *)
(* ===================================================================== *)

Module Session.
Import Js React Wizard WizardView.

(** The inputs a panel wires to [updateFormData]: [PersonalInfoStep] lines
    34 and 49, [BirthDetailsStep] lines 61 and 81, [LocationStep] lines 226
    and 241. *)
Definition input_of (p : Panel) (field : string) (value : JsValue) : Prop :=
  match p with
  | PersonalInfoStep _ _ _ => (field = "name" \/ field = "email") /\ is_string value
  | BirthDetailsStep _ _ _ =>
      (field = "birthDate" /\ is_date_or_undefined value) \/
      (field = "birthTime" /\ is_string value)
  | LocationStep _ _ _ _ _ =>
      (field = "birthCity" \/ field = "birthCountry") /\ is_string value
  end.

(** What the interface lets the user do in state [w].  The buttons are
    outside the animated container: Next, Reset and Save Progress always,
    Back when it is rendered.  The inputs on screen are those of the panel
    of the current step or, while an exit animation lasts, those of the
    panel shown before it, which are still wired to [updateFormData];
    which of the panels that is depends on the timing of the events, so
    an input of any of the three panels counts as offered.  In the same
    way a search result of the location panel counts as offered; a result
    is an entry of the mock list. *)
Definition offered (w : World) (e : event) : Prop :=
  match e with
  | Next | Reset | SaveProgress => True
  | Back => back_button (render w) = true
  | Update field value => exists p : Panel, input_of p field value
  | SelectLocation location => In location LocationStep.mockData
  end.

Inductive in_session : World -> Prop :=
| session_start storage : in_session (initial storage)
| session_step w e : in_session w -> offered w e -> in_session (dispatch w e).

(** Every event of a list is offered when its turn comes. *)
Fixpoint offered_all (w : World) (es : list event) : Prop :=
  match es with
  | [] => True
  | e :: es' => offered w e /\ offered_all (dispatch w e) es'
  end.

End Session.

(* ===================================================================== *)
(** * kundali-form.tsx                                                    *)
(* ===================================================================== *)

Module KundaliForm.
Import Js.

(** Lines 36-75. *)
Definition timezones : list string :=
  [ "UTC-12:00"; "UTC-11:00"; "UTC-10:00"; "UTC-09:30"; "UTC-09:00"; "UTC-08:00";
    "UTC-07:00"; "UTC-06:00"; "UTC-05:00"; "UTC-04:00"; "UTC-03:30"; "UTC-03:00";
    "UTC-02:00"; "UTC-01:00"; "UTC+00:00"; "UTC+01:00"; "UTC+02:00"; "UTC+03:00";
    "UTC+03:30"; "UTC+04:00"; "UTC+04:30"; "UTC+05:00"; "UTC+05:30"; "UTC+05:45";
    "UTC+06:00"; "UTC+06:30"; "UTC+07:00"; "UTC+08:00"; "UTC+08:45"; "UTC+09:00";
    "UTC+09:30"; "UTC+10:00"; "UTC+10:30"; "UTC+11:00"; "UTC+12:00"; "UTC+12:45";
    "UTC+13:00"; "UTC+14:00" ].

(** The component state (lines 78-91). *)
Record State : Type := {
  formData : gmap string JsValue;
  isSubmitted : bool
}.

Definition initialFormData : gmap string JsValue :=
  <["name" := VString ""]> (
  <["date" := VUndefined]> (
  <["time" := VString ""]> (
  <["isBS" := VBool false]> (
  <["place" := VString ""]> (
  <["latitude" := VString ""]> (
  <["longitude" := VString ""]> (
  <["timezone" := VString "UTC+05:45"]> (
  <["language" := VString "english"]> (
  <["showChart" := VBool true]> ∅))))))))).

Definition initialState : State :=
  {| formData := initialFormData; isSubmitted := false |}.

(** What the two handlers issue. *)
Inductive action : Type :=
| setFormData (u : gmap string JsValue -> gmap string JsValue) : action
| setIsSubmitted (b : bool) : action
| preventDefault : action
| console_log (message : string) (formData : gmap string JsValue) : action.

(** Lines 93-98. *)
Definition handleInputChange (field : string) (value : JsValue) : list action :=
  [ setFormData (fun prev => <[field := value]> prev) ].

(** Lines 100-105. *)
Definition handleSubmit (formData : gmap string JsValue) : list action :=
  [ preventDefault; setIsSubmitted true; console_log "Form submitted:" formData ].

Definition apply_action (a : action) (s : State) : State :=
  match a with
  | setFormData u => {| formData := u (formData s); isSubmitted := isSubmitted s |}
  | setIsSubmitted b => {| formData := formData s; isSubmitted := b |}
  | preventDefault | console_log _ _ => s
  end.

Definition apply_actions (l : list action) (s : State) : State :=
  fold_left (fun s a => apply_action a s) l s.

(** An input of the form (lines 124-307), or the submit button. *)
Inductive event : Type :=
| Input (field : string) (value : JsValue) : event
| Submit : event.

Definition dispatch (s : State) (e : event) : State :=
  match e with
  | Input field value => apply_actions (handleInputChange field value) s
  | Submit => apply_actions (handleSubmit (formData s)) s
  end.

Definition run (s : State) (es : list event) : State := fold_left dispatch es s.

(** Lines 324-328: the results below the form. *)
Definition results (s : State) : option KundaliResults.View :=
  if isSubmitted s then Some (KundaliResults.render (formData s)) else None.

(** The value of the latest input to [field] in a list of events. *)
Fixpoint last_input (field : string) (es : list event) : option JsValue :=
  match es with
  | [] => None
  | e :: es' =>
      match last_input field es' with
      | Some v => Some v
      | None =>
          match e with
          | Input f v => if String.eqb f field then Some v else None
          | Submit => None
          end
      end
  end.

Definition is_submit (e : event) : bool :=
  match e with Submit => true | Input _ _ => false end.

End KundaliForm.

(* ===================================================================== *)
(** * The results page in time (src/unnamed/part_002, lines 18-34)        *)
(* ===================================================================== *)

Module ResultsSession.
Import Js React.

(** The component state, the clock, the due time of the live timer of the
    effect, and whether the component is still mounted. *)
Record State : Type := {
  page : ResultsPage.State;
  now : Z;
  timer : option Z;
  mounted : bool
}.

(** A state update of a component that was unmounted is dropped. *)
Definition apply_action (a : action) (s : State) : State :=
  match a with
  | setTimeout load_user ms =>
      {| page := page s; now := now s; timer := Some (now s + ms); mounted := mounted s |}
  | clearTimeout handle_timer =>
      {| page := page s; now := now s; timer := None; mounted := mounted s |}
  | _ =>
      {| page := if mounted s then ResultsPage.apply_action a (page s) else page s;
         now := now s; timer := timer s; mounted := mounted s |}
  end.

Definition apply_actions (l : list action) (s : State) : State :=
  fold_left (fun s a => apply_action a s) l s.

(** Mounted at time [t]: the effect has run. *)
Definition mount (t : Z) : State :=
  apply_actions (fst ResultsPage.effect)
    {| page := ResultsPage.initialState; now := t; timer := None; mounted := true |}.

Inductive event : Type :=
| Elapse (ms : N) : event
| Unmount : event.

Definition set_clock (t : Z) (s : State) : State :=
  {| page := page s; now := t; timer := timer s; mounted := mounted s |}.

Definition disarm (s : State) : State :=
  {| page := page s; now := now s; timer := None; mounted := mounted s |}.

(** [localStorage] is what local storage holds while the page is open. *)
Definition step (localStorage : gmap string document) (s : State) (e : event) : State :=
  match e with
  | Elapse ms =>
      let t := now s + Z.of_N ms in
      match timer s with
      | Some due =>
          if due <=? t
          then set_clock t
                 (apply_actions (fst (Timers.fire load_user localStorage))
                    (set_clock due (disarm s)))
          else set_clock t s
      | None => set_clock t s
      end
  | Unmount =>
      let s' := apply_actions (fst ResultsPage.cleanup) s in
      {| page := page s'; now := now s'; timer := timer s'; mounted := false |}
  end.

Definition run (localStorage : gmap string document) (s : State) (es : list event) : State :=
  fold_left (step localStorage) es s.

(** The time a list of waits adds up to. *)
Definition total (ds : list N) : Z := fold_right (fun d acc => Z.of_N d + acc) 0 ds.

End ResultsSession.

(* ===================================================================== *)
(** * The house tabs for any list of houses                               *)
(* ===================================================================== *)

Module HouseTabs.
Import HouseInterpretations.

(** Lines 312-314: the house numbers that get a placeholder, for the list
    [data] in the place of [houseData]. *)
Definition without_data (data : list House) : list Z :=
  List.filter (fun num => negb (existsb (fun h => house h =? num) data)) house_numbers.

(** Lines 285-323: the content panels, for the list [data]. *)
Definition panels (data : list House) : list node :=
  (map content data ++ map placeholder (without_data data))%list.

(** The house number of each content panel, in order. *)
Definition panel_numbers (data : list House) : list Z :=
  (map house data ++ without_data data)%list.

End HouseTabs.

(* ===================================================================== *)
(** * More vocabulary                                                     *)
(* ===================================================================== *)

Module Spec2.
Import Js React.

(** The messages the validation of a step can attach, with their field. *)
Definition error_messages (step : Z) : list (string * string) :=
  if step =? 0 then
    [ ("name", "Name is required"); ("email", "Email is required");
      ("email", "Email is invalid") ]
  else if step =? 1 then
    [ ("birthDate", "Birth date is required"); ("birthTime", "Birth time is required") ]
  else if step =? 2 then
    [ ("birthCity", "Birth city is required"); ("birthCountry", "Birth country is required") ]
  else [].

(** What the dropdown is to show for a query once the lookup has caught
    up. *)
Definition matches_of (query : string) : list Location :=
  if 2 <? Z.of_nat (String.length query) then LocationStep.searchLocations query else [].

(** The search box and its timers agree: the spinner is off and the
    results are entries of the mock list; either no timer is pending and
    the results are those of the current query, or one timer is pending,
    the one whose id the next cleanup holds, which holds the current query
    and is due within the delay. *)
Definition lookup_consistent (s : LocationStep.State) : Prop :=
  LocationStep.searching s = false /\
  sublist (LocationStep.searchResults s) LocationStep.mockData /\
  ((LocationStep.timers s = [] /\
    LocationStep.searchResults s = matches_of (LocationStep.searchQuery s)) \/
   exists tm,
     LocationStep.timers s = [tm] /\
     LocationStep.delaySearch s = Some (LocationStep.timer_id tm) /\
     LocationStep.timer_query tm = LocationStep.searchQuery s /\
     LocationStep.now s < LocationStep.timer_due tm
       <= LocationStep.now s + LocationStep.debounce_ms).


End Spec2.

(* ===================================================================== *)
(** * Strings and regular expressions                                     *)
(* ===================================================================== *)

Section StringFacts.
Import Js Spec.

Lemma app_cons (c : ascii) (s t : string) : String c s ++ t = String c (s ++ t).
Proof. reflexivity. Qed.

Lemma app_empty_r (s : string) : s ++ "" = s.
Proof. induction s as [|c s IH]; [reflexivity|]. now rewrite app_cons, IH. Qed.

Lemma app_assoc_s (s t u : string) : (s ++ t) ++ u = s ++ t ++ u.
Proof. induction s as [|c s IH]; [reflexivity|]. now rewrite !app_cons, IH. Qed.

Lemma app_eq_empty (s t : string) : s ++ t = "" -> s = "" /\ t = "".
Proof. destruct s; [intros H; split; [reflexivity|exact H] | discriminate]. Qed.

Lemma length_app_s (s t : string) :
  String.length (s ++ t) = (String.length s + String.length t)%nat.
Proof. induction s as [|c s IH]; [reflexivity|]. rewrite app_cons. simpl. now rewrite IH. Qed.

Lemma all_whitespace_spec (s : string) : all_whitespace s = true <-> whitespace_only s.
Proof.
  induction s as [|c s IH]; simpl.
  - split; [intros _ i ch H; destruct i; discriminate | reflexivity].
  - rewrite andb_true_iff, IH. split.
    + intros [Hc Hs] [|i] ch H; simpl in H.
      * now inversion H; subst.
      * eauto.
    + intros H. split.
      * apply (H 0%nat c). reflexivity.
      * intros i ch Hi. apply (H (S i) ch). exact Hi.
Qed.

Lemma trimStart_empty (s : string) : trimStart s = "" <-> all_whitespace s = true.
Proof.
  induction s as [|c s IH]; simpl; [tauto|].
  destruct (isWhiteSpace c); simpl; [exact IH|]. split; discriminate.
Qed.

Lemma trimEnd_empty (s : string) : trimEnd s = "" <-> all_whitespace s = true.
Proof.
  induction s as [|c s IH]; simpl; [tauto|].
  destruct (trimEnd s) eqn:E.
  - destruct (isWhiteSpace c); simpl.
    + split; [intros _; now apply IH | reflexivity].
    + split; discriminate.
  - split; [discriminate|]. rewrite andb_true_iff. intros [_ H].
    apply IH in H. discriminate.
Qed.

Lemma all_whitespace_trimStart (s : string) :
  all_whitespace (trimStart s) = all_whitespace s.
Proof.
  induction s as [|c s IH]; simpl; [reflexivity|].
  destruct (isWhiteSpace c) eqn:E; simpl; [exact IH | now rewrite E].
Qed.

(** [trim] leaves nothing exactly of the strings that are empty or white
    space only. *)
Lemma trim_empty (s : string) : trim s = "" <-> whitespace_only s.
Proof.
  unfold trim. now rewrite trimEnd_empty, all_whitespace_trimStart, all_whitespace_spec.
Qed.

Lemma is_empty_true (s : string) : MultiStepForm.is_empty s = true <-> s = "".
Proof.
  unfold MultiStepForm.is_empty, truthy. rewrite negb_involutive. apply String.eqb_eq.
Qed.

Lemma is_empty_trim (s : string) :
  MultiStepForm.is_empty (trim s) = true <-> whitespace_only s.
Proof. now rewrite is_empty_true, trim_empty. Qed.

Lemma is_empty_trim_false (s : string) :
  MultiStepForm.is_empty (trim s) = false <-> ~ whitespace_only s.
Proof. rewrite <- is_empty_trim. now destruct (MultiStepForm.is_empty (trim s)). Qed.

End StringFacts.

Section RegexFacts.
Import Js Spec.

Lemma Lang_empty_nullable (r : regex) (s : string) :
  Lang r s -> s = "" -> nullable r = true.
Proof.
  induction 1 as [ | p c Hp | r1 r2 s1 s2 _ IH1 _ IH2 | r1 r2 s _ IH | r1 r2 s _ IH
                 | r | r s1 s2 _ _ _ _ ]; intros E; simpl; try reflexivity.
  - discriminate.
  - apply app_eq_empty in E as [E1 E2]. now rewrite IH1, IH2.
  - now rewrite IH.
  - rewrite IH by assumption. apply orb_true_r.
Qed.

Lemma nullable_Lang (r : regex) : nullable r = true -> Lang r "".
Proof.
  induction r as [ | | p | r1 IH1 r2 IH2 | r1 IH1 r2 IH2 | r IH ]; simpl; intros H.
  - discriminate.
  - constructor.
  - discriminate.
  - apply andb_true_iff in H as [H1 H2].
    change "" with ("" ++ ""). constructor; auto.
  - apply orb_true_iff in H as [H|H]; [apply Lang_Alt_l | apply Lang_Alt_r]; auto.
  - constructor.
Qed.

Lemma nullable_spec (r : regex) : nullable r = true <-> Lang r "".
Proof. split; [apply nullable_Lang | intros H; now apply (Lang_empty_nullable r "")]. Qed.

Lemma deriv_sound (c : ascii) (r : regex) :
  forall s, Lang (deriv c r) s -> Lang r (String c s).
Proof.
  induction r as [ | | p | r1 IH1 r2 IH2 | r1 IH1 r2 IH2 | r IH ]; simpl; intros s H.
  - inversion H.
  - inversion H.
  - destruct (p c) eqn:Hp; inversion H; subst. now constructor.
  - assert (Hcat : forall t, Lang (Cat (deriv c r1) r2) t -> Lang (Cat r1 r2) (String c t)).
    { intros t Ht. inversion Ht as [ | | ? ? s1 s2 Ha Hb | | | | ]; subst.
      rewrite <- app_cons. constructor; auto. }
    destruct (nullable r1) eqn:Hn; [|now apply Hcat].
    inversion H as [ | | | ? ? ? Hl | ? ? ? Hr | | ]; subst; [now apply Hcat|].
    change (String c s) with ("" ++ String c s).
    constructor; [now apply nullable_Lang | auto].
  - inversion H; subst; [apply Lang_Alt_l | apply Lang_Alt_r]; auto.
  - inversion H as [ | | ? ? s1 s2 Ha Hb | | | | ]; subst.
    rewrite <- app_cons. constructor; auto.
Qed.

Lemma deriv_complete (r : regex) (w : string) :
  Lang r w -> forall c s, w = String c s -> Lang (deriv c r) s.
Proof.
  induction 1 as [ | p c0 Hp | r1 r2 s1 s2 H1 IH1 H2 IH2 | r1 r2 s0 _ IH | r1 r2 s0 _ IH
                 | r | r s1 s2 H1 IH1 H2 IH2 ]; intros c s E; simpl.
  - discriminate.
  - inversion E; subst. rewrite Hp. constructor.
  - destruct s1 as [|c1 s1'].
    + simpl in E. rewrite (Lang_empty_nullable r1 "" H1 eq_refl).
      apply Lang_Alt_r. now apply IH2.
    + rewrite app_cons in E. inversion E; subst.
      assert (Lang (Cat (deriv c r1) r2) (s1' ++ s2)) by (constructor; auto).
      destruct (nullable r1); [now apply Lang_Alt_l | assumption].
  - apply Lang_Alt_l. now apply IH.
  - apply Lang_Alt_r. now apply IH.
  - discriminate.
  - destruct s1 as [|c1 s1'].
    + simpl in E. now apply IH2.
    + rewrite app_cons in E. inversion E; subst. constructor; auto.
Qed.

Lemma deriv_spec (c : ascii) (r : regex) (s : string) :
  Lang (deriv c r) s <-> Lang r (String c s).
Proof. split; [apply deriv_sound | intros H; now apply (deriv_complete r _ H)]. Qed.

(** The matcher decides the words of the expression. *)
Lemma matches_spec (s : string) : forall r, matches r s = true <-> Lang r s.
Proof.
  induction s as [|c s IH]; intros r; simpl.
  - apply nullable_spec.
  - now rewrite IH, deriv_spec.
Qed.

Lemma Lang_Star_AnyUnit (s : string) : Lang (Star AnyUnit) s.
Proof.
  induction s as [|c s IH]; [constructor|].
  change (String c s) with (String c "" ++ s). constructor; [now constructor | exact IH].
Qed.

(** [test] answers whether the expression matches somewhere. *)
Lemma RegExp_test_spec (r : regex) (s : string) : RegExp_test r s = true <-> found r s.
Proof.
  unfold RegExp_test, found. rewrite matches_spec. split.
  - intros H. inversion H as [ | | ? ? pre rest _ Hrest | | | | ]; subst.
    inversion Hrest as [ | | ? ? m post Hm _ | | | | ]; subst.
    now exists pre, m, post.
  - intros (pre & m & post & -> & Hm).
    constructor; [apply Lang_Star_AnyUnit|].
    constructor; [exact Hm | apply Lang_Star_AnyUnit].
Qed.

Lemma RegExp_test_false (r : regex) (s : string) :
  RegExp_test r s = false <-> ~ found r s.
Proof. rewrite <- RegExp_test_spec. now destruct (RegExp_test r s). Qed.

Lemma no_whitespace_nil : no_whitespace "".
Proof. intros [|i] c H; discriminate. Qed.

Lemma no_whitespace_cons (c : ascii) (s : string) :
  no_whitespace (String c s) <-> isWhiteSpace c = false /\ no_whitespace s.
Proof.
  split.
  - intros H. split; [apply (H 0%nat); reflexivity|].
    intros i ch Hi. now apply (H (S i)).
  - intros [Hc Hs] [|i] ch Hi; simpl in Hi; [now inversion Hi; subst | eauto].
Qed.

Lemma Lang_NonSpace (m : string) :
  Lang NonSpace m <-> exists c, m = String c "" /\ isWhiteSpace c = false.
Proof.
  unfold NonSpace. split.
  - intros H. inversion H as [ | p c Hc | | | | | ]; subst.
    exists c. split; [reflexivity|]. now apply negb_true_iff.
  - intros (c & -> & Hc). constructor. now rewrite Hc.
Qed.

Lemma Lang_Star_NonSpace (w : string) : Lang (Star NonSpace) w <-> no_whitespace w.
Proof.
  split.
  - intros H. remember (Star NonSpace) as r eqn:Er.
    induction H as [ | | | | | r0 | r0 s1 s2 H1 _ H2 IH2 ];
      [discriminate Er ..| apply no_whitespace_nil |].
    inversion Er; subst. apply Lang_NonSpace in H1 as (c & -> & Hc).
    rewrite app_cons. simpl. apply no_whitespace_cons. auto.
  - induction w as [|c w IH]; intros H; [constructor|].
    apply no_whitespace_cons in H as [Hc Hw].
    change (String c w) with (String c "" ++ w).
    constructor; [apply Lang_NonSpace; eauto | auto].
Qed.

Lemma Lang_Plus_NonSpace (w : string) :
  Lang (Plus NonSpace) w <-> w <> "" /\ no_whitespace w.
Proof.
  unfold Plus. split.
  - intros H. inversion H as [ | | ? ? s1 s2 H1 H2 | | | | ]; subst.
    apply Lang_NonSpace in H1 as (c & -> & Hc). apply Lang_Star_NonSpace in H2.
    rewrite app_cons. simpl. split; [discriminate | now apply no_whitespace_cons].
  - intros [Hne H]. destruct w as [|c w]; [congruence|].
    apply no_whitespace_cons in H as [Hc Hw].
    change (String c w) with (String c "" ++ w).
    constructor; [apply Lang_NonSpace; eauto | now apply Lang_Star_NonSpace].
Qed.

Lemma Lang_Lit (c : ascii) (m : string) : Lang (Lit c) m <-> m = String c "".
Proof.
  unfold Lit. split.
  - intros H. inversion H as [ | p c0 Hc | | | | | ]; subst.
    apply Ascii.eqb_eq in Hc. now subst.
  - intros ->. constructor. apply Ascii.eqb_refl.
Qed.

Lemma Lang_email_pattern (m : string) :
  Lang MultiStepForm.email_pattern m <->
  exists a b c, m = a ++ "@" ++ b ++ "." ++ c /\
    a <> "" /\ b <> "" /\ c <> "" /\
    no_whitespace a /\ no_whitespace b /\ no_whitespace c.
Proof.
  unfold MultiStepForm.email_pattern. split.
  - intros H.
    inversion H as [ | | ? ? a r1 Ha H1 | | | | ]; subst.
    inversion H1 as [ | | ? ? at_ r2 Hat H2 | | | | ]; subst.
    inversion H2 as [ | | ? ? b r3 Hb H3 | | | | ]; subst.
    inversion H3 as [ | | ? ? dot c Hdot Hc | | | | ]; subst.
    apply Lang_Lit in Hat, Hdot. subst.
    apply Lang_Plus_NonSpace in Ha as [? ?], Hb as [? ?], Hc as [? ?].
    exists a, b, c. repeat split; auto.
  - intros (a & b & c & -> & Ha & Hb & Hc & Wa & Wb & Wc).
    constructor; [now apply Lang_Plus_NonSpace|].
    constructor; [now apply Lang_Lit|].
    constructor; [now apply Lang_Plus_NonSpace|].
    constructor; [now apply Lang_Lit | now apply Lang_Plus_NonSpace].
Qed.

(** The pattern of the e-mail check finds exactly the shape it spells. *)
Lemma found_email_pattern (s : string) :
  found MultiStepForm.email_pattern s <-> email_shape s.
Proof.
  unfold found, email_shape. split.
  - intros (pre & m & post & -> & Hm).
    apply Lang_email_pattern in Hm as (a & b & c & -> & H).
    exists pre, a, b, c, post. split; [|exact H].
    now rewrite !app_assoc_s.
  - intros (pre & a & b & c & post & -> & H).
    exists pre, (a ++ "@" ++ b ++ "." ++ c), post. split.
    + now rewrite !app_assoc_s.
    + apply Lang_email_pattern. now exists a, b, c.
Qed.

End RegexFacts.

(* ===================================================================== *)
(** * The wizard                                                          *)
(* ===================================================================== *)

Section ValidationFacts.
Import Js React Spec MultiStepForm.

Lemma is_empty_trim_all (s : string) : is_empty (trim s) = all_whitespace s.
Proof. apply eq_true_iff_eq. now rewrite is_empty_trim, all_whitespace_spec. Qed.

Lemma all_whitespace_false (s : string) : all_whitespace s = false <-> ~ whitespace_only s.
Proof. rewrite <- all_whitespace_spec. now destruct (all_whitespace s). Qed.

Lemma size_zero_iff (E : gmap string string) :
  bool_decide (size E = 0%nat) = true <-> E = ∅.
Proof. rewrite bool_decide_eq_true. apply map_size_empty_iff. Qed.

(** A map whose entries are known key by key. *)
Lemma two_keys_empty (E : gmap string string) (k1 k2 : string) :
  (forall k, k <> k1 -> k <> k2 -> E !! k = None) ->
  E = ∅ <-> E !! k1 = None /\ E !! k2 = None.
Proof.
  intros Hother. split.
  - intros ->. now rewrite !lookup_empty.
  - intros [H1 H2]. apply map_eq. intros k. rewrite lookup_empty.
    destruct (decide (k = k1)) as [->|]; [exact H1|].
    destruct (decide (k = k2)) as [->|]; [exact H2|]. now apply Hother.
Qed.

Lemma two_keys_shown (E : gmap string string) (k1 k2 : string) :
  (forall k, k <> k1 -> k <> k2 -> E !! k = None) ->
  (forall m, E !! k1 = Some m -> m <> "") ->
  (forall m, E !! k2 = Some m -> m <> "") ->
  messages_shown E.
Proof.
  intros Hother H1 H2 k m Hk.
  destruct (decide (k = k1)) as [->|]; [eauto|].
  destruct (decide (k = k2)) as [->|]; [eauto|].
  rewrite Hother in Hk by assumption. discriminate.
Qed.

(** The run of the validation on the personal-info step, for a name and an
    e-mail address that are strings. *)
Lemma validate_step0 (fd : gmap string JsValue) (name email : string) :
  prop fd "name" = VString name -> prop fd "email" = VString email ->
  exists E : gmap string string,
    validateCurrentStep 0 fd =
      ([setErrors (fun _ => E)], Some (bool_decide (size E = 0%nat))) /\
    (E !! "name" = if all_whitespace name then Some "Name is required" else None) /\
    (E !! "email" =
       if all_whitespace email then Some "Email is required"
       else if RegExp_test email_pattern email then None
            else Some "Email is invalid") /\
    (forall k, k <> "name" -> k <> "email" -> E !! k = None) /\
    messages_shown E.
Proof.
  intros Hn He. unfold validateCurrentStep.
  rewrite Hn, He. change (0 =? 0) with true. cbv iota. run_M.
  eexists. split; [reflexivity|]. rewrite !is_empty_trim_all.
  match goal with |- ?A /\ ?B /\ ?C /\ _ => assert (H : A /\ B /\ C) end.
  { destruct (all_whitespace name), (all_whitespace email),
      (RegExp_test email_pattern email); cbn [negb];
      (split; [|split]); try reflexivity;
      intros k H1 H2; rewrite ?lookup_insert_ne by congruence; apply lookup_empty. }
  destruct H as (H1 & H2 & H3). repeat split; try assumption.
  apply (two_keys_shown _ "name" "email" H3); intros m Hm.
  - rewrite H1 in Hm. destruct (all_whitespace name); now inversion Hm.
  - rewrite H2 in Hm.
    destruct (all_whitespace email), (RegExp_test email_pattern email); now inversion Hm.
Qed.

(** The same on the birth-details step, where the two fields are tested for
    truthiness as they are. *)
Lemma validate_step1 (fd : gmap string JsValue) :
  exists E : gmap string string,
    validateCurrentStep 1 fd =
      ([setErrors (fun _ => E)], Some (bool_decide (size E = 0%nat))) /\
    (E !! "birthDate" =
       if truthy (prop fd "birthDate") then None else Some "Birth date is required") /\
    (E !! "birthTime" =
       if truthy (prop fd "birthTime") then None else Some "Birth time is required") /\
    (forall k, k <> "birthDate" -> k <> "birthTime" -> E !! k = None) /\
    messages_shown E.
Proof.
  unfold validateCurrentStep.
  change (1 =? 0) with false. change (1 =? 1) with true. cbv iota. run_M.
  eexists. split; [reflexivity|].
  match goal with |- ?A /\ ?B /\ ?C /\ _ => assert (H : A /\ B /\ C) end.
  { destruct (truthy (prop fd "birthDate")), (truthy (prop fd "birthTime")); cbn [negb];
      (split; [|split]); try reflexivity;
      intros k H1 H2; rewrite ?lookup_insert_ne by congruence; apply lookup_empty. }
  destruct H as (H1 & H2 & H3). repeat split; try assumption.
  apply (two_keys_shown _ "birthDate" "birthTime" H3); intros m Hm.
  - rewrite H1 in Hm. destruct (truthy (prop fd "birthDate")); now inversion Hm.
  - rewrite H2 in Hm. destruct (truthy (prop fd "birthTime")); now inversion Hm.
Qed.

(** The same on the location step. *)
Lemma validate_step2 (fd : gmap string JsValue) (birthCity birthCountry : string) :
  prop fd "birthCity" = VString birthCity ->
  prop fd "birthCountry" = VString birthCountry ->
  exists E : gmap string string,
    validateCurrentStep 2 fd =
      ([setErrors (fun _ => E)], Some (bool_decide (size E = 0%nat))) /\
    (E !! "birthCity" =
       if all_whitespace birthCity then Some "Birth city is required" else None) /\
    (E !! "birthCountry" =
       if all_whitespace birthCountry then Some "Birth country is required" else None) /\
    (forall k, k <> "birthCity" -> k <> "birthCountry" -> E !! k = None) /\
    messages_shown E.
Proof.
  intros Hc Hk. unfold validateCurrentStep.
  rewrite Hc, Hk.
  change (2 =? 0) with false. change (2 =? 1) with false. change (2 =? 2) with true.
  cbv iota. run_M.
  eexists. split; [reflexivity|]. rewrite !is_empty_trim_all.
  match goal with |- ?A /\ ?B /\ ?C /\ _ => assert (H : A /\ B /\ C) end.
  { destruct (all_whitespace birthCity), (all_whitespace birthCountry);
      (split; [|split]); try reflexivity;
      intros k H1 H2; rewrite ?lookup_insert_ne by congruence; apply lookup_empty. }
  destruct H as (H1 & H2 & H3). repeat split; try assumption.
  apply (two_keys_shown _ "birthCity" "birthCountry" H3); intros m Hm.
  - rewrite H1 in Hm. destruct (all_whitespace birthCity); now inversion Hm.
  - rewrite H2 in Hm. destruct (all_whitespace birthCountry); now inversion Hm.
Qed.

Lemma validate_other (step : Z) (fd : gmap string JsValue) :
  step <> 0 -> step <> 1 -> step <> 2 ->
  validateCurrentStep step fd =
    ([setErrors (fun _ => ∅)], Some (bool_decide (size (∅ : gmap string string) = 0%nat))).
Proof.
  intros H0 H1 H2. unfold validateCurrentStep.
  apply Z.eqb_neq in H0, H1, H2. rewrite H0, H1, H2. reflexivity.
Qed.

(** Whatever the form holds, the validation either throws before it has
    issued anything, or sets the error map once and returns whether the
    map is empty. *)
Lemma validate_shape (step : Z) (fd : gmap string JsValue) :
  validateCurrentStep step fd = ([], None) \/
  exists E : gmap string string,
    validateCurrentStep step fd =
      ([setErrors (fun _ => E)], Some (bool_decide (size E = 0%nat))) /\
    messages_shown E.
Proof.
  destruct (decide (step = 0)) as [->|N0];
    [| destruct (decide (step = 1)) as [->|N1];
       [| destruct (decide (step = 2)) as [->|N2]]].
  - destruct (prop fd "name") as [ | | | name | | ] eqn:Hn;
      try (left; unfold validateCurrentStep; rewrite Hn; reflexivity).
    destruct (prop fd "email") as [ | | | email | | ] eqn:He;
      try (left; unfold validateCurrentStep; rewrite Hn, He; reflexivity).
    right. destruct (validate_step0 fd name email Hn He) as (E & HE & _ & _ & _ & HS).
    now exists E.
  - right. destruct (validate_step1 fd) as (E & HE & _ & _ & _ & HS). now exists E.
  - destruct (prop fd "birthCity") as [ | | | birthCity | | ] eqn:Hc;
      try (left; unfold validateCurrentStep; rewrite Hc; reflexivity).
    destruct (prop fd "birthCountry") as [ | | | birthCountry | | ] eqn:Hk;
      try (left; unfold validateCurrentStep; rewrite Hc, Hk; reflexivity).
    right. destruct (validate_step2 fd _ _ Hc Hk) as (E & HE & _ & _ & _ & HS).
    now exists E.
  - right. exists ∅. split; [now apply validate_other|].
    intros k m Hm. rewrite lookup_empty in Hm. discriminate.
Qed.

End ValidationFacts.

Section WizardFacts.
Import Js React Spec MultiStepForm Wizard.

Lemma world_eta (w : World) :
  {| currentStep := Wizard.currentStep w; formData := Wizard.formData w;
     errors := Wizard.errors w; localStorage := localStorage w |} = w.
Proof. now destruct w. Qed.

(** Next after a validation that built the error map [E]: the map replaces
    the old one, and the step index moves on by one when [E] is empty and
    the step is not the last. *)
Lemma dispatch_Next_validated (w : World) (E : gmap string string) :
  validateCurrentStep (Wizard.currentStep w) (Wizard.formData w) =
    ([setErrors (fun _ => E)], Some (bool_decide (size E = 0%nat))) ->
  dispatch w Next =
    {| currentStep :=
         if bool_decide (size E = 0%nat) && (Wizard.currentStep w <? 2)
         then Wizard.currentStep w + 1 else Wizard.currentStep w;
       formData := Wizard.formData w;
       errors := E;
       localStorage := localStorage w |}.
Proof.
  intros HV. unfold dispatch, run_handler, handler, handleNext. rewrite HV. run_M.
  change (Z.of_nat (length steps) - 1) with 2.
  destruct (bool_decide (size E = 0%nat)) eqn:Hb; cbn [andb].
  - destruct (Wizard.currentStep w <? 2) eqn:Hlt.
    + reflexivity.
    + unfold handleSubmit. rewrite HV. reflexivity.
  - reflexivity.
Qed.

(** Next: nothing happens when the validation throws. *)
Lemma dispatch_Next_cases (w : World) :
  dispatch w Next = w \/
  exists E : gmap string string,
    validateCurrentStep (Wizard.currentStep w) (Wizard.formData w) =
      ([setErrors (fun _ => E)], Some (bool_decide (size E = 0%nat))) /\
    messages_shown E /\
    dispatch w Next =
      {| currentStep :=
           if bool_decide (size E = 0%nat) && (Wizard.currentStep w <? 2)
           then Wizard.currentStep w + 1 else Wizard.currentStep w;
         formData := Wizard.formData w;
         errors := E;
         localStorage := localStorage w |}.
Proof.
  destruct (validate_shape (Wizard.currentStep w) (Wizard.formData w))
    as [HV | (E & HV & HS)].
  - left. unfold dispatch, run_handler, handler, handleNext. rewrite HV. reflexivity.
  - right. exists E. split; [exact HV|]. split; [exact HS|].
    now apply dispatch_Next_validated.
Qed.

Lemma dispatch_Back (w : World) :
  dispatch w Back =
    {| currentStep :=
         if 0 <? Wizard.currentStep w then Wizard.currentStep w - 1
         else Wizard.currentStep w;
       formData := Wizard.formData w; errors := Wizard.errors w;
       localStorage := localStorage w |}.
Proof.
  unfold dispatch, run_handler, handler, handlePrevious.
  destruct (0 <? Wizard.currentStep w); [reflexivity | now destruct w].
Qed.

Lemma dispatch_Reset (w : World) :
  dispatch w Reset =
    {| currentStep := 0; formData := initialFormData; errors := ∅;
       localStorage := localStorage w |}.
Proof. reflexivity. Qed.

Lemma dispatch_SaveProgress (w : World) :
  dispatch w SaveProgress =
    {| currentStep := Wizard.currentStep w; formData := Wizard.formData w;
       errors := Wizard.errors w;
       localStorage :=
         <["kundaliFormStep" := Number_toString (Wizard.currentStep w)]>
           (<["kundaliFormData" := JSON_stringify (Wizard.formData w)]> (localStorage w)) |}.
Proof. reflexivity. Qed.

Lemma dispatch_Update (w : World) (field : string) (value : JsValue) :
  dispatch w (Update field value) =
    {| currentStep := Wizard.currentStep w;
       formData := <[field := value]> (Wizard.formData w);
       errors :=
         if has_error (Wizard.errors w) field then delete field (Wizard.errors w)
         else Wizard.errors w;
       localStorage := localStorage w |}.
Proof.
  unfold dispatch, run_handler, handler, handleUpdateFormData. run_M.
  now destruct (has_error (Wizard.errors w) field).
Qed.

(** The four updates of a selection are all applied, one on top of the
    other; each drops the entry of its field from the error map when the
    render the handler belongs to had one. *)
Lemma dispatch_SelectLocation (w : World) (location : Location) :
  let drop k (m : gmap string string) :=
    if has_error (Wizard.errors w) k then delete k m else m in
  dispatch w (SelectLocation location) =
    {| currentStep := Wizard.currentStep w;
       formData :=
         <["longitude" := VNumber (lng location)]> (
         <["latitude" := VNumber (lat location)]> (
         <["birthCountry" := VString (country location)]> (
         <["birthCity" := VString (city location)]> (Wizard.formData w))));
       errors :=
         drop "longitude" (drop "latitude" (drop "birthCountry"
           (drop "birthCity" (Wizard.errors w))));
       localStorage := localStorage w |}.
Proof.
  intros drop. subst drop.
  unfold dispatch, run_handler, handler, LocationStep.handleLocationSelect,
    handleUpdateFormData. run_M.
  destruct (has_error (Wizard.errors w) "birthCity");
    destruct (has_error (Wizard.errors w) "birthCountry");
    destruct (has_error (Wizard.errors w) "latitude");
    destruct (has_error (Wizard.errors w) "longitude"); reflexivity.
Qed.

Lemma has_error_false (E : gmap string string) (k : string) :
  messages_shown E -> has_error E k = false -> E !! k = None.
Proof.
  unfold has_error. intros HS H. destruct (E !! k) as [m|] eqn:Hk; [|reflexivity].
  apply negb_false_iff, String.eqb_eq in H. now apply HS in Hk.
Qed.

(** With messages that are never empty, the conditional removal is the
    removal. *)
Lemma drop_is_delete (E E' : gmap string string) (k : string) :
  messages_shown E -> (forall m, E' !! k = Some m -> E !! k = Some m) ->
  (if has_error E k then delete k E' else E') = delete k E'.
Proof.
  intros HS Hsub. destruct (has_error E k) eqn:H; [reflexivity|].
  symmetry. apply delete_id.
  destruct (E' !! k) as [m|] eqn:Hk; [|reflexivity].
  pose proof (Hsub m eq_refl) as Hm. rewrite (has_error_false E k HS H) in Hm.
  discriminate.
Qed.

Lemma messages_shown_delete (E : gmap string string) (k : string) :
  messages_shown E -> messages_shown (delete k E).
Proof.
  intros HS f m H. apply lookup_delete_Some in H as [_ H]. now apply (HS f).
Qed.

Lemma messages_shown_drop (E0 E : gmap string string) (k : string) :
  messages_shown E -> messages_shown (if has_error E0 k then delete k E else E).
Proof. intros HS. destruct (has_error E0 k); [now apply messages_shown_delete | exact HS]. Qed.

Lemma prop_insert (o : gmap string JsValue) (k k' : string) (v : JsValue) :
  prop (<[k := v]> o) k' = if decide (k = k') then v else prop o k'.
Proof. unfold prop. rewrite lookup_insert. now destruct (decide (k = k')). Qed.

Lemma FormData_initial : FormData initialFormData.
Proof.
  unfold FormData, is_string, is_date_or_undefined, is_number_or_null.
  repeat split; vm_compute; eauto.
Qed.

End WizardFacts.

Section Invariants.
Import Js React Spec MultiStepForm Wizard.

(** On a form that has the shape of the interface [FormData], the
    validation of a step of the wizard does not throw, and the error map it
    builds is empty exactly when the checks of the step pass. *)
Lemma validate_typed (step : Z) (fd : gmap string JsValue) :
  FormData fd -> 0 <= step <= 2 ->
  exists E : gmap string string,
    validateCurrentStep step fd =
      ([setErrors (fun _ => E)], Some (bool_decide (size E = 0%nat))) /\
    messages_shown E /\
    (E = ∅ <-> checks_pass step fd).
Proof.
  intros (Tn & Te & Td & Tt & Tc & Tk & _ & _) Hstep.
  assert (Hcases : step = 0 \/ step = 1 \/ step = 2) by lia.
  destruct Hcases as [-> | [-> | ->]].
  - destruct Tn as [name Hn], Te as [email He].
    destruct (validate_step0 fd name email Hn He) as (E & HE & H1 & H2 & H3 & HS).
    exists E. split; [exact HE|]. split; [exact HS|].
    rewrite (two_keys_empty E "name" "email" H3), H1, H2. unfold checks_pass. split.
    + intros [Ha Hb]. split; [|split; intros; discriminate].
      intros _. exists name, email.
      destruct (all_whitespace name) eqn:Wn; [discriminate|].
      destruct (all_whitespace email) eqn:We; [discriminate|].
      destruct (RegExp_test email_pattern email) eqn:Hr; [|discriminate].
      apply all_whitespace_false in Wn, We. apply RegExp_test_spec in Hr. auto.
    + intros (H0 & _ & _). destruct (H0 eq_refl) as (n & e & Hn' & He' & Wn & We & Hf).
      rewrite Hn in Hn'. rewrite He in He'. inversion Hn'; inversion He'; subst n e.
      apply all_whitespace_false in Wn, We. apply RegExp_test_spec in Hf.
      now rewrite Wn, We, Hf.
  - destruct Tt as [time Ht].
    destruct (validate_step1 fd) as (E & HE & H1 & H2 & H3 & HS).
    exists E. split; [exact HE|]. split; [exact HS|].
    rewrite (two_keys_empty E "birthDate" "birthTime" H3), H1, H2. unfold checks_pass.
    rewrite Ht. cbn [truthy]. split.
    + intros [Ha Hb]. split; [intros; discriminate|]. split; [|intros; discriminate].
      intros _. split.
      * destruct Td as [Hd | [t Hd]]; rewrite Hd in Ha |- *; [discriminate | eauto].
      * exists time. split; [reflexivity|].
        destruct (String.eqb_spec time ""); [discriminate | assumption].
    + intros (_ & H1' & _). destruct (H1' eq_refl) as ([t Hd] & (time' & Ht' & Hne)).
      inversion Ht'; subst time'. rewrite Hd. cbn [truthy]. split; [reflexivity|].
      destruct (String.eqb_spec time ""); [contradiction | reflexivity].
  - destruct Tc as [birthCity Hc], Tk as [birthCountry Hk].
    destruct (validate_step2 fd _ _ Hc Hk) as (E & HE & H1 & H2 & H3 & HS).
    exists E. split; [exact HE|]. split; [exact HS|].
    rewrite (two_keys_empty E "birthCity" "birthCountry" H3), H1, H2.
    unfold checks_pass. split.
    + intros [Ha Hb]. split; [intros; discriminate|]. split; [intros; discriminate|].
      intros _. exists birthCity, birthCountry.
      destruct (all_whitespace birthCity) eqn:Wc; [discriminate|].
      destruct (all_whitespace birthCountry) eqn:Wk; [discriminate|].
      apply all_whitespace_false in Wc, Wk. auto.
    + intros (_ & _ & H2'). destruct (H2' eq_refl) as (c & k & Hc' & Hk' & Wc & Wk).
      rewrite Hc in Hc'. rewrite Hk in Hk'. inversion Hc'; inversion Hk'; subst c k.
      apply all_whitespace_false in Wc, Wk. now rewrite Wc, Wk.
Qed.

(** Next on a form of the right shape. *)
Lemma dispatch_Next_typed (w : World) :
  FormData (Wizard.formData w) -> 0 <= Wizard.currentStep w <= 2 ->
  exists E : gmap string string,
    messages_shown E /\
    (E = ∅ <-> checks_pass (Wizard.currentStep w) (Wizard.formData w)) /\
    validateCurrentStep (Wizard.currentStep w) (Wizard.formData w) =
      ([setErrors (fun _ => E)], Some (bool_decide (size E = 0%nat))) /\
    dispatch w Next =
      {| currentStep :=
           if bool_decide (size E = 0%nat) && (Wizard.currentStep w <? 2)
           then Wizard.currentStep w + 1 else Wizard.currentStep w;
         formData := Wizard.formData w;
         errors := E;
         localStorage := localStorage w |}.
Proof.
  intros HT Hstep.
  destruct (validate_typed _ _ HT Hstep) as (E & HV & HS & Hiff).
  exists E. split; [exact HS|]. split; [exact Hiff|]. split; [exact HV|].
  now apply dispatch_Next_validated.
Qed.

Lemma FormData_insert (fd : gmap string JsValue) (k : string) (v : JsValue) :
  FormData fd ->
  (k = "name" -> is_string v) -> (k = "email" -> is_string v) ->
  (k = "birthDate" -> is_date_or_undefined v) -> (k = "birthTime" -> is_string v) ->
  (k = "birthCity" -> is_string v) -> (k = "birthCountry" -> is_string v) ->
  (k = "latitude" -> is_number_or_null v) -> (k = "longitude" -> is_number_or_null v) ->
  FormData (<[k := v]> fd).
Proof.
  intros (H1 & H2 & H3 & H4 & H5 & H6 & H7 & H8) T1 T2 T3 T4 T5 T6 T7 T8.
  unfold FormData. rewrite !prop_insert.
  repeat split; case_decide; auto.
Qed.

Lemma FormData_ui_update (fd : gmap string JsValue) (k : string) (v : JsValue) :
  FormData fd -> ui_event (Update k v) -> FormData (<[k := v]> fd).
Proof.
  intros HT Hui. apply FormData_insert; [exact HT|..];
    inversion Hui; subst; intros Hk; try discriminate Hk;
    unfold is_string, is_date_or_undefined; eauto.
Qed.

Lemma FormData_select (fd : gmap string JsValue) (location : Location) :
  FormData fd ->
  FormData (<["longitude" := VNumber (lng location)]> (
            <["latitude" := VNumber (lat location)]> (
            <["birthCountry" := VString (country location)]> (
            <["birthCity" := VString (city location)]> fd)))).
Proof.
  intros HT.
  repeat (apply FormData_insert; [|intros Hk; try discriminate Hk;
            unfold is_string, is_number_or_null; eauto ..]).
  exact HT.
Qed.

(** What every event of the interface keeps: the form has the shape of
    [FormData], the step index is one of the three steps, and no message of
    the error map is empty. *)
Lemma dispatch_invariant (w : World) (e : event) :
  ui_event e ->
  FormData (Wizard.formData w) /\ 0 <= Wizard.currentStep w <= 2 /\
    messages_shown (Wizard.errors w) ->
  FormData (Wizard.formData (dispatch w e)) /\
    0 <= Wizard.currentStep (dispatch w e) <= 2 /\
    messages_shown (Wizard.errors (dispatch w e)).
Proof.
  intros Hui (HT & Hstep & HS).
  destruct e as [ | | | | field value | location ].
  - destruct (dispatch_Next_typed w HT Hstep) as (E & HE & _ & _ & ->).
    cbn [Wizard.formData Wizard.currentStep Wizard.errors].
    split; [exact HT|]. split; [|exact HE].
    destruct (bool_decide (size E = 0%nat)); cbn [andb]; [|lia].
    destruct (Z.ltb_spec (Wizard.currentStep w) 2); lia.
  - rewrite dispatch_Back. cbn [Wizard.formData Wizard.currentStep Wizard.errors].
    split; [exact HT|]. split; [|exact HS].
    destruct (Z.ltb_spec 0 (Wizard.currentStep w)); lia.
  - rewrite dispatch_Reset. cbn [Wizard.formData Wizard.currentStep Wizard.errors].
    split; [apply FormData_initial|]. split; [lia|].
    intros k m H. rewrite lookup_empty in H. discriminate.
  - rewrite dispatch_SaveProgress. cbn [Wizard.formData Wizard.currentStep Wizard.errors].
    auto.
  - rewrite dispatch_Update. cbn [Wizard.formData Wizard.currentStep Wizard.errors].
    split; [now apply FormData_ui_update|]. split; [exact Hstep|].
    now apply messages_shown_drop.
  - rewrite dispatch_SelectLocation.
    cbn [Wizard.formData Wizard.currentStep Wizard.errors].
    split; [now apply FormData_select|]. split; [exact Hstep|].
    now repeat apply messages_shown_drop.
Qed.

Lemma reachable_invariant (w : World) :
  reachable w ->
  FormData (Wizard.formData w) /\ 0 <= Wizard.currentStep w <= 2 /\
    messages_shown (Wizard.errors w).
Proof.
  induction 1 as [storage | w e _ IH Hui].
  - cbn. split; [apply FormData_initial|]. split; [lia|].
    intros k m H. rewrite lookup_empty in H. discriminate.
  - now apply dispatch_invariant.
Qed.

(** The step index under any event, whatever the form holds. *)
Lemma dispatch_currentStep (w : World) (e : event) :
  Wizard.currentStep (dispatch w e) = Wizard.currentStep w \/
  (e = Next /\ Wizard.currentStep w < 2 /\
   Wizard.currentStep (dispatch w e) = Wizard.currentStep w + 1) \/
  (e = Back /\ 0 < Wizard.currentStep w /\
   Wizard.currentStep (dispatch w e) = Wizard.currentStep w - 1) \/
  (e = Reset /\ Wizard.currentStep (dispatch w e) = 0).
Proof.
  destruct e as [ | | | | field value | location ].
  - destruct (dispatch_Next_cases w) as [-> | (E & _ & _ & ->)]; [now left|].
    cbn [Wizard.currentStep].
    destruct (bool_decide (size E = 0%nat)); cbn [andb]; [|now left].
    destruct (Z.ltb_spec (Wizard.currentStep w) 2); [right; left; auto | now left].
  - rewrite dispatch_Back. cbn [Wizard.currentStep].
    destruct (Z.ltb_spec 0 (Wizard.currentStep w)); [right; right; left; auto | now left].
  - right; right; right. now rewrite dispatch_Reset.
  - left. now rewrite dispatch_SaveProgress.
  - left. now rewrite dispatch_Update.
  - left. now rewrite dispatch_SelectLocation.
Qed.

End Invariants.

(* ===================================================================== *)
(** * Properties of the wizard                                            *)
(* ===================================================================== *)

Section WizardProperties.
Import Js React Spec MultiStepForm Wizard.

(** C1.  In every state the user can reach, pressing Next when a required
    field of the current step fails its presence or format check replaces
    the error map by a non-empty map of non-empty messages and leaves the
    step index (and the form) as they are; when every check of the step
    passes and the step is not the last one, the step index grows by
    exactly one. *)
Theorem next_is_guarded_by_validation (w : World) :
  reachable w ->
  (~ checks_pass (Wizard.currentStep w) (Wizard.formData w) ->
     Wizard.errors (dispatch w Next) <> ∅ /\
     messages_shown (Wizard.errors (dispatch w Next)) /\
     Wizard.currentStep (dispatch w Next) = Wizard.currentStep w /\
     Wizard.formData (dispatch w Next) = Wizard.formData w) /\
  (checks_pass (Wizard.currentStep w) (Wizard.formData w) ->
     Wizard.currentStep w < Z.of_nat (length steps) - 1 ->
     Wizard.currentStep (dispatch w Next) = Wizard.currentStep w + 1 /\
     Wizard.errors (dispatch w Next) = ∅ /\
     Wizard.formData (dispatch w Next) = Wizard.formData w).
Proof.
  intros Hr. destruct (reachable_invariant w Hr) as (HT & Hstep & _).
  destruct (dispatch_Next_typed w HT Hstep) as (E & HS & Hiff & _ & ->).
  cbn [Wizard.currentStep Wizard.errors Wizard.formData]. split.
  - intros Hfail.
    assert (HE : E <> ∅) by (intros HE; now apply Hfail, Hiff).
    split; [exact HE|]. split; [exact HS|]. split; [|reflexivity].
    destruct (bool_decide (size E = 0%nat)) eqn:Hb; [|reflexivity].
    now apply size_zero_iff in Hb.
  - intros Hpass Hlast. change (Z.of_nat (length steps) - 1) with 2 in Hlast.
    apply Hiff in Hpass. split; [|split; [exact Hpass | reflexivity]].
    apply size_zero_iff in Hpass. rewrite Hpass.
    apply Z.ltb_lt in Hlast. now rewrite Hlast.
Qed.

(** C3.  On the personal-info step, Next puts the entry "Name is required"
    under [name] exactly when the name is empty or white space only; it
    puts "Email is required" under [email] exactly when the address is
    empty or white space only, and "Email is invalid" exactly when the
    address is neither and the pattern is found nowhere in it; and the step
    index stays where it is whenever the resulting error map is not
    empty. *)
Theorem personal_info_errors (w : World) (name email : string) :
  Wizard.currentStep w = 0 ->
  prop (Wizard.formData w) "name" = VString name ->
  prop (Wizard.formData w) "email" = VString email ->
  (Wizard.errors (dispatch w Next) !! "name" = Some "Name is required"
     <-> whitespace_only name) /\
  (Wizard.errors (dispatch w Next) !! "email" = Some "Email is required"
     <-> whitespace_only email) /\
  (Wizard.errors (dispatch w Next) !! "email" = Some "Email is invalid"
     <-> ~ whitespace_only email /\ ~ found email_pattern email) /\
  (Wizard.errors (dispatch w Next) <> ∅ ->
     Wizard.currentStep (dispatch w Next) = Wizard.currentStep w) /\
  (~ whitespace_only name -> ~ whitespace_only email -> found email_pattern email ->
     Wizard.errors (dispatch w Next) = ∅ /\ Wizard.currentStep (dispatch w Next) = 1).
Proof.
  intros Hstep Hn He.
  destruct (validate_step0 _ name email Hn He) as (E & HV & H1 & H2 & H3 & _).
  rewrite <- Hstep in HV at 1. rewrite (dispatch_Next_validated w E HV).
  cbn [Wizard.currentStep Wizard.errors]. rewrite H1, H2, Hstep.
  rewrite <- !all_whitespace_spec, <- RegExp_test_spec.
  split; [|split; [|split; [|split]]].
  - destruct (all_whitespace name); split; congruence.
  - destruct (all_whitespace email), (RegExp_test email_pattern email);
      split; congruence.
  - destruct (all_whitespace email), (RegExp_test email_pattern email);
      split; try congruence; try (intros [? ?]; congruence).
    intros _. split; congruence.
  - intros HE. destruct (bool_decide (size E = 0%nat)) eqn:Hb; [|reflexivity].
    now apply size_zero_iff in Hb.
  - intros Wn We Hf.
    assert (HE : E = ∅).
    { apply (two_keys_empty E "name" "email" H3). rewrite H1, H2.
      destruct (all_whitespace name); [congruence|].
      destruct (all_whitespace email); [congruence|].
      destruct (RegExp_test email_pattern email); [auto | congruence]. }
    split; [exact HE|]. apply size_zero_iff in HE. now rewrite HE.
Qed.

(** C2.  On the last step, when its checks pass, [handleSubmit] (alone, and
    as the end of Next) has exactly two effects, in this order: the success
    toast, and a timer of 1500 ms whose only action is the route change to
    the results page.  It writes nothing to local storage, and there is no
    other channel: the form and the step index are left as they are. *)
Theorem submit_shows_toast_and_schedules_redirect (w : World) :
  Wizard.currentStep w = Z.of_nat (length steps) - 1 ->
  checks_pass (Wizard.currentStep w) (Wizard.formData w) ->
  effects (handleSubmit (Wizard.currentStep w) (Wizard.formData w)) =
    [ toast_success "Form submitted successfully!" "Redirecting to your results...";
      setTimeout redirect_to_results 1500 ] /\
  effects (handler w Next) =
    [ toast_success "Form submitted successfully!" "Redirecting to your results...";
      setTimeout redirect_to_results 1500 ] /\
  (forall storage,
     Timers.fire redirect_to_results storage = ([router_push "/results"], Some tt)) /\
  localStorage (dispatch w Next) = localStorage w /\
  Wizard.formData (dispatch w Next) = Wizard.formData w /\
  Wizard.currentStep (dispatch w Next) = Wizard.currentStep w.
Proof.
  change (Z.of_nat (length steps) - 1) with 2. intros Hstep Hpass.
  rewrite Hstep in *. destruct Hpass as (_ & _ & H2).
  destruct (H2 eq_refl) as (c & k & Hc & Hk & Wc & Wk).
  destruct (validate_step2 _ c k Hc Hk) as (E & HV & H1 & H2' & H3 & _).
  apply all_whitespace_false in Wc, Wk. rewrite Wc in H1. rewrite Wk in H2'.
  assert (HE : E = ∅) by now apply (two_keys_empty E "birthCity" "birthCountry" H3).
  assert (Hb : bool_decide (size E = 0%nat) = true) by now apply size_zero_iff.
  rewrite Hb in HV.
  assert (HS : handleSubmit 2 (Wizard.formData w) =
               ([ setErrors (fun _ => E);
                  toast_success "Form submitted successfully!"
                    "Redirecting to your results...";
                  setTimeout redirect_to_results 1500 ], Some tt)).
  { unfold handleSubmit. rewrite HV. reflexivity. }
  assert (HN : handler w Next =
               ([ setErrors (fun _ => E); setErrors (fun _ => E);
                  toast_success "Form submitted successfully!"
                    "Redirecting to your results...";
                  setTimeout redirect_to_results 1500 ], Some tt)).
  { unfold handler, handleNext. rewrite Hstep, HV. run_M.
    change (2 <? Z.of_nat (length steps) - 1) with false. cbv iota.
    rewrite HS. reflexivity. }
  split; [now rewrite HS|]. split; [now rewrite HN|]. split; [reflexivity|].
  unfold dispatch, run_handler. rewrite HN. cbn. auto.
Qed.

(** C6.  Whatever the state, Reset puts back the initial form: the five
    text fields are empty strings, the birth date is [undefined], latitude
    and longitude are [null], and the form has no other field; the step
    index is 0 and the error map is empty. *)
Theorem reset_restores_initial_state (w : World) :
  Wizard.formData (dispatch w Reset) = initialFormData /\
  Wizard.formData (dispatch w Reset) !! "name" = Some (VString "") /\
  Wizard.formData (dispatch w Reset) !! "email" = Some (VString "") /\
  Wizard.formData (dispatch w Reset) !! "birthDate" = Some VUndefined /\
  Wizard.formData (dispatch w Reset) !! "birthTime" = Some (VString "") /\
  Wizard.formData (dispatch w Reset) !! "birthCity" = Some (VString "") /\
  Wizard.formData (dispatch w Reset) !! "birthCountry" = Some (VString "") /\
  Wizard.formData (dispatch w Reset) !! "latitude" = Some VNull /\
  Wizard.formData (dispatch w Reset) !! "longitude" = Some VNull /\
  size (Wizard.formData (dispatch w Reset)) = 8%nat /\
  Wizard.currentStep (dispatch w Reset) = 0 /\
  Wizard.errors (dispatch w Reset) = ∅ /\
  Wizard.formData (dispatch w Reset) = Wizard.formData (initial (localStorage w)) /\
  Wizard.currentStep (dispatch w Reset) = Wizard.currentStep (initial (localStorage w)).
Proof.
  rewrite dispatch_Reset. cbn [Wizard.formData Wizard.currentStep Wizard.errors].
  repeat split; vm_compute; reflexivity.
Qed.

(** C9.  The step index stays between 0 and 2: Next never takes it above
    the index of the last step, Back never takes it below 0, Reset sets it
    to 0, and so every sequence of events (Next, Back, Reset, Save Progress,
    a field update with any field and value, the choice of a location)
    from the initial state ends in a state with a step index from 0 to 2. *)
Theorem current_step_in_range :
  (forall w, Wizard.currentStep (dispatch w Next)
               <= Z.max (Wizard.currentStep w) (Z.of_nat (length steps) - 1)) /\
  (forall w, Z.min (Wizard.currentStep w) 0 <= Wizard.currentStep (dispatch w Back)) /\
  (forall w, Wizard.currentStep (dispatch w Reset) = 0) /\
  (forall storage es,
     0 <= Wizard.currentStep (run (initial storage) es) <= Z.of_nat (length steps) - 1).
Proof.
  change (Z.of_nat (length steps) - 1) with 2.
  split; [|split; [|split]].
  - intros w. destruct (dispatch_currentStep w Next)
      as [H | [(_ & H1 & H2) | [(He & _) | (He & _)]]]; try discriminate He; lia.
  - intros w. destruct (dispatch_currentStep w Back)
      as [H | [(He & _) | [(_ & H1 & H2) | (He & _)]]]; try discriminate He; lia.
  - intros w. now rewrite dispatch_Reset.
  - intros storage es. unfold run.
    assert (H0 : 0 <= Wizard.currentStep (initial storage) <= 2) by (cbn; lia).
    revert H0. generalize (initial storage) as w.
    induction es as [|e es IH]; intros w Hw; [exact Hw|].
    cbn [fold_left]. apply IH.
    destruct (dispatch_currentStep w e)
      as [H | [(_ & H1 & H2) | [(_ & H1 & H2) | (_ & H)]]]; lia.
Qed.

(** C10.  In every state the user can reach, an update of one field through
    [handleUpdateFormData] gives the field its new value and leaves every
    other field of the form as it is; from the error map it removes the
    entry of that field (which is there or not) and nothing else; the step
    index and local storage are not touched. *)
Theorem update_touches_one_field (w : World) (field : string) (value : JsValue) :
  reachable w ->
  Wizard.formData (dispatch w (Update field value)) !! field = Some value /\
  (forall k, k <> field ->
     Wizard.formData (dispatch w (Update field value)) !! k = Wizard.formData w !! k) /\
  Wizard.errors (dispatch w (Update field value)) = delete field (Wizard.errors w) /\
  Wizard.errors (dispatch w (Update field value)) !! field = None /\
  (forall k, k <> field ->
     Wizard.errors (dispatch w (Update field value)) !! k = Wizard.errors w !! k) /\
  Wizard.currentStep (dispatch w (Update field value)) = Wizard.currentStep w /\
  localStorage (dispatch w (Update field value)) = localStorage w.
Proof.
  intros Hr. destruct (reachable_invariant w Hr) as (_ & _ & HS).
  rewrite dispatch_Update.
  cbn [Wizard.formData Wizard.currentStep Wizard.errors localStorage].
  rewrite (drop_is_delete _ _ field HS) by auto.
  split; [apply lookup_insert_eq|].
  split; [intros k Hk; now apply lookup_insert_ne|].
  split; [reflexivity|].
  split; [apply lookup_delete_eq|].
  split; [intros k Hk; now apply lookup_delete_ne | auto].
Qed.

End WizardProperties.

(* ===================================================================== *)
(** * The location lookup                                                 *)
(* ===================================================================== *)

Section LookupFacts.
Import Js React Spec LocationStep.

Lemma prefix_spec (t s : string) :
  String.prefix t s = true <-> exists post, s = t ++ post.
Proof.
  revert s. induction t as [|a t IH]; intros [|b s]; simpl.
  - split; [intros _; now exists "" | reflexivity].
  - split; [intros _; now exists (String b s) | reflexivity].
  - split; [discriminate | intros [post H]; discriminate].
  - destruct (ascii_dec a b) as [->|Hne].
    + rewrite IH. split; intros [post H]; exists post.
      * now rewrite H.
      * now inversion H.
    + split; [discriminate|]. intros [post H]. inversion H. congruence.
Qed.

(** [includes] finds the occurrences of the searched string. *)
Lemma includes_spec (s t : string) :
  includes s t = true <-> exists pre post, s = pre ++ t ++ post.
Proof.
  induction s as [|c s IH]; cbn [includes].
  - rewrite orb_false_r, prefix_spec. split.
    + intros [post H]. now exists "", post.
    + intros (pre & post & H). symmetry in H.
      apply app_eq_empty in H as [-> H]. exists post. now rewrite H.
  - rewrite orb_true_iff, prefix_spec, IH. split.
    + intros [[post H] | (pre & post & H)].
      * now exists "", post.
      * exists (String c pre), post. now rewrite app_cons, H.
    + intros ([|c' pre] & post & H).
      * left. now exists post.
      * right. rewrite app_cons in H. inversion H. now exists pre, post.
Qed.

Lemma toLowerCase_app (a b : string) :
  toLowerCase (a ++ b) = toLowerCase a ++ toLowerCase b.
Proof. induction a as [|c a IH]; [reflexivity|]. rewrite app_cons. simpl. now rewrite IH. Qed.

Lemma toLowerCase_split (s a b : string) :
  toLowerCase s = a ++ b ->
  exists a' b', s = a' ++ b' /\ toLowerCase a' = a /\ toLowerCase b' = b.
Proof.
  revert s. induction a as [|c a IH]; intros s H.
  - now exists "", s.
  - destruct s as [|c' s]; [discriminate|].
    rewrite app_cons in H. simpl in H. inversion H as [[Hc Hs]].
    destruct (IH s Hs) as (a' & b' & -> & Ha & Hb).
    exists (String c' a'), b'. simpl. now rewrite Ha.
Qed.

(** The test of [searchLocations] is containment without regard to case. *)
Lemma includes_lower_spec (hay needle : string) :
  includes (toLowerCase hay) (toLowerCase needle) = true <-> contains_ci hay needle.
Proof.
  rewrite includes_spec. unfold contains_ci. split.
  - intros (pre & post & H).
    apply toLowerCase_split in H as (pre' & rest & -> & Hpre & Hrest).
    apply toLowerCase_split in Hrest as (mid & post' & -> & Hmid & Hpost).
    now exists pre', mid, post'.
  - intros (pre & mid & post & -> & Hmid).
    exists (toLowerCase pre), (toLowerCase post).
    now rewrite !toLowerCase_app, Hmid.
Qed.

Lemma filter_sublist {A : Type} (f : A -> bool) (l : list A) :
  sublist (List.filter f l) l.
Proof.
  induction l as [|x l IH]; simpl; [constructor|].
  destruct (f x); now constructor.
Qed.

Lemma truthy_string (s : string) : truthy (VString s) = false <-> s = "".
Proof. simpl. rewrite negb_false_iff. apply String.eqb_eq. Qed.

(** The actions of a selection that concern this component. *)
Lemma select_actions (errors : gmap string string) (location : Location) (w : State) :
  apply_actions
    (fst (handleLocationSelect (MultiStepForm.handleUpdateFormData errors) location)) w =
  {| searchQuery := city location +:+ ", " +:+ country location;
     searchResults := []; searching := searching w; now := now w;
     timers := timers w; next_id := next_id w;
     delaySearch := delaySearch w; history := history w |}.
Proof.
  unfold handleLocationSelect, MultiStepForm.handleUpdateFormData. run_M.
  destruct (MultiStepForm.has_error errors "birthCity");
    destruct (MultiStepForm.has_error errors "birthCountry");
    destruct (MultiStepForm.has_error errors "latitude");
    destruct (MultiStepForm.has_error errors "longitude"); reflexivity.
Qed.

Lemma select_effects (errors : gmap string string) (location : Location) :
  effects (handleLocationSelect (MultiStepForm.handleUpdateFormData errors) location) = [].
Proof.
  unfold handleLocationSelect, MultiStepForm.handleUpdateFormData, effects. run_M.
  destruct (MultiStepForm.has_error errors "birthCity");
    destruct (MultiStepForm.has_error errors "birthCountry");
    destruct (MultiStepForm.has_error errors "latitude");
    destruct (MultiStepForm.has_error errors "longitude"); reflexivity.
Qed.

End LookupFacts.

Section DebounceFacts.
Import Js React Spec LocationStep.

Lemma fire_state (q : string) (s : State) :
  apply_actions (fst (delayed_search_body q)) s =
    if 2 <? Z.of_nat (String.length q)
    then {| searchQuery := searchQuery s; searchResults := searchLocations q;
            searching := false; now := now s; timers := timers s;
            next_id := next_id s; delaySearch := delaySearch s;
            history := (now s, Lookup q) :: history s |}
    else {| searchQuery := searchQuery s; searchResults := [];
            searching := searching s; now := now s; timers := timers s;
            next_id := next_id s; delaySearch := delaySearch s;
            history := history s |}.
Proof. unfold delayed_search_body. now destruct (2 <? Z.of_nat (String.length q)). Qed.

(** The cleanup and the effect together: the timer whose id the cleanup
    holds is taken off, a new one is pending beside the others and is due
    one delay ahead. *)
Lemma run_effect_eq (s : State) :
  run_effect s =
    {| searchQuery := searchQuery s; searchResults := searchResults s;
       searching := searching s; now := now s;
       timers := (match delaySearch s with
                  | Some i => cancel i (timers s)
                  | None => timers s
                  end ++
                  [{| timer_id := next_id s; timer_due := now s + debounce_ms;
                      timer_query := searchQuery s |}])%list;
       next_id := S (next_id s);
       delaySearch := Some (next_id s);
       history := (now s, EffectRan (searchQuery s)) :: history s |}.
Proof. reflexivity. Qed.

Lemma cancel_one (tm : Timer) : cancel (timer_id tm) [tm] = [].
Proof. unfold cancel. cbn [List.filter]. now rewrite Nat.eqb_refl. Qed.

(** When the only pending timer is the one the cleanup holds, the cleanup
    leaves none. *)
Lemma cleanup_clears (s : State) :
  timers s = [] \/
  (exists tm, timers s = [tm] /\ delaySearch s = Some (timer_id tm)) ->
  match delaySearch s with
  | Some i => cancel i (timers s)
  | None => timers s
  end = [].
Proof.
  intros [Hnone | (tm & Hone & Hid)].
  - rewrite Hnone. now destruct (delaySearch s).
  - rewrite Hid, Hone. apply cancel_one.
Qed.

Lemma earliest_In (l : list Timer) (tm : Timer) : earliest l = Some tm -> In tm l.
Proof.
  revert tm. induction l as [|x l IH]; intros tm; cbn [earliest]; [discriminate|].
  destruct (earliest l) as [y|].
  - destruct (timer_due x <=? timer_due y); intros H; inversion H; subst.
    + now left.
    + right. now apply IH.
  - intros H. inversion H. now left.
Qed.

Lemma earliest_least (l : list Timer) (tm : Timer) :
  earliest l = Some tm -> forall x, In x l -> timer_due tm <= timer_due x.
Proof.
  revert tm. induction l as [|y l IH]; intros tm; cbn [earliest]; [discriminate|].
  destruct (earliest l) as [z|] eqn:E.
  - destruct (Z.leb_spec (timer_due y) (timer_due z)) as [Hle | Hlt];
      intros H x [<- | Hx]; inversion H; subst.
    + lia.
    + specialize (IH z eq_refl x Hx). lia.
    + lia.
    + now apply IH.
  - intros H x [<- | Hx]; inversion H; subst; [lia|].
    destruct l as [|z l]; [destruct Hx|]. cbn [earliest] in E.
    destruct (earliest l) as [u|]; [destruct (timer_due z <=? timer_due u)|];
      discriminate E.
Qed.

Lemma earliest_None (l : list Timer) : earliest l = None -> l = [].
Proof.
  destruct l as [|x l]; [reflexivity|]. cbn [earliest].
  destruct (earliest l) as [y|]; [destruct (timer_due x <=? timer_due y)|]; discriminate.
Qed.

Lemma cancel_shorter (tm : Timer) (l : list Timer) :
  In tm l -> (length (cancel (timer_id tm) l) < length l)%nat.
Proof.
  induction l as [|x l IH]; intros Hin; [destruct Hin|].
  unfold cancel in *. cbn [List.filter length].
  destruct Hin as [-> | Hin].
  - rewrite Nat.eqb_refl. cbn [negb].
    pose proof (List.filter_length_le (fun tm0 => negb (timer_id tm0 =? timer_id tm)%nat) l).
    lia.
  - specialize (IH Hin). destruct (negb (timer_id x =? timer_id tm)%nat); cbn [length]; lia.
Qed.

Lemma fire_timer_timers (tm : Timer) (s : State) :
  timers (fire_timer tm s) = cancel (timer_id tm) (timers s).
Proof.
  unfold fire_timer. rewrite fire_state.
  now destruct (2 <? Z.of_nat (String.length (timer_query tm))).
Qed.

(** The fuel of a wait is enough: whatever timers are pending, none that
    was due by the end of the wait is pending after it. *)
Lemma fire_due_complete (t : Z) (fuel : nat) (s : State) :
  (length (timers s) <= fuel)%nat ->
  forall tm, In tm (timers (fire_due fuel t s)) -> t < timer_due tm.
Proof.
  revert s. induction fuel as [|fuel IH]; intros s Hlen tm Hin.
  - cbn [fire_due] in Hin. destruct (timers s); [destruct Hin | cbn in Hlen; lia].
  - cbn [fire_due] in Hin. destruct (earliest (timers s)) as [first|] eqn:E.
    + destruct (Z.leb_spec (timer_due first) t) as [Hdue | Hlater].
      * apply (IH (fire_timer first s)); [|exact Hin].
        rewrite fire_timer_timers.
        pose proof (cancel_shorter first (timers s) (earliest_In _ _ E)). lia.
      * pose proof (earliest_least _ _ E tm Hin). lia.
    + apply earliest_None in E. rewrite E in Hin. destruct Hin.
Qed.

Section Waits.
Variable updateFormData : string -> JsValue -> M unit.

Lemma elapse_none (s : State) (ms : N) :
  timers s = [] ->
  step updateFormData s (Elapse ms) = set_clock (now s + Z.of_N ms) s.
Proof. intros H. cbn [step]. now rewrite H. Qed.

Lemma elapse_one (s : State) (ms : N) (tm : Timer) :
  timers s = [tm] ->
  step updateFormData s (Elapse ms) =
    if timer_due tm <=? now s + Z.of_N ms
    then set_clock (now s + Z.of_N ms) (fire_timer tm s)
    else set_clock (now s + Z.of_N ms) s.
Proof.
  intros H. cbn [step]. rewrite H. cbn [length fire_due]. rewrite H. cbn [earliest].
  now destruct (timer_due tm <=? now s + Z.of_N ms).
Qed.

End Waits.

(** The state after the only pending timer has fired. *)
Lemma fire_timer_one (tm : Timer) (s : State) :
  timers s = [tm] ->
  fire_timer tm s =
    if 2 <? Z.of_nat (String.length (timer_query tm))
    then {| searchQuery := searchQuery s;
            searchResults := searchLocations (timer_query tm);
            searching := false; now := timer_due tm; timers := [];
            next_id := next_id s; delaySearch := delaySearch s;
            history := (timer_due tm, Lookup (timer_query tm)) :: history s |}
    else {| searchQuery := searchQuery s; searchResults := [];
            searching := searching s; now := timer_due tm; timers := [];
            next_id := next_id s; delaySearch := delaySearch s;
            history := history s |}.
Proof.
  intros H. unfold fire_timer. rewrite fire_state. unfold set_clock, expire.
  cbn [searchQuery searchResults searching now timers next_id delaySearch history].
  rewrite H, cancel_one. reflexivity.
Qed.

Lemma run_effect_consistent (s : State) :
  timer_consistent s -> timer_consistent (run_effect s).
Proof.
  intros (H1 & Hids & Hone & H3). rewrite run_effect_eq.
  rewrite cleanup_clears
    by (destruct Hone as [H | (tm & H & Hid & _)]; [now left | right; now exists tm]).
  unfold timer_consistent, debounce_ms.
  cbn [history now timers next_id delaySearch app].
  split; [|split; [|split]].
  - intros t e [H | H]; [inversion H; lia | eauto].
  - intros tm [<- | []]. cbn [timer_id]. lia.
  - right. eexists. split; [reflexivity|]. cbn [timer_id timer_due timer_query].
    split; [reflexivity|]. split; [lia|]. split.
    + left. f_equal. lia.
    + intros t' q' [H | H]; [inversion H; lia | apply H1 in H; lia].
  - intros t q [H | H]; [discriminate H|].
    destruct (H3 t q H) as (Ha & Hb & Hc). split; [exact Ha|]. split; [now right|].
    intros t' q' [H' | H']; [|now apply (Hc t' q')].
    inversion H'; subst. right. now apply H1 in H.
Qed.

Lemma commit_consistent (before after : State) :
  timer_consistent after -> timer_consistent (commit before after).
Proof.
  intros H. unfold commit.
  destruct (String.eqb (searchQuery before) (searchQuery after));
    [exact H | now apply run_effect_consistent].
Qed.

Lemma mount_consistent (t : Z) : timer_consistent (mount t).
Proof.
  unfold timer_consistent, mount, debounce_ms.
  cbn [apply_actions fold_left effect emit fst apply_action history now timers next_id
       delaySearch app].
  unfold debounce_ms.
  split; [|split; [|split]].
  - intros t' e [H | []]. inversion H. lia.
  - intros tm [<- | []]. cbn [timer_id]. lia.
  - right. eexists. split; [reflexivity|]. cbn [timer_id timer_due timer_query].
    split; [reflexivity|]. split; [lia|]. split.
    + left. f_equal. lia.
    + intros t' q' [H | []]. inversion H. lia.
  - intros t' q [H | []]. discriminate H.
Qed.

(** Every step of the component keeps the clock, the timers and the history
    in agreement. *)
Lemma step_consistent (errors : gmap string string) (s : State) (e : event) :
  timer_consistent s ->
  timer_consistent (step (MultiStepForm.handleUpdateFormData errors) s e).
Proof.
  intros Hs. destruct e as [value | location | ms].
  - cbn [step]. apply commit_consistent. exact Hs.
  - cbn [step]. apply commit_consistent. rewrite select_actions. exact Hs.
  - destruct Hs as (H1 & Hids & Hone & H3).
    assert (Hms : 0 <= Z.of_N ms) by lia.
    destruct Hone as [Hnone | (tm & Honly & Hid & Hdue & Hin & Hlast)].
    + rewrite (elapse_none _ s ms Hnone).
      unfold timer_consistent, set_clock.
      cbn [history now timers next_id delaySearch].
      split; [intros t e H; apply H1 in H; lia|].
      split; [exact Hids|]. split; [now left | exact H3].
    + rewrite (elapse_one _ s ms tm Honly).
      destruct (Z.leb_spec (timer_due tm) (now s + Z.of_N ms)) as [Hfire | Hwait].
      * rewrite (fire_timer_one tm s Honly). unfold debounce_ms in *.
        destruct (Z.ltb_spec 2 (Z.of_nat (String.length (timer_query tm))))
          as [Hlen | Hlen];
          unfold timer_consistent, set_clock;
          cbn [history now timers next_id delaySearch];
          (split; [|split; [intros ? []|split; [now left|]]]).
        -- intros t e [H | H]; [inversion H; lia | apply H1 in H; lia].
        -- intros t q0 [H | H].
           ++ inversion H; subst. split; [exact Hlen|]. split; [now right|].
              intros t' q' [H' | H']; [discriminate H'|]. left. now apply (Hlast t' q').
           ++ destruct (H3 t q0 H) as (Ha & Hb & Hc). split; [exact Ha|].
              split; [now right|].
              intros t' q' [H' | H']; [discriminate H' | now apply (Hc t' q')].
        -- intros t e H. apply H1 in H. lia.
        -- exact H3.
      * unfold timer_consistent, set_clock.
        cbn [history now timers next_id delaySearch].
        split; [intros t e H; apply H1 in H; lia|].
        split; [exact Hids|]. split; [|exact H3].
        right. exists tm. repeat split; assumption || lia.
Qed.

Lemma run_consistent (errors : gmap string string) (es : list event) (s : State) :
  timer_consistent s ->
  timer_consistent (run (MultiStepForm.handleUpdateFormData errors) s es).
Proof.
  revert s. induction es as [|e es IH]; intros s Hs; [exact Hs|].
  cbn [run fold_left]. apply IH. now apply step_consistent.
Qed.

(** Typing a new text leaves one pending timer: the new one. *)
Lemma type_query_rearms (errors : gmap string string) (s : State) (value : string) :
  timer_consistent s ->
  value <> searchQuery s ->
  timers (step (MultiStepForm.handleUpdateFormData errors) s (Type_query value)) =
    [{| timer_id := next_id s; timer_due := now s + debounce_ms; timer_query := value |}].
Proof.
  intros (_ & _ & Hone & _) Hne. cbn [step]. unfold commit, handleSearchChange.
  cbn [apply_actions fst emit fold_left apply_action searchQuery].
  destruct (String.eqb_spec (searchQuery s) value) as [Heq | _]; [congruence|].
  rewrite run_effect_eq. cbn [timers delaySearch searchQuery now next_id].
  rewrite cleanup_clears
    by (destruct Hone as [H | (tm & H & Hid & _)]; [now left | right; now exists tm]).
  reflexivity.
Qed.

End DebounceFacts.

Section LocationProperties.
Import Js React Spec LocationStep.

(** C4.  The lookup is a filter over the constant list of six entries: a
    location is among the results for a query exactly when the query is
    not empty, the location is in the list, and its city or its country
    contains the query without regard to case; the results keep the order
    of the list.  The lookup is called by the timer of the effect only, and
    by it only for a query of more than two characters; the effect arms
    that timer 500 ms ahead.  Timers stay pending until they fire or are
    cleared, and a wait fires every timer that falls due.  In every run of
    the component at most one timer is pending: when the text changes, the
    cleanup has cleared the timer that was pending and the only pending
    timer is the new one, for the new text.  So each lookup happens 500 ms
    after the effect ran for its query, with no run of the effect in
    between. *)
Theorem location_lookup_is_debounced_filter :
  length mockData = 6%nat /\
  searchLocations "" = [] /\
  (forall query location,
     In location (searchLocations query) <->
     query <> "" /\ In location mockData /\
     (contains_ci (city location) query \/ contains_ci (country location) query)) /\
  (forall query, sublist (searchLocations query) mockData) /\
  (forall query,
     effects (delayed_search_body query) =
       if 2 <? Z.of_nat (String.length query) then [call_searchLocations query] else []) /\
  (forall value, effects (handleSearchChange value) = []) /\
  (forall errors location,
     effects (handleLocationSelect (MultiStepForm.handleUpdateFormData errors) location)
       = []) /\
  (forall query,
     effect query = ([setTimeout (delayed_search query) 500], Some tt) /\
     forall storage, Timers.fire (delayed_search query) storage = delayed_search_body query) /\
  (forall errors s ms tm,
     In tm (timers (step (MultiStepForm.handleUpdateFormData errors) s (Elapse ms))) ->
     now s + Z.of_N ms < timer_due tm) /\
  (forall errors t es,
     (length (timers (run (MultiStepForm.handleUpdateFormData errors) (mount t) es))
        <= 1)%nat) /\
  (forall errors t es value,
     value <> searchQuery (run (MultiStepForm.handleUpdateFormData errors) (mount t) es) ->
     exists tm,
       timers (step (MultiStepForm.handleUpdateFormData errors)
                    (run (MultiStepForm.handleUpdateFormData errors) (mount t) es)
                    (Type_query value)) = [tm] /\
       timer_query tm = value /\
       timer_due tm =
         now (run (MultiStepForm.handleUpdateFormData errors) (mount t) es) + 500 /\
       ~ In tm (timers (run (MultiStepForm.handleUpdateFormData errors) (mount t) es))) /\
  (forall errors t es,
     lookups_debounced
       (history (run (MultiStepForm.handleUpdateFormData errors) (mount t) es))).
Proof.
  split; [reflexivity|]. split; [reflexivity|].
  split; [|split; [|split; [|split; [|split; [|split; [|split; [|split; [|split]]]]]]]].
  - intros query location. unfold searchLocations.
    destruct (truthy (VString query)) eqn:Hq; cbn [negb].
    + rewrite filter_In, orb_true_iff, !includes_lower_spec.
      assert (query <> "") by (intros ->; discriminate Hq). tauto.
    + apply truthy_string in Hq. split; [intros [] | intros [H _]; contradiction].
  - intros query. unfold searchLocations.
    destruct (negb (truthy (VString query))); [apply sublist_nil_l | apply filter_sublist].
  - intros query. unfold delayed_search_body, effects.
    now destruct (2 <? Z.of_nat (String.length query)).
  - reflexivity.
  - apply select_effects.
  - intros query. split; reflexivity.
  - intros errors s ms tm. cbn [step]. unfold set_clock. cbn [timers].
    now apply fire_due_complete.
  - intros errors t es.
    destruct (run_consistent errors es (mount t) (mount_consistent t))
      as (_ & _ & [-> | (tm & -> & _)] & _); cbn [length]; lia.
  - intros errors t es value Hne.
    pose proof (run_consistent errors es (mount t) (mount_consistent t)) as Hs.
    rewrite (type_query_rearms errors _ value Hs Hne).
    eexists. split; [reflexivity|]. cbn [timer_query timer_due].
    split; [reflexivity|]. split; [reflexivity|].
    destruct Hs as (_ & Hids & _). intros Hin. apply Hids in Hin.
    cbn [timer_id] in Hin. lia.
  - intros errors t es. apply run_consistent, mount_consistent.
Qed.

(** C5.  Choosing a location puts its city, country, latitude and longitude
    into the fields [birthCity], [birthCountry], [latitude] and [longitude]
    of the form, leaves the other fields as they are, and empties the list
    of search results. *)
Theorem location_select_fills_form (w : Wizard.World) (s : State) (location : Location) :
  Wizard.formData (Wizard.dispatch w (Wizard.SelectLocation location)) !! "birthCity"
    = Some (VString (city location)) /\
  Wizard.formData (Wizard.dispatch w (Wizard.SelectLocation location)) !! "birthCountry"
    = Some (VString (country location)) /\
  Wizard.formData (Wizard.dispatch w (Wizard.SelectLocation location)) !! "latitude"
    = Some (VNumber (lat location)) /\
  Wizard.formData (Wizard.dispatch w (Wizard.SelectLocation location)) !! "longitude"
    = Some (VNumber (lng location)) /\
  (forall k, k <> "birthCity" -> k <> "birthCountry" -> k <> "latitude" ->
             k <> "longitude" ->
     Wizard.formData (Wizard.dispatch w (Wizard.SelectLocation location)) !! k
       = Wizard.formData w !! k) /\
  searchResults
    (step (MultiStepForm.handleUpdateFormData (Wizard.errors w)) s (Select location)) = [].
Proof.
  rewrite dispatch_SelectLocation. cbn [Wizard.formData].
  split; [|split; [|split; [|split; [|split]]]].
  - now rewrite !lookup_insert_ne, lookup_insert_eq by discriminate.
  - now rewrite !lookup_insert_ne, lookup_insert_eq by discriminate.
  - now rewrite lookup_insert_ne, lookup_insert_eq by discriminate.
  - apply lookup_insert_eq.
  - intros k H1 H2 H3 H4. now rewrite !lookup_insert_ne by congruence.
  - cbn [step]. rewrite select_actions. unfold commit.
    now destruct (String.eqb _ _).
Qed.

End LocationProperties.

(* ===================================================================== *)
(** * Local storage and the results page                                  *)
(* ===================================================================== *)

Section StorageFacts.
Import Js React Spec Wizard.

Lemma reachable_run (w : World) (es : list event) :
  reachable w -> Forall ui_event es -> reachable (run w es).
Proof.
  intros Hw Hes. revert w Hw. induction Hes as [|e es He _ IH]; intros w Hw; [exact Hw|].
  cbn [run fold_left]. apply IH. now constructor.
Qed.

(** Only Save Progress writes to local storage, and it writes two keys. *)
Lemma dispatch_localStorage (w : World) (e : event) :
  localStorage (dispatch w e) =
    match e with
    | SaveProgress =>
        <["kundaliFormStep" := Number_toString (Wizard.currentStep w)]>
          (<["kundaliFormData" := JSON_stringify (Wizard.formData w)]> (localStorage w))
    | _ => localStorage w
    end.
Proof.
  destruct e as [ | | | | field value | location ].
  - now destruct (dispatch_Next_cases w) as [-> | (E & _ & _ & ->)].
  - now rewrite dispatch_Back.
  - reflexivity.
  - reflexivity.
  - now rewrite dispatch_Update.
  - now rewrite dispatch_SelectLocation.
Qed.

(** The results page looks at the entry of the form snapshot only. *)
Lemma loaded_ext (s1 s2 : gmap string document) :
  s1 !! "kundaliFormData" = s2 !! "kundaliFormData" ->
  ResultsPage.loaded s1 = ResultsPage.loaded s2.
Proof. unfold ResultsPage.loaded, ResultsPage.load_user_body. now intros ->. Qed.

Lemma loaded_ignores_step : ~ reads ResultsPage.loaded "kundaliFormStep".
Proof.
  intros (s1 & s2 & Hsame & Hdiff). apply Hdiff, loaded_ext, Hsame. discriminate.
Qed.

Lemma loaded_reads_snapshot : reads ResultsPage.loaded "kundaliFormData".
Proof.
  exists ∅, {["kundaliFormData" := DObject {["name" := JString "Asha"]}]}. split.
  - intros k Hk. now rewrite lookup_empty, lookup_singleton_ne.
  - vm_compute. discriminate.
Qed.

(** Mounting the wizard reads nothing. *)
Lemma initial_reads_nothing (key : string) :
  ~ reads (fun storage => (Wizard.currentStep (initial storage),
                           Wizard.formData (initial storage),
                           Wizard.errors (initial storage))) key.
Proof. intros (s1 & s2 & _ & Hdiff). now apply Hdiff. Qed.

Lemma loaded_absent (storage : gmap string document) :
  storage !! "kundaliFormData" = None ->
  ResultsPage.loaded storage = {| ResultsPage.isLoading := false;
                                  ResultsPage.userName := VString "User" |}.
Proof. unfold ResultsPage.loaded, ResultsPage.load_user_body. now intros ->. Qed.

Lemma prop_string_lookup (o : gmap string JsValue) (k s : string) :
  prop o k = VString s -> o !! k = Some (VString s).
Proof. unfold prop. destruct (o !! k); simpl; [now intros -> | discriminate]. Qed.

(** The name the results page shows after Save Progress. *)
Lemma loaded_after_save (w : World) (name : string) :
  prop (Wizard.formData w) "name" = VString name ->
  ResultsPage.loaded (localStorage (dispatch w SaveProgress)) =
    {| ResultsPage.isLoading := false;
       ResultsPage.userName := VString (if String.eqb name "" then "User" else name) |}.
Proof.
  intros Hn. apply prop_string_lookup in Hn.
  rewrite dispatch_SaveProgress. cbn [localStorage].
  unfold ResultsPage.loaded, ResultsPage.load_user_body.
  rewrite lookup_insert_ne by discriminate. rewrite lookup_insert_eq.
  unfold JSON_stringify, ResultsPage.JSON_parse, ResultsPage.member. run_M.
  rewrite lookup_omap, Hn.
  cbn [mbind option_bind toJSON fmap option_fmap option_map fromJSON default
       from_option id].
  unfold or_else, id. cbn [truthy].
  destruct (String.eqb name ""); reflexivity.
Qed.

(** Whatever local storage holds, the page is no longer loading once its
    timer has fired. *)
Lemma loaded_isLoading (storage : gmap string document) :
  ResultsPage.isLoading (ResultsPage.loaded storage) = false.
Proof.
  unfold ResultsPage.loaded, ResultsPage.load_user_body.
  destruct (storage !! "kundaliFormData") as [[[ | | | ] | props | [|]]|]; reflexivity.
Qed.

End StorageFacts.

Section StorageProperties.
Import Js React Spec Wizard.

(** C7, as the code has it.  Save Progress is the only event that writes to
    local storage; it writes the JSON snapshot of the form under
    "kundaliFormData" and the step index under "kundaliFormStep", shows a
    toast, and leaves the form, the step index and the error map as they
    are.  The results page reads the snapshot back: it shows the saved
    name, or "User" when the name is empty or the entry is missing.  The
    step index is written but read by nothing: the results page does not
    depend on it, and the wizard mounts in its initial state whatever local
    storage holds. *)
Theorem save_progress_writes_two_entries (w : World) (name : string) :
  prop (Wizard.formData w) "name" = VString name ->
  (forall e,
     localStorage (dispatch w e) =
       match e with
       | SaveProgress =>
           <["kundaliFormStep" := Number_toString (Wizard.currentStep w)]>
             (<["kundaliFormData" := JSON_stringify (Wizard.formData w)]> (localStorage w))
       | _ => localStorage w
       end) /\
  effects (handler w SaveProgress) =
    [ localStorage_setItem "kundaliFormData" (JSON_stringify (Wizard.formData w));
      localStorage_setItem "kundaliFormStep" (Number_toString (Wizard.currentStep w));
      toast_success "Progress saved!" "You can resume from this point later." ] /\
  Wizard.formData (dispatch w SaveProgress) = Wizard.formData w /\
  Wizard.currentStep (dispatch w SaveProgress) = Wizard.currentStep w /\
  Wizard.errors (dispatch w SaveProgress) = Wizard.errors w /\
  ResultsPage.userName (ResultsPage.loaded (localStorage (dispatch w SaveProgress))) =
    VString (if String.eqb name "" then "User" else name) /\
  (forall storage,
     storage !! "kundaliFormData" = None ->
     ResultsPage.userName (ResultsPage.loaded storage) = VString "User") /\
  reads ResultsPage.loaded "kundaliFormData" /\
  ~ reads ResultsPage.loaded "kundaliFormStep" /\
  (forall key,
     ~ reads (fun storage => (Wizard.currentStep (initial storage),
                              Wizard.formData (initial storage),
                              Wizard.errors (initial storage))) key).
Proof.
  intros Hn.
  split; [intros e; apply dispatch_localStorage|].
  split; [reflexivity|]. split; [reflexivity|]. split; [reflexivity|].
  split; [reflexivity|].
  split; [now rewrite (loaded_after_save w name Hn)|].
  split; [intros storage H; now rewrite (loaded_absent storage H)|].
  split; [apply loaded_reads_snapshot|].
  split; [apply loaded_ignores_step | apply initial_reads_nothing].
Qed.

(** C7, as it is stated, fails on the step index.  After Save Progress on
    the second step the entry "kundaliFormStep" holds 1; the wizard mounted
    over this storage starts on step 0 with the empty form, and the results
    page is the same with the entry, without it, and with another value in
    it: nothing reads the saved step index back. *)
Lemma saved_step_index_is_not_read_back :
  localStorage Examples.saved_on_second_step !! "kundaliFormStep"
    = Some (Number_toString 1) /\
  Wizard.currentStep (initial (localStorage Examples.saved_on_second_step)) = 0 /\
  Wizard.formData (initial (localStorage Examples.saved_on_second_step))
    = MultiStepForm.initialFormData /\
  ResultsPage.loaded (delete "kundaliFormStep" (localStorage Examples.saved_on_second_step))
    = ResultsPage.loaded (localStorage Examples.saved_on_second_step) /\
  ResultsPage.loaded (<["kundaliFormStep" := Number_toString 2]>
                        (localStorage Examples.saved_on_second_step))
    = ResultsPage.loaded (localStorage Examples.saved_on_second_step) /\
  ~ reads ResultsPage.loaded "kundaliFormStep".
Proof.
  split; [vm_compute; reflexivity|]. split; [reflexivity|]. split; [reflexivity|].
  split; [vm_compute; reflexivity|]. split; [vm_compute; reflexivity|].
  apply loaded_ignores_step.
Qed.

(** C8.  The three data tabs do not depend on the input.  The component
    [KundaliResults] renders the same planets, houses and Dasha tabs for
    any two values of its [formData] props, built from the fixture arrays
    [planets], [houses] and [dashas]; the results page, once loaded,
    renders the same planetary table, house tabs and Dasha tabs whatever
    local storage holds, hence whatever form was saved, built from
    [planetaryData], [houseData] and [dashaData]. *)
Theorem results_do_not_depend_on_input :
  (forall fd1 fd2 : gmap string JsValue,
     KundaliResults.planets_tab (KundaliResults.render fd1) =
       KundaliResults.planets_tab (KundaliResults.render fd2) /\
     KundaliResults.houses_tab (KundaliResults.render fd1) =
       KundaliResults.houses_tab (KundaliResults.render fd2) /\
     KundaliResults.dashas_tab (KundaliResults.render fd1) =
       KundaliResults.dashas_tab (KundaliResults.render fd2)) /\
  (forall fd : gmap string JsValue,
     exists header1 header2,
       KundaliResults.planets_tab (KundaliResults.render fd) =
         Element "Table"
           [header1;
            Element "TableBody" (map KundaliResults.planet_row KundaliResults.planets)] /\
       KundaliResults.houses_tab (KundaliResults.render fd) =
         Element "Table"
           [header2;
            Element "TableBody" (map KundaliResults.house_row KundaliResults.houses)] /\
       KundaliResults.dashas_tab (KundaliResults.render fd) =
         Element "Accordion" (imap KundaliResults.dasha_item KundaliResults.dashas)) /\
  (forall s1 s2 : gmap string document,
     ResultsView.planets (ResultsView.render (ResultsPage.loaded s1)) =
       ResultsView.planets (ResultsView.render (ResultsPage.loaded s2)) /\
     ResultsView.houses (ResultsView.render (ResultsPage.loaded s1)) =
       ResultsView.houses (ResultsView.render (ResultsPage.loaded s2)) /\
     ResultsView.dashas (ResultsView.render (ResultsPage.loaded s1)) =
       ResultsView.dashas (ResultsView.render (ResultsPage.loaded s2))) /\
  (forall w1 w2 : World,
     ResultsView.planets
       (ResultsView.render (ResultsPage.loaded (localStorage (dispatch w1 SaveProgress)))) =
     ResultsView.planets
       (ResultsView.render (ResultsPage.loaded (localStorage (dispatch w2 SaveProgress)))) /\
     ResultsView.houses
       (ResultsView.render (ResultsPage.loaded (localStorage (dispatch w1 SaveProgress)))) =
     ResultsView.houses
       (ResultsView.render (ResultsPage.loaded (localStorage (dispatch w2 SaveProgress)))) /\
     ResultsView.dashas
       (ResultsView.render (ResultsPage.loaded (localStorage (dispatch w1 SaveProgress)))) =
     ResultsView.dashas
       (ResultsView.render (ResultsPage.loaded (localStorage (dispatch w2 SaveProgress))))) /\
  (forall s : gmap string document,
     exists header,
       ResultsView.planets (ResultsView.render (ResultsPage.loaded s)) =
         Element "Table"
           [header;
            Element "TableBody"
              (map PlanetaryPositions.row PlanetaryPositions.planetaryData)] /\
       ResultsView.houses (ResultsView.render (ResultsPage.loaded s)) =
         Element "Tabs"
           ([ Element "TabsList"
                (map (fun n => Element "TabsTrigger" [Text ("House " +:+ pretty n)])
                     HouseInterpretations.house_numbers) ] ++
            map HouseInterpretations.content HouseInterpretations.houseData ++
            map HouseInterpretations.placeholder [4; 5; 6; 7; 8; 9; 10; 11; 12])%list /\
       ResultsView.dashas (ResultsView.render (ResultsPage.loaded s)) =
         Element "Tabs"
           (Element "TabsList"
              (map (fun d => Element "TabsTrigger"
                               [Text (DashaPredictions.planet d +:+ " Dasha")])
                   DashaPredictions.dashaData)
            :: map DashaPredictions.content DashaPredictions.dashaData)).
Proof.
  split; [intros; repeat split|].
  split; [intros; eexists; eexists; repeat split|].
  assert (Hview : forall s,
            ResultsView.planets (ResultsView.render (ResultsPage.loaded s)) =
              PlanetaryPositions.table false /\
            ResultsView.houses (ResultsView.render (ResultsPage.loaded s)) =
              HouseInterpretations.tabs false /\
            ResultsView.dashas (ResultsView.render (ResultsPage.loaded s)) =
              DashaPredictions.tabs false).
  { intros s. unfold ResultsView.render.
    cbn [ResultsView.planets ResultsView.houses ResultsView.dashas].
    now rewrite loaded_isLoading. }
  split; [|split].
  - intros s1 s2. destruct (Hview s1) as (-> & -> & ->).
    now destruct (Hview s2) as (-> & -> & ->).
  - intros w1 w2.
    destruct (Hview (localStorage (dispatch w1 SaveProgress))) as (-> & -> & ->).
    now destruct (Hview (localStorage (dispatch w2 SaveProgress))) as (-> & -> & ->).
  - intros s. destruct (Hview s) as (-> & -> & ->).
    eexists. repeat split.
Qed.

End StorageProperties.

(* ===================================================================== *)
(** * The properties at the sample sessions                               *)
(* ===================================================================== *)

Section Witnesses.
Import Js React Spec Wizard.

Lemma filled_reachable : reachable Examples.filled.
Proof. apply reachable_run; [constructor | repeat constructor]. Qed.

Lemma refused_reachable : reachable Examples.refused.
Proof. apply reachable_run; [constructor | repeat constructor]. Qed.

Lemma filled_checks_pass :
  checks_pass (Wizard.currentStep Examples.filled) (Wizard.formData Examples.filled).
Proof.
  split; [|split; intros H; discriminate H].
  intros _. exists "Asha", "asha@example.com".
  split; [vm_compute; reflexivity|]. split; [vm_compute; reflexivity|].
  split; [now apply all_whitespace_false|]. split; [now apply all_whitespace_false|].
  apply RegExp_test_spec. vm_compute. reflexivity.
Qed.

Lemma untouched_checks_fail :
  ~ checks_pass (Wizard.currentStep (initial ∅)) (Wizard.formData (initial ∅)).
Proof.
  intros (H0 & _). destruct (H0 eq_refl) as (n & e & Hn & _ & Wn & _).
  vm_compute in Hn. inversion Hn; subst n. apply Wn.
  intros i c H. destruct i; discriminate H.
Qed.

Lemma last_step_checks_pass :
  checks_pass (Wizard.currentStep Examples.on_last_step)
              (Wizard.formData Examples.on_last_step).
Proof.
  split; [intros H; vm_compute in H; discriminate H|].
  split; [intros H; vm_compute in H; discriminate H|].
  intros _. exists "Delhi", "India".
  split; [vm_compute; reflexivity|]. split; [vm_compute; reflexivity|].
  split; now apply all_whitespace_false.
Qed.

(** C1 at two sessions: Next is refused on the untouched form and moves the
    filled first step on to the second. *)
Lemma next_is_guarded_by_validation_witness :
  (reachable (initial ∅) /\
   Wizard.errors (dispatch (initial ∅) Next) <> ∅ /\
   Wizard.currentStep (dispatch (initial ∅) Next) = 0) /\
  (reachable Examples.filled /\
   Wizard.currentStep (dispatch Examples.filled Next) = 1).
Proof.
  split.
  - split; [constructor|].
    destruct (next_is_guarded_by_validation (initial ∅) (reachable_initial ∅))
      as [Hblocked _].
    destruct (Hblocked untouched_checks_fail) as (H1 & _ & H2 & _). auto.
  - split; [exact filled_reachable|].
    destruct (next_is_guarded_by_validation Examples.filled filled_reachable)
      as [_ Hmoves].
    destruct (Hmoves filled_checks_pass) as (H1 & _); [vm_compute; reflexivity|].
    exact H1.
Defined.

(** C3 on the untouched form: both fields are reported as required. *)
Lemma personal_info_errors_witness :
  Wizard.currentStep (initial ∅) = 0 /\
  prop (Wizard.formData (initial ∅)) "name" = VString "" /\
  prop (Wizard.formData (initial ∅)) "email" = VString "" /\
  Wizard.errors (dispatch (initial ∅) Next) !! "name" = Some "Name is required" /\
  Wizard.errors (dispatch (initial ∅) Next) !! "email" = Some "Email is required".
Proof.
  assert (Hblank : whitespace_only "") by (intros i c H; destruct i; discriminate H).
  split; [reflexivity|]. split; [vm_compute; reflexivity|].
  split; [vm_compute; reflexivity|].
  destruct (personal_info_errors (initial ∅) "" "")
    as (Hname & Hemail & _); [reflexivity | vm_compute; reflexivity ..|].
  split; [now apply Hname | now apply Hemail].
Defined.

(** C2 on the last step of a complete session. *)
Lemma submit_shows_toast_and_schedules_redirect_witness :
  Wizard.currentStep Examples.on_last_step = 2 /\
  effects (handler Examples.on_last_step Next) =
    [ toast_success "Form submitted successfully!" "Redirecting to your results...";
      setTimeout redirect_to_results 1500 ].
Proof.
  split; [vm_compute; reflexivity|].
  destruct (submit_shows_toast_and_schedules_redirect Examples.on_last_step)
    as (_ & H & _); [vm_compute; reflexivity | exact last_step_checks_pass | exact H].
Defined.

(** C10 where both fields of the first step have an error: typing a name
    removes the error of the name and keeps the error of the address. *)
Lemma update_touches_one_field_witness :
  reachable Examples.refused /\
  Wizard.errors Examples.refused !! "name" = Some "Name is required" /\
  Wizard.formData (dispatch Examples.refused (Update "name" (VString "Asha"))) !! "name"
    = Some (VString "Asha") /\
  Wizard.errors (dispatch Examples.refused (Update "name" (VString "Asha"))) !! "name"
    = None /\
  Wizard.errors (dispatch Examples.refused (Update "name" (VString "Asha"))) !! "email"
    = Some "Email is required".
Proof.
  split; [exact refused_reachable|]. split; [vm_compute; reflexivity|].
  destruct (update_touches_one_field Examples.refused "name" (VString "Asha")
              refused_reachable) as (H1 & _ & _ & H2 & H3 & _).
  split; [exact H1|]. split; [exact H2|].
  rewrite H3 by discriminate. vm_compute. reflexivity.
Defined.

(** C7 after the first step was filled in: the results page shows the saved
    name. *)
Lemma save_progress_writes_two_entries_witness :
  prop (Wizard.formData Examples.filled) "name" = VString "Asha" /\
  ResultsPage.userName
    (ResultsPage.loaded (localStorage (dispatch Examples.filled SaveProgress)))
    = VString "Asha" /\
  localStorage (dispatch Examples.filled Next) = localStorage Examples.filled.
Proof.
  split; [vm_compute; reflexivity|].
  destruct (save_progress_writes_two_entries Examples.filled "Asha")
    as (Hstore & _ & _ & _ & _ & Hname & _); [vm_compute; reflexivity|].
  split; [exact Hname | exact (Hstore Next)].
Defined.

End Witnesses.

(* ===================================================================== *)
(** * The model on concrete inputs                                        *)
(* ===================================================================== *)

Section Checks.
Import Js React.

Example trim_strips_both_ends : trim "  Asha Rai  " = "Asha Rai".
Proof. reflexivity. Qed.

Example trim_of_blank : trim (String "009" (String "160" " ")) = "".
Proof. reflexivity. Qed.

Example email_accepted :
  RegExp_test MultiStepForm.email_pattern "asha@example.com" = true.
Proof. reflexivity. Qed.

Example email_without_dot_rejected :
  RegExp_test MultiStepForm.email_pattern "asha@example" = false.
Proof. reflexivity. Qed.

Example email_with_space_before_at_rejected :
  RegExp_test MultiStepForm.email_pattern "asha @example.com" = false.
Proof. reflexivity. Qed.

Example email_found_inside_text :
  RegExp_test MultiStepForm.email_pattern "write to a@b.c please" = true.
Proof. reflexivity. Qed.

Example search_by_country :
  map city (LocationStep.searchLocations "INDIA") = ["Mumbai"; "Delhi"].
Proof. reflexivity. Qed.

Example search_by_city_fragment :
  map city (LocationStep.searchLocations "york") = ["New York"].
Proof. reflexivity. Qed.

Example search_without_match : LocationStep.searchLocations "Paris" = [].
Proof. reflexivity. Qed.

Example iso_string_of_leap_day : toISOString 951782400000 = "2000-02-29T00:00:00.000Z".
Proof. reflexivity. Qed.

Example iso_string_before_epoch : toISOString (-1) = "1969-12-31T23:59:59.999Z".
Proof. reflexivity. Qed.

(** The snapshot of the untouched form leaves the [undefined] birth date
    out. *)
Example snapshot_of_initial_form :
  JSON_stringify MultiStepForm.initialFormData =
    DObject (list_to_map
      [ ("name", JString ""); ("email", JString ""); ("birthTime", JString "");
        ("birthCity", JString ""); ("birthCountry", JString "");
        ("latitude", JNull); ("longitude", JNull) ]).
Proof. vm_compute. reflexivity. Qed.

(** A complete session ends on the last step with the chosen location in
    the form and no error. *)
Example complete_session :
  Wizard.currentStep Examples.on_last_step = 2 /\
  prop (Wizard.formData Examples.on_last_step) "birthCity" = VString "Delhi" /\
  prop (Wizard.formData Examples.on_last_step) "latitude" = VNumber 28.7041 /\
  Wizard.errors Examples.on_last_step = ∅.
Proof. repeat split; vm_compute; reflexivity. Qed.

(** Two keystrokes 100 ms apart, then 500 ms of quiet: one lookup, for the
    second query, 500 ms after it was typed. *)
Example debounce_session :
  let s := LocationStep.run (MultiStepForm.handleUpdateFormData ∅)
             (LocationStep.mount 0)
             [ LocationStep.Type_query "de"; LocationStep.Elapse 100;
               LocationStep.Type_query "del"; LocationStep.Elapse 499;
               LocationStep.Elapse 1 ] in
  LocationStep.history s =
    [ (600, LocationStep.Lookup "del"); (100, LocationStep.EffectRan "del");
      (0, LocationStep.EffectRan "de"); (0, LocationStep.EffectRan "") ] /\
  map city (LocationStep.searchResults s) = ["Delhi"] /\
  LocationStep.timers s = [].
Proof. repeat split. Qed.

(** A query of two characters is never looked up. *)
Example short_query_is_not_looked_up :
  LocationStep.history
    (LocationStep.run (MultiStepForm.handleUpdateFormData ∅) (LocationStep.mount 0)
       [ LocationStep.Type_query "de"; LocationStep.Elapse 2000 ]) =
    [ (0, LocationStep.EffectRan "de"); (0, LocationStep.EffectRan "") ].
Proof. reflexivity. Qed.

(** The header of [KundaliResults] does depend on its props. *)
Example header_shows_the_place :
  KundaliResults.birth_place (KundaliResults.render {["place" := VString "Pokhara"]}) =
    Value (VString "Pokhara") /\
  KundaliResults.birth_place (KundaliResults.render ∅) = Value (VString "Not specified").
Proof. split; vm_compute; reflexivity. Qed.

End Checks.

(* ===================================================================== *)
(** * Further properties of the wizard                                    *)
(* ===================================================================== *)

Section SessionFacts.
Import Js React Spec Spec2 MultiStepForm Wizard WizardView Session.

Lemma offered_ui_event (w : World) (e : event) : offered w e -> ui_event e.
Proof.
  destruct e as [ | | | | field value | location ]; cbn [offered]; try constructor.
  intros ([name email errors | birthDate birthTime errors
           | birthCity birthCountry latitude longitude errors] & Hin);
    cbn [input_of] in Hin.
  - destruct Hin as [[-> | ->] [s ->]]; constructor.
  - destruct Hin as [[-> [-> | [t ->]]] | [-> [s ->]]]; constructor.
  - destruct Hin as [[-> | ->] [s ->]]; constructor.
Qed.

Lemma in_session_reachable (w : World) : in_session w -> reachable w.
Proof.
  induction 1 as [storage | w e _ IH He]; [constructor|].
  constructor; [exact IH | now apply (offered_ui_event w)].
Qed.

Lemma in_session_run (w : World) (es : list event) :
  in_session w -> offered_all w es -> in_session (run w es).
Proof.
  revert w. induction es as [|e es IH]; intros w Hw Hes; [exact Hw|].
  destruct Hes as [He Hes]. cbn [run fold_left]. apply IH; [now constructor | exact Hes].
Qed.

(** The checks of the last step look at the fields of that step only. *)
Lemma checks_pass_2_ext (fd fd' : gmap string JsValue) :
  prop fd' "birthCity" = prop fd "birthCity" ->
  prop fd' "birthCountry" = prop fd "birthCountry" ->
  checks_pass 2 fd -> checks_pass 2 fd'.
Proof.
  intros Hc Hk (_ & _ & H2). split; [intros H; discriminate H|].
  split; [intros H; discriminate H|].
  intros _. rewrite Hc, Hk. exact (H2 eq_refl).
Qed.



(** The effects of Next after a validation that built the error map [E]. *)
Lemma handler_Next_effects (w : World) (E : gmap string string) :
  validateCurrentStep (Wizard.currentStep w) (Wizard.formData w) =
    ([setErrors (fun _ => E)], Some (bool_decide (size E = 0%nat))) ->
  effects (handler w Next) =
    if bool_decide (size E = 0%nat) && negb (Wizard.currentStep w <? 2)
    then [ toast_success "Form submitted successfully!" "Redirecting to your results...";
           setTimeout redirect_to_results 1500 ]
    else [].
Proof.
  intros HV. unfold handler, handleNext. rewrite HV. run_M.
  change (Z.of_nat (length steps) - 1) with 2.
  destruct (bool_decide (size E = 0%nat)) eqn:Hb; cbn [andb].
  - destruct (Wizard.currentStep w <? 2) eqn:Hlt; cbn [negb].
    + reflexivity.
    + unfold handleSubmit. rewrite HV. reflexivity.
  - reflexivity.
Qed.

End SessionFacts.

Section WizardExtras.
Import Js React Spec Spec2 MultiStepForm Wizard WizardView Session.

(** Either nothing, or the toast and the redirect timer. *)
Lemma effects_Next_iff (w : World) :
  reachable w ->
  (effects (handler w Next) <> [] <->
   Wizard.currentStep w = 2 /\ checks_pass 2 (Wizard.formData w)) /\
  (effects (handler w Next) <> [] ->
   effects (handler w Next) =
     [ toast_success "Form submitted successfully!" "Redirecting to your results...";
       setTimeout redirect_to_results 1500 ]).
Proof.
  intros Hr. destruct (reachable_invariant w Hr) as (HT & Hstep & _).
  destruct (dispatch_Next_typed w HT Hstep) as (E & _ & Hiff & HV & _).
  rewrite (handler_Next_effects w E HV).
  destruct (bool_decide (size E = 0%nat)) eqn:Hb; cbn [andb].
  - apply size_zero_iff in Hb. apply Hiff in Hb.
    destruct (Z.ltb_spec (Wizard.currentStep w) 2) as [Hlt | Hge]; cbn [negb].
    + split; [|congruence]. split; [congruence | intros [H _]; lia].
    + assert (H2 : Wizard.currentStep w = 2) by lia.
      split; [|reflexivity]. split; [|discriminate].
      intros _. split; [exact H2|]. now rewrite <- H2 at 1.
  - split; [|congruence]. split; [congruence|]. intros [H2 Hpass]. exfalso.
    rewrite <- H2 in Hpass at 1. apply Hiff in Hpass. subst E.
    assert (Ht : bool_decide (size (∅ : gmap string string) = 0%nat) = true)
      by now apply size_zero_iff.
    congruence.
Qed.

(** X1.  A submission checks the last step only.  In a reachable state
    pressing Next shows the success toast and schedules the redirect
    exactly when the wizard is on the last step and the city and the
    country pass their checks; two reachable states on the same step with
    the same city and country submit alike, whatever the name, the
    address and the birth date and time hold.  The checks of the steps
    behind are not made again: a name cleared in the box of the first
    panel while that panel fades out after Next is submitted blank. *)
Theorem submission_checks_only_the_last_step (w : World) :
  reachable w ->
  (effects (handler w Next) <> [] <->
   Wizard.currentStep w = 2 /\ checks_pass 2 (Wizard.formData w)) /\
  (forall w',
     reachable w' ->
     Wizard.currentStep w' = Wizard.currentStep w ->
     prop (Wizard.formData w') "birthCity" = prop (Wizard.formData w) "birthCity" ->
     prop (Wizard.formData w') "birthCountry" = prop (Wizard.formData w) "birthCountry" ->
     effects (handler w' Next) = effects (handler w Next)).
Proof.
  intros Hr. destruct (effects_Next_iff w Hr) as [Hiff Hlist].
  split; [exact Hiff|].
  intros w' Hr' Hstep Hc Hk. destruct (effects_Next_iff w' Hr') as [Hiff' Hlist'].
  assert (Hsame : effects (handler w' Next) <> [] <-> effects (handler w Next) <> []).
  { rewrite Hiff, Hiff', Hstep. split; intros [H2 Hp]; (split; [exact H2|]).
    - now apply (checks_pass_2_ext (Wizard.formData w')).
    - now apply (checks_pass_2_ext (Wizard.formData w)). }
  destruct (effects (handler w Next)) as [|a l] eqn:E.
  - destruct (effects (handler w' Next)) as [|a' l'] eqn:E'; [reflexivity|].
    exfalso. apply (proj1 Hsame); discriminate || reflexivity.
  - rewrite Hlist by discriminate. apply Hlist'. apply Hsame. discriminate.
Qed.

(** X2.  In every reachable state the progress bar has three entries; it
    highlights the circles of the steps up to the current one and the
    lines before it, and no others; the last entry has no line. *)
Theorem progress_bar_follows_the_step (w : World) :
  reachable w ->
  length (progress (render w)) = 3%nat /\
  (forall i entry,
     progress (render w) !! i = Some entry ->
     (reached entry = true <-> Z.of_nat i <= Wizard.currentStep w) /\
     (connector entry = None <-> i = 2%nat) /\
     (connector entry = Some true <-> (i < 2)%nat /\ Z.of_nat i < Wizard.currentStep w)) /\
  length (List.filter reached (progress (render w))) =
    Z.to_nat (Wizard.currentStep w + 1).
Proof.
  intros Hr. destruct (reachable_invariant w Hr) as (_ & Hstep & _).
  assert (Hc : Wizard.currentStep w = 0 \/ Wizard.currentStep w = 1 \/
               Wizard.currentStep w = 2) by lia.
  unfold render. cbn [progress].
  destruct Hc as [-> | [-> | ->]]; cbn.
  all: split; [reflexivity|].
  all: split; [|reflexivity].
  all: intros [|[|[|i]]] entry H; cbn in H; inversion H; subst; cbn;
    repeat split; intros; try lia; try congruence; try discriminate.
Qed.

(** X20.  In every reachable state the tree the component returns holds
    exactly one step panel as the keyed child of the animated container,
    never none and never two, and it is the panel of the current step.
    This is about the tree that is returned: on screen the container
    keeps the panel it showed before until that panel has faded out, and
    shows this one from then on. *)
Theorem keyed_child_is_the_panel_of_the_step (w : World) :
  reachable w ->
  exists p, keyed_children (render w) = [p] /\ panel_step p = Wizard.currentStep w.
Proof.
  intros Hr. destruct (reachable_invariant w Hr) as (_ & Hstep & _).
  assert (Hc : Wizard.currentStep w = 0 \/ Wizard.currentStep w = 1 \/
               Wizard.currentStep w = 2) by lia.
  unfold render. cbn [keyed_children].
  destruct Hc as [-> | [-> | ->]]; cbn; eexists; split; reflexivity.
Qed.

(** X3.  The buttons agree with their handlers.  The Back button is
    rendered exactly when pressing Back takes the wizard one step back, and
    where it is not rendered Back changes nothing.  In a reachable state
    the other button reads Submit exactly on the last step; pressing it
    there never changes the step, and pressing it where it reads Next
    never shows the success toast nor schedules the redirect. *)
Theorem buttons_agree_with_handlers (w : World) :
  reachable w ->
  (back_button (render w) = true ->
     Wizard.currentStep (dispatch w Back) = Wizard.currentStep w - 1) /\
  (back_button (render w) = false -> dispatch w Back = w) /\
  (next_label (render w) = "Submit" <-> Wizard.currentStep w = 2) /\
  (next_arrow (render w) = true <-> next_label (render w) = "Next") /\
  (next_label (render w) = "Submit" ->
     Wizard.currentStep (dispatch w Next) = Wizard.currentStep w) /\
  (next_label (render w) = "Next" -> effects (handler w Next) = []).
Proof.
  intros Hr. destruct (reachable_invariant w Hr) as (HT & Hstep & _).
  destruct (dispatch_Next_typed w HT Hstep) as (E & _ & _ & HV & HN).
  rewrite HN, (handler_Next_effects w E HV), dispatch_Back.
  unfold render. cbn [back_button next_label next_arrow Wizard.currentStep].
  change (Z.of_nat (length steps) - 1) with 2.
  destruct (Z.ltb_spec 0 (Wizard.currentStep w)) as [Hpos | Hpos];
    destruct (Z.eqb_spec (Wizard.currentStep w) 2) as [Hlast | Hlast];
    destruct (Z.ltb_spec (Wizard.currentStep w) 2) as [Hlt | Hlt]; try lia;
    rewrite ?andb_false_r, ?andb_true_r; cbn [negb];
    repeat split; try congruence; try discriminate; try lia;
    try (intros _; now destruct w);
    try (intros _; now destruct (bool_decide (size E = 0%nat))).
Qed.

End WizardExtras.

Section ValidationExtras.
Import Js React Spec Spec2 MultiStepForm Wizard.

Lemma two_keys_table (E : gmap string string) (k1 k2 : string)
    (T : list (string * string)) :
  (forall k, k <> k1 -> k <> k2 -> E !! k = None) ->
  (forall m, E !! k1 = Some m -> In (k1, m) T) ->
  (forall m, E !! k2 = Some m -> In (k2, m) T) ->
  forall k m, E !! k = Some m -> In (k, m) T.
Proof.
  intros Hother H1 H2 k m Hk.
  destruct (decide (k = k1)) as [->|]; [eauto|].
  destruct (decide (k = k2)) as [->|]; [eauto|].
  rewrite Hother in Hk by assumption. discriminate.
Qed.

(** The entries the validation of a step builds are entries of the table of
    that step. *)
Lemma validate_table (step : Z) (fd : gmap string JsValue) :
  validateCurrentStep step fd = ([], None) \/
  exists E : gmap string string,
    validateCurrentStep step fd =
      ([setErrors (fun _ => E)], Some (bool_decide (size E = 0%nat))) /\
    forall k m, E !! k = Some m -> In (k, m) (error_messages step).
Proof.
  destruct (decide (step = 0)) as [->|N0];
    [| destruct (decide (step = 1)) as [->|N1];
       [| destruct (decide (step = 2)) as [->|N2]]].
  - destruct (prop fd "name") as [ | | | name | | ] eqn:Hn;
      try (left; unfold validateCurrentStep; rewrite Hn; reflexivity).
    destruct (prop fd "email") as [ | | | email | | ] eqn:He;
      try (left; unfold validateCurrentStep; rewrite Hn, He; reflexivity).
    right. destruct (validate_step0 fd name email Hn He) as (E & HE & H1 & H2 & H3 & _).
    exists E. split; [exact HE|].
    apply (two_keys_table E "name" "email" _ H3); intros m Hm.
    + rewrite H1 in Hm. destruct (all_whitespace name); inversion Hm. cbn. auto.
    + rewrite H2 in Hm.
      destruct (all_whitespace email), (RegExp_test email_pattern email);
        inversion Hm; cbn; auto.
  - right. destruct (validate_step1 fd) as (E & HE & H1 & H2 & H3 & _).
    exists E. split; [exact HE|].
    apply (two_keys_table E "birthDate" "birthTime" _ H3); intros m Hm.
    + rewrite H1 in Hm. destruct (truthy (prop fd "birthDate")); inversion Hm. cbn. auto.
    + rewrite H2 in Hm. destruct (truthy (prop fd "birthTime")); inversion Hm. cbn. auto.
  - destruct (prop fd "birthCity") as [ | | | birthCity | | ] eqn:Hc;
      try (left; unfold validateCurrentStep; rewrite Hc; reflexivity).
    destruct (prop fd "birthCountry") as [ | | | birthCountry | | ] eqn:Hk;
      try (left; unfold validateCurrentStep; rewrite Hc, Hk; reflexivity).
    right. destruct (validate_step2 fd _ _ Hc Hk) as (E & HE & H1 & H2 & H3 & _).
    exists E. split; [exact HE|].
    apply (two_keys_table E "birthCity" "birthCountry" _ H3); intros m Hm.
    + rewrite H1 in Hm. destruct (all_whitespace birthCity); inversion Hm. cbn. auto.
    + rewrite H2 in Hm. destruct (all_whitespace birthCountry); inversion Hm. cbn. auto.
  - right. exists ∅. split; [now apply validate_other|].
    intros k m Hm. rewrite lookup_empty in Hm. discriminate.
Qed.

Lemma in_table_drop (E0 E : gmap string string) (k : string) (T : list (string * string)) :
  (forall f m, E !! f = Some m -> In (f, m) T) ->
  forall f m, (if has_error E0 k then delete k E else E) !! f = Some m -> In (f, m) T.
Proof.
  intros H f m. destruct (has_error E0 k); [|apply H].
  intros Hd. apply lookup_delete_Some in Hd as [_ Hd]. now apply H.
Qed.

(** Under any event the error map stays within the table of one step. *)
Lemma dispatch_error_table (w : World) (e : event) :
  (exists step, 0 <= step <= 2 /\
     forall k m, Wizard.errors w !! k = Some m -> In (k, m) (error_messages step)) ->
  0 <= Wizard.currentStep w <= 2 ->
  exists step, 0 <= step <= 2 /\
    forall k m, Wizard.errors (dispatch w e) !! k = Some m -> In (k, m) (error_messages step).
Proof.
  intros (step & Hs & HT) Hcur.
  destruct e as [ | | | | field value | location ].
  - destruct (validate_table (Wizard.currentStep w) (Wizard.formData w))
      as [HV | (E & HV & HE)].
    + exists step. split; [exact Hs|].
      unfold dispatch, run_handler, handler, handleNext. rewrite HV. exact HT.
    + exists (Wizard.currentStep w). split; [exact Hcur|].
      now rewrite (dispatch_Next_validated w E HV).
  - exists step. split; [exact Hs|]. now rewrite dispatch_Back.
  - exists 0. split; [lia|]. rewrite dispatch_Reset. cbn [Wizard.errors].
    intros k m H. rewrite lookup_empty in H. discriminate.
  - exists step. split; [exact Hs|]. now rewrite dispatch_SaveProgress.
  - exists step. split; [exact Hs|]. rewrite dispatch_Update. cbn [Wizard.errors].
    now apply in_table_drop.
  - exists step. split; [exact Hs|]. rewrite dispatch_SelectLocation. cbn [Wizard.errors].
    now repeat apply in_table_drop.
Qed.

(** X4.  Whatever the sequence of events (any field and value in the
    updates), the error map only ever holds entries of the fixed table of
    one single step: a field of that step with one of its messages.  There
    is never an error for latitude or longitude, and never errors of two
    steps at once. *)
Theorem errors_stay_within_one_step (storage : gmap string document) (es : list event) :
  exists step, 0 <= step <= 2 /\
    forall k m,
      Wizard.errors (run (initial storage) es) !! k = Some m ->
      In (k, m) (error_messages step).
Proof.
  unfold run.
  assert (H0 : (exists step, 0 <= step <= 2 /\
                  forall k m, Wizard.errors (initial storage) !! k = Some m ->
                              In (k, m) (error_messages step)) /\
               0 <= Wizard.currentStep (initial storage) <= 2).
  { split; [|cbn; lia]. exists 0. split; [lia|].
    intros k m H. cbn in H. rewrite lookup_empty in H. discriminate. }
  revert H0. generalize (initial storage) as w.
  induction es as [|e es IH]; intros w [HT Hc]; [exact HT|].
  cbn [fold_left]. apply IH. split; [now apply dispatch_error_table|].
  destruct (dispatch_currentStep w e)
    as [H | [(_ & H1 & H2) | [(_ & H1 & H2) | (_ & H)]]]; lia.
Qed.

Lemma handler_Next_returns (w : World) (E : gmap string string) (b : bool) :
  validateCurrentStep (Wizard.currentStep w) (Wizard.formData w) =
    ([setErrors (fun _ => E)], Some b) ->
  snd (handler w Next) = Some tt.
Proof.
  intros HV. unfold handler, handleNext. rewrite HV. run_M.
  destruct b; [|reflexivity].
  destruct (Wizard.currentStep w <? Z.of_nat (length steps) - 1); [reflexivity|].
  unfold handleSubmit. rewrite HV. reflexivity.
Qed.

Lemma not_string_cases (v : JsValue) : is_string v \/ ~ is_string v.
Proof.
  destruct v; try (right; intros [s H]; discriminate H). left. now eexists.
Qed.

(** When the validation throws. *)
Lemma validate_throws_iff (step : Z) (fd : gmap string JsValue) :
  validateCurrentStep step fd = ([], None) <->
  (step = 0 /\ (~ is_string (prop fd "name") \/ ~ is_string (prop fd "email"))) \/
  (step = 2 /\ (~ is_string (prop fd "birthCity") \/ ~ is_string (prop fd "birthCountry"))).
Proof.
  destruct (decide (step = 0)) as [->|N0];
    [| destruct (decide (step = 1)) as [->|N1];
       [| destruct (decide (step = 2)) as [->|N2]]].
  - destruct (not_string_cases (prop fd "name")) as [[name Hn] | Hn].
    + destruct (not_string_cases (prop fd "email")) as [[email He] | He].
      * destruct (validate_step0 fd name email Hn He) as (E & HE & _).
        rewrite HE, Hn, He. split; [discriminate|].
        intros [[_ [H | H]] | [H _]]; try discriminate H; exfalso; apply H; now eexists.
      * split; [intros _; left; auto|]. intros _.
        unfold validateCurrentStep. rewrite Hn.
        destruct (prop fd "email"); try reflexivity. exfalso. apply He. now eexists.
    + split; [intros _; left; auto|]. intros _.
      unfold validateCurrentStep.
      destruct (prop fd "name"); try reflexivity. exfalso. apply Hn. now eexists.
  - destruct (validate_step1 fd) as (E & HE & _). rewrite HE.
    split; [discriminate | intros [[H _] | [H _]]; discriminate H].
  - destruct (not_string_cases (prop fd "birthCity")) as [[c Hc] | Hc].
    + destruct (not_string_cases (prop fd "birthCountry")) as [[k Hk] | Hk].
      * destruct (validate_step2 fd c k Hc Hk) as (E & HE & _).
        rewrite HE, Hc, Hk. split; [discriminate|].
        intros [[H _] | [_ [H | H]]]; try discriminate H; exfalso; apply H; now eexists.
      * split; [intros _; right; auto|]. intros _.
        unfold validateCurrentStep. rewrite Hc.
        destruct (prop fd "birthCountry"); try reflexivity. exfalso. apply Hk. now eexists.
    + split; [intros _; right; auto|]. intros _.
      unfold validateCurrentStep.
      destruct (prop fd "birthCity"); try reflexivity. exfalso. apply Hc. now eexists.
  - rewrite validate_other by assumption.
    split; [discriminate | intros [[H _] | [H _]]; contradiction].
Qed.

(** X5.  Next throws exactly when the wizard is on step 0 or step 2 and one
    of the two fields that step trims holds something that is not a string
    ([handleUpdateFormData] accepts any value); it never throws on step 1.
    When it throws nothing has been issued: no error is shown, the step,
    the form and local storage are as before. *)
Theorem next_throws_exactly_on_a_non_string (w : World) :
  (snd (handler w Next) = None <->
   (Wizard.currentStep w = 0 /\
    (~ is_string (prop (Wizard.formData w) "name") \/
     ~ is_string (prop (Wizard.formData w) "email"))) \/
   (Wizard.currentStep w = 2 /\
    (~ is_string (prop (Wizard.formData w) "birthCity") \/
     ~ is_string (prop (Wizard.formData w) "birthCountry")))) /\
  (snd (handler w Next) = None -> fst (handler w Next) = [] /\ dispatch w Next = w).
Proof.
  rewrite <- validate_throws_iff.
  destruct (validate_shape (Wizard.currentStep w) (Wizard.formData w))
    as [HV | (E & HV & _)].
  - assert (HN : handler w Next = ([], None))
      by (unfold handler, handleNext; now rewrite HV).
    rewrite HN, HV. split; [tauto|]. intros _. split; [reflexivity|].
    unfold dispatch, run_handler. now rewrite HN.
  - rewrite (handler_Next_returns w E _ HV), HV. split; [|discriminate].
    split; discriminate.
Qed.

(** X6.  Two updates of the same field amount to the second one alone, and
    updates of two different fields can be swapped: in both cases the form,
    the error map, the step and local storage end up the same. *)
Theorem updates_overwrite_and_commute (w : World) (k k' : string) (v v' : JsValue) :
  dispatch (dispatch w (Update k v)) (Update k v') = dispatch w (Update k v') /\
  (k <> k' ->
   dispatch (dispatch w (Update k v)) (Update k' v') =
   dispatch (dispatch w (Update k' v')) (Update k v)).
Proof.
  rewrite !dispatch_Update.
  cbn [Wizard.currentStep Wizard.formData Wizard.errors localStorage].
  assert (Hsame : forall E : gmap string string,
            has_error (if has_error E k then delete k E else E) k = has_error E k \/
            has_error E k = true /\ has_error (delete k E) k = false).
  { intros E. destruct (has_error E k) eqn:H; [right|now left].
    split; [reflexivity|]. unfold has_error. now rewrite lookup_delete_eq. }
  assert (Hother : forall (E : gmap string string) a b, a <> b ->
            has_error (if has_error E a then delete a E else E) b = has_error E b).
  { intros E a b Hab. destruct (has_error E a); [|reflexivity].
    unfold has_error. now rewrite lookup_delete_ne. }
  split.
  - f_equal; [apply insert_insert_eq|].
    destruct (Hsame (Wizard.errors w)) as [H | [H1 H2]].
    + rewrite H. destruct (has_error (Wizard.errors w) k); [|reflexivity].
      apply delete_delete_eq.
    + rewrite H1, H2. reflexivity.
  - intros Hne. f_equal; [now apply insert_insert_ne|].
    rewrite (Hother _ k k' Hne), (Hother _ k' k) by congruence.
    destruct (has_error (Wizard.errors w) k), (has_error (Wizard.errors w) k');
      try reflexivity.
    apply delete_delete.
Qed.

(** X7.  In a reachable state where the checks of the current step pass and
    the step is not the last, Back undoes Next: the wizard is on the same
    step with the same form and the same local storage, and the error map
    is empty. *)
Theorem back_undoes_next (w : World) :
  reachable w ->
  checks_pass (Wizard.currentStep w) (Wizard.formData w) ->
  Wizard.currentStep w < 2 ->
  dispatch (dispatch w Next) Back =
    {| currentStep := Wizard.currentStep w; formData := Wizard.formData w;
       errors := ∅; localStorage := localStorage w |}.
Proof.
  intros Hr Hpass Hlast. destruct (reachable_invariant w Hr) as (HT & Hstep & _).
  destruct (dispatch_Next_typed w HT Hstep) as (E & _ & Hiff & _ & ->).
  apply Hiff in Hpass. subst E.
  rewrite dispatch_Back. cbn [Wizard.currentStep Wizard.formData Wizard.errors localStorage].
  assert (Hb : bool_decide (size (∅ : gmap string string) = 0%nat) = true)
    by now apply size_zero_iff.
  rewrite Hb. apply Z.ltb_lt in Hlast. rewrite Hlast. cbn [andb].
  assert (Hpos : (0 <? Wizard.currentStep w + 1) = true) by (apply Z.ltb_lt; lia).
  rewrite Hpos. f_equal. lia.
Qed.

Lemma email_shape_length (s : string) : email_shape s -> (5 <= String.length s)%nat.
Proof.
  intros (pre & a & b & c & post & -> & Ha & Hb & Hc & _).
  rewrite !length_app_s. cbn [String.length].
  destruct a; [congruence|]. destruct b; [congruence|]. destruct c; [congruence|].
  cbn [String.length]. lia.
Qed.

(** X8.  The e-mail check of step 0 is a search, not a match of the whole
    field: it accepts exactly the strings that contain a run free of white
    space, an at sign, a second such run, a dot and a third run.  Hence a
    string that contains an accepted address is accepted whatever stands
    around it, and nothing shorter than five characters is accepted. *)
Theorem email_check_is_a_search :
  (forall s, RegExp_test email_pattern s = true <-> email_shape s) /\
  (forall pre s post,
     RegExp_test email_pattern s = true ->
     RegExp_test email_pattern (pre ++ s ++ post) = true) /\
  (forall s, RegExp_test email_pattern s = true -> (5 <= String.length s)%nat).
Proof.
  split; [|split].
  - intros s. rewrite RegExp_test_spec. apply found_email_pattern.
  - intros pre s post. rewrite !RegExp_test_spec.
    intros (p & m & q & -> & Hm). exists (pre ++ p), m, (q ++ post).
    split; [now rewrite !app_assoc_s | exact Hm].
  - intros s H. apply email_shape_length, found_email_pattern, RegExp_test_spec, H.
Qed.

End ValidationExtras.

Section LookupExtras.
Import Js React Spec Spec2 LocationStep.

Lemma includes_trans (a b c : string) :
  includes a b = true -> includes b c = true -> includes a c = true.
Proof.
  rewrite !includes_spec. intros (p & q & ->) (p' & q' & ->).
  exists (p ++ p'), (q' ++ q). now rewrite !app_assoc_s.
Qed.

Lemma filter_none {A : Type} (f : A -> bool) (l : list A) :
  (forall x, In x l -> f x = false) -> List.filter f l = [].
Proof.
  induction l as [|x l IH]; intros H; [reflexivity|]. cbn [List.filter].
  rewrite (H x) by now left. apply IH. intros y Hy. apply H. now right.
Qed.

Lemma mockData_has_no_comma (location : Location) :
  In location mockData ->
  includes (toLowerCase (city location)) "," = false /\
  includes (toLowerCase (country location)) "," = false.
Proof.
  intros H.
  assert (Hall : forallb (fun l => negb (includes (toLowerCase (city l)) ",") &&
                                   negb (includes (toLowerCase (country l)) ","))
                         mockData = true) by (vm_compute; reflexivity).
  rewrite forallb_forall in Hall. specialize (Hall location H).
  apply andb_true_iff in Hall as [H1 H2].
  now apply negb_true_iff in H1, H2.
Qed.

(** No entry of the mock list matches a query with a comma in it. *)
Lemma searchLocations_comma (query : string) :
  includes (toLowerCase query) "," = true -> searchLocations query = [].
Proof.
  intros Hq. unfold searchLocations.
  destruct (negb (truthy (VString query))); [reflexivity|].
  apply filter_none. intros location Hin.
  destruct (mockData_has_no_comma location Hin) as [H1 H2].
  apply orb_false_iff. split.
  - destruct (includes (toLowerCase (city location)) (toLowerCase query)) eqn:E;
      [|reflexivity].
    rewrite (includes_trans _ _ _ E Hq) in H1. discriminate.
  - destruct (includes (toLowerCase (country location)) (toLowerCase query)) eqn:E;
      [|reflexivity].
    rewrite (includes_trans _ _ _ E Hq) in H2. discriminate.
Qed.

Lemma selected_text_has_comma (location : Location) :
  includes (toLowerCase (city location +:+ ", " +:+ country location)) "," = true.
Proof.
  apply includes_spec.
  exists (toLowerCase (city location)), (" " ++ toLowerCase (country location)).
  now rewrite !toLowerCase_app.
Qed.

Lemma matches_of_selected (location : Location) :
  matches_of (city location +:+ ", " +:+ country location) = [].
Proof.
  unfold matches_of.
  destruct (2 <? _); [|reflexivity].
  apply searchLocations_comma, selected_text_has_comma.
Qed.

Lemma matches_of_sublist (q : string) : sublist (matches_of q) mockData.
Proof.
  unfold matches_of, searchLocations.
  destruct (2 <? _); [|apply sublist_nil_l].
  destruct (negb _); [apply sublist_nil_l | apply filter_sublist].
Qed.

Lemma mount_lookup_consistent (t : Z) : lookup_consistent (mount t).
Proof.
  unfold lookup_consistent, mount.
  cbn [apply_actions fold_left effect emit fst apply_action searching searchResults
       timers next_id delaySearch searchQuery now app].
  unfold debounce_ms.
  split; [reflexivity|]. split; [apply sublist_nil_l|].
  right. eexists. split; [reflexivity|]. cbn [timer_id timer_due timer_query].
  split; [reflexivity|]. split; [reflexivity | lia].
Qed.

(** What the invariant says about the pending timers is what the cleanup
    needs. *)
Lemma lookup_consistent_timers (s : State) :
  lookup_consistent s ->
  timers s = [] \/ (exists tm, timers s = [tm] /\ delaySearch s = Some (timer_id tm)).
Proof.
  intros (_ & _ & [[H _] | (tm & H & Hid & _)]); [now left | right; now exists tm].
Qed.

(** After the effect has run again one timer is pending, for the text of
    the search box. *)
Lemma run_effect_lookup_consistent (s : State) :
  searching s = false ->
  sublist (searchResults s) mockData ->
  timers s = [] \/ (exists tm, timers s = [tm] /\ delaySearch s = Some (timer_id tm)) ->
  lookup_consistent (run_effect s).
Proof.
  intros Hsp Hsub Ht. rewrite run_effect_eq, (cleanup_clears s Ht).
  unfold lookup_consistent, debounce_ms.
  cbn [searchQuery searchResults searching now timers next_id delaySearch app].
  split; [exact Hsp|]. split; [exact Hsub|].
  right. eexists. split; [reflexivity|]. cbn [timer_id timer_due timer_query].
  split; [reflexivity|]. split; [reflexivity | lia].
Qed.

Lemma step_lookup_consistent (errors : gmap string string) (s : State) (e : event) :
  lookup_consistent s ->
  lookup_consistent (step (MultiStepForm.handleUpdateFormData errors) s e).
Proof.
  intros Hs. pose proof (lookup_consistent_timers s Hs) as Hcl.
  destruct Hs as (Hsp & Hsub & Ht). destruct e as [value | location | ms].
  - cbn [step].
    change (apply_actions (fst (handleSearchChange value)) s) with
      {| searchQuery := value; searchResults := searchResults s;
         searching := searching s; now := now s; timers := timers s;
         next_id := next_id s; delaySearch := delaySearch s; history := history s |}.
    unfold commit. cbn [searchQuery].
    destruct (String.eqb_spec (searchQuery s) value) as [<- | Hne].
    + unfold lookup_consistent.
      cbn [searchQuery searchResults searching now timers delaySearch]. auto.
    + now apply run_effect_lookup_consistent.
  - cbn [step]. rewrite select_actions. unfold commit. cbn [searchQuery].
    destruct (String.eqb_spec (searchQuery s)
                (city location +:+ ", " +:+ country location)) as [Heq | Hne].
    + unfold lookup_consistent.
      cbn [searchQuery searchResults searching now timers delaySearch].
      split; [exact Hsp|]. split; [apply sublist_nil_l|].
      destruct Ht as [[Hnone _] | (tm & Honly & Hid & Hq & Hdue)].
      * left. split; [exact Hnone|]. symmetry. apply matches_of_selected.
      * right. exists tm. rewrite <- Heq. auto.
    + apply run_effect_lookup_consistent; [exact Hsp | apply sublist_nil_l | exact Hcl].
  - assert (Hms : 0 <= Z.of_N ms) by lia.
    destruct Ht as [[Hnone Hres] | (tm & Honly & Hid & Hq & Hdue)].
    + rewrite (elapse_none _ s ms Hnone). unfold lookup_consistent, set_clock.
      cbn [searchQuery searchResults searching now timers delaySearch]. auto.
    + rewrite (elapse_one _ s ms tm Honly).
      destruct (Z.leb_spec (timer_due tm) (now s + Z.of_N ms)) as [Hfire | Hwait].
      * rewrite (fire_timer_one tm s Honly). unfold lookup_consistent, set_clock.
        rewrite <- Hq. unfold matches_of.
        destruct (2 <? Z.of_nat (String.length (timer_query tm))) eqn:Hlen;
          cbn [searchQuery searchResults searching now timers delaySearch];
          rewrite <- ?Hq, ?Hlen.
        -- split; [reflexivity|]. split; [|now left].
           unfold searchLocations.
           destruct (negb _); [apply sublist_nil_l | apply filter_sublist].
        -- split; [exact Hsp|]. split; [apply sublist_nil_l | now left].
      * unfold lookup_consistent, set_clock.
        cbn [searchQuery searchResults searching now timers delaySearch].
        split; [exact Hsp|]. split; [exact Hsub|].
        right. exists tm. repeat split; assumption || lia.
Qed.

Lemma run_app (errors : gmap string string) (s : State) (es es' : list event) :
  run (MultiStepForm.handleUpdateFormData errors) s (es ++ es')%list =
  run (MultiStepForm.handleUpdateFormData errors)
      (run (MultiStepForm.handleUpdateFormData errors) s es) es'.
Proof. apply fold_left_app. Qed.

Lemma run_lookup_consistent (errors : gmap string string) (es : list event) (s : State) :
  lookup_consistent s ->
  lookup_consistent (run (MultiStepForm.handleUpdateFormData errors) s es).
Proof.
  revert s. induction es as [|e es IH]; intros s Hs; [exact Hs|].
  cbn [run fold_left]. apply IH. now apply step_lookup_consistent.
Qed.

(** X9.  Whatever is typed, selected and waited after mounting, the search
    box and its timers agree once each event has settled: the spinner is
    off and the dropdown holds entries of the mock list in their order;
    either no timer is pending and the dropdown holds exactly the matches
    of the current text (none for a text of at most two characters), or
    exactly one timer is pending, which holds the current text and is due
    within 500 ms.  The timers of earlier texts have been cleared by the
    cleanup of the effect: timers stay pending until they fire or are
    cleared. *)
Theorem dropdown_follows_search_text
    (errors : gmap string string) (t : Z) (es : list event) :
  lookup_consistent (run (MultiStepForm.handleUpdateFormData errors) (mount t) es).
Proof. apply run_lookup_consistent, mount_lookup_consistent. Qed.

(** X10.  After a wait of at least 500 ms no timer is pending and the
    dropdown shows the matches of the text in the search box, whatever
    happened before the wait. *)
Theorem lookup_settles_after_quiet_wait
    (errors : gmap string string) (t : Z) (es : list event) (ms : N) :
  debounce_ms <= Z.of_N ms ->
  let s := run (MultiStepForm.handleUpdateFormData errors) (mount t)
               (es ++ [Elapse ms])%list in
  timers s = [] /\ searchResults s = matches_of (searchQuery s).
Proof.
  intros Hms. rewrite run_app. cbn [run fold_left].
  pose proof (Hinv := run_lookup_consistent errors es (mount t)
                (mount_lookup_consistent t)).
  fold (run (MultiStepForm.handleUpdateFormData errors) (mount t) es) in Hinv |- *.
  set (s0 := run (MultiStepForm.handleUpdateFormData errors) (mount t) es) in *.
  destruct Hinv as (_ & _ & [[Hnone Hres] | (tm & Honly & Hid & Hq & Hdue)]).
  - rewrite (elapse_none _ s0 ms Hnone). unfold set_clock.
    cbn [searchQuery searchResults timers]. auto.
  - rewrite (elapse_one _ s0 ms tm Honly).
    destruct (Z.leb_spec (timer_due tm) (now s0 + Z.of_N ms)) as [Hfire | Hwait]; [|lia].
    rewrite (fire_timer_one tm s0 Honly). unfold set_clock, matches_of. rewrite <- Hq.
    destruct (2 <? Z.of_nat (String.length (timer_query tm))) eqn:Hlen;
      cbn [searchQuery searchResults timers]; rewrite <- ?Hq, ?Hlen; auto.
Qed.

(** After a selection the dropdown is empty, and a timer that is pending
    holds a text without a match; no other timer is pending. *)
Lemma closed_after_select (errors : gmap string string) (s : State) (location : Location) :
  lookup_consistent s ->
  let s' := step (MultiStepForm.handleUpdateFormData errors) s (Select location) in
  searchResults s' = [] /\
  (timers s' = [] \/ exists tm, timers s' = [tm] /\ matches_of (timer_query tm) = []).
Proof.
  intros Hs. pose proof (lookup_consistent_timers s Hs) as Hcl.
  destruct Hs as (_ & _ & Ht).
  cbn [step]. rewrite select_actions. unfold commit. cbn [searchQuery].
  destruct (String.eqb_spec (searchQuery s)
              (city location +:+ ", " +:+ country location)) as [Heq | Hne].
  - cbn [searchResults timers]. split; [reflexivity|].
    destruct Ht as [[Hnone _] | (tm & Honly & _ & Hq & _)]; [now left|].
    right. exists tm. split; [exact Honly|]. rewrite Hq, Heq. apply matches_of_selected.
  - rewrite run_effect_eq.
    cbn [searchResults timers delaySearch searchQuery now next_id].
    rewrite (cleanup_clears _ Hcl). split; [reflexivity|].
    right. eexists. split; [reflexivity|]. apply matches_of_selected.
Qed.

Lemma closed_stays_closed (errors : gmap string string) (ds : list N) (s : State) :
  searchResults s = [] ->
  timers s = [] \/ (exists tm, timers s = [tm] /\ matches_of (timer_query tm) = []) ->
  searchResults (run (MultiStepForm.handleUpdateFormData errors) s (map Elapse ds)) = [].
Proof.
  revert s. induction ds as [|d ds IH]; intros s Hres Ht; [exact Hres|].
  cbn [map run fold_left].
  destruct Ht as [Hnone | (tm & Honly & Hm)].
  - rewrite (elapse_none _ s d Hnone). apply IH; [exact Hres | now left].
  - rewrite (elapse_one _ s d tm Honly).
    destruct (timer_due tm <=? now s + Z.of_N d).
    + rewrite (fire_timer_one tm s Honly). unfold matches_of in Hm.
      destruct (2 <? Z.of_nat (String.length (timer_query tm)));
        (apply IH; [cbn [set_clock searchResults]; now rewrite ?Hm | now left]).
    + apply IH; [exact Hres | right; now exists tm].
Qed.

(** X11.  Selecting an entry closes the dropdown for good: after the
    selection, and after any waits that follow it, the dropdown is empty.
    The selection writes the text "City, Country" into the search box; the
    cleanup clears the timer of the text typed before, so that it cannot
    fire and open the dropdown again; the effect looks the new text up in
    its turn, and no entry of the mock list matches a text with a comma. *)
Theorem selection_closes_the_dropdown
    (errors : gmap string string) (t : Z) (es : list event)
    (location : Location) (ds : list N) :
  searchResults
    (run (MultiStepForm.handleUpdateFormData errors) (mount t)
         (es ++ Select location :: map Elapse ds)%list) = [].
Proof.
  rewrite run_app. cbn [run fold_left].
  destruct (closed_after_select errors
              (run (MultiStepForm.handleUpdateFormData errors) (mount t) es) location
              (run_lookup_consistent errors es (mount t) (mount_lookup_consistent t)))
    as [Hres Ht].
  now apply (closed_stays_closed errors ds).
Qed.

End LookupExtras.

Section KundaliFormExtras.
Import Js KundaliForm.

Lemma kundali_run_formData (field : string) (es : list event) (s : State) :
  formData (run s es) !! field =
    match last_input field es with
    | Some v => Some v
    | None => formData s !! field
    end.
Proof.
  revert s. induction es as [|e es IH]; intros s; [reflexivity|].
  cbn [run fold_left last_input]. fold (run (dispatch s e) es). rewrite IH.
  destruct (last_input field es); [reflexivity|].
  destruct e as [f v|]; [|reflexivity].
  cbn [dispatch handleInputChange apply_actions fold_left apply_action formData].
  destruct (String.eqb_spec f field) as [->|Hne].
  - apply lookup_insert_eq.
  - now apply lookup_insert_ne.
Qed.

Lemma kundali_run_isSubmitted (es : list event) (s : State) :
  isSubmitted (run s es) = isSubmitted s || existsb is_submit es.
Proof.
  revert s. induction es as [|e es IH]; intros s.
  - cbn. now rewrite orb_false_r.
  - cbn [run fold_left existsb]. fold (run (dispatch s e) es). rewrite IH.
    destruct e as [f v|]; cbn; [reflexivity | now rewrite orb_true_r].
Qed.

(** X12.  In the one-page form every field holds the value of the latest
    input made to it, or its initial value when there was none, submitting
    changes no field, and the results are rendered exactly when the form
    has been submitted at least once.  Once rendered they are built from
    the form as it is now, not from the form as it was at the time of the
    submission: an input made after the submission shows in them. *)
Theorem kundali_results_follow_the_form (es : list event) (field : string) :
  formData (run initialState es) !! field =
    match last_input field es with
    | Some v => Some v
    | None => initialFormData !! field
    end /\
  isSubmitted (run initialState es) = existsb is_submit es /\
  results (run initialState es) =
    if existsb is_submit es
    then Some (KundaliResults.render (formData (run initialState es)))
    else None.
Proof.
  split; [apply kundali_run_formData|].
  assert (H : isSubmitted (run initialState es) = existsb is_submit es)
    by now rewrite kundali_run_isSubmitted.
  split; [exact H|]. unfold results. now rewrite H.
Qed.

End KundaliFormExtras.

Section ResultsSessionExtras.
Import Js React ResultsSession.

Lemma total_nonneg (ds : list N) : 0 <= total ds.
Proof.
  induction ds as [|d ds IH]; [cbn; lia|].
  cbn [total fold_right]. fold (total ds). lia.
Qed.

Lemma fire_page (storage : gmap string document) (s : State) :
  mounted s = true ->
  apply_actions (fst (Timers.fire load_user storage)) s =
    {| page := ResultsPage.apply_actions (fst (ResultsPage.load_user_body storage)) (page s);
       now := now s; timer := timer s; mounted := true |}.
Proof.
  destruct s as [p n tm m]. cbn [mounted page now timer]. intros ->.
  unfold Timers.fire, ResultsPage.load_user_body.
  destruct (storage !! "kundaliFormData") as [[[ | | | ] | props | [|]]|]; reflexivity.
Qed.

(** Without a live timer the page stays as it is. *)
Lemma idle (storage : gmap string document) (es : list event) (s : State) :
  timer s = None ->
  page (run storage s es) = page s /\ timer (run storage s es) = None.
Proof.
  revert s. induction es as [|e es IH]; intros s Ht; [now split|].
  cbn [run fold_left]. fold (run storage (step storage s e) es).
  destruct e as [ms|].
  - cbn [step]. rewrite Ht. apply (IH (set_clock _ s)). exact Ht.
  - destruct (IH (step storage s Unmount)) as [Hp Hn]; [reflexivity|].
    rewrite Hp, Hn. split; [|reflexivity].
    cbn [step page ResultsPage.cleanup emit fst apply_actions fold_left apply_action].
    reflexivity.
Qed.

(** A mounted page that waits: it is as mounted until the timer is due, and
    loaded from then on. *)
Lemma waiting (storage : gmap string document) (ds : list N) (s : State) (due : Z) :
  mounted s = true ->
  page s = ResultsPage.initialState ->
  timer s = Some due ->
  now s < due ->
  let s' := run storage s (map Elapse ds) in
  (now s + total ds < due ->
   page s' = ResultsPage.initialState /\ timer s' = Some due /\ mounted s' = true) /\
  (due <= now s + total ds ->
   page s' = ResultsPage.loaded storage /\ timer s' = None).
Proof.
  revert s. induction ds as [|d ds IH]; intros s Hm Hp Ht Hnow.
  - cbn. split; [auto | lia].
  - cbn [map run fold_left total fold_right]. fold (total ds).
    fold (run storage (step storage s (Elapse d)) (map Elapse ds)).
    pose proof (total_nonneg ds) as Hds. assert (Hd : 0 <= Z.of_N d) by lia.
    cbn [step]. rewrite Ht.
    destruct (Z.leb_spec due (now s + Z.of_N d)) as [Hfire | Hwait].
    + rewrite fire_page by exact Hm.
      match goal with |- context [run storage ?s1 _] =>
        destruct (idle storage (map Elapse ds) s1) as [Hp1 Hn1]; [reflexivity|]
      end.
      split; [lia|]. intros _. rewrite Hp1, Hn1. split; [|reflexivity].
      cbn [set_clock disarm page]. now rewrite Hp.
    + destruct (IH (set_clock (now s + Z.of_N d) s)) as [H1 H2]; try assumption.
      cbn [set_clock now] in H1, H2. split; intros H.
      * apply H1. lia.
      * apply H2. lia.
Qed.

Lemma mount_eq (t : Z) :
  mount t = {| page := ResultsPage.initialState; now := t;
               timer := Some (t + ResultsPage.loading_ms); mounted := true |}.
Proof. reflexivity. Qed.

(** X13.  The results page in time.  While the waits since mounting add up
    to less than 2000 ms the page is loading, with an empty name, and its
    title is the skeleton; from 2000 ms on it is the page loaded from what
    local storage holds, whose title carries the user name.  When the page
    is unmounted before the 2000 ms are over, the timer is cleared and the
    state is never updated, whatever follows. *)
Theorem results_page_loads_after_two_seconds
    (storage : gmap string document) (t : Z) (ds : list N) :
  (total ds < ResultsPage.loading_ms ->
   page (run storage (mount t) (map Elapse ds)) = ResultsPage.initialState /\
   ResultsView.title (ResultsView.render (page (run storage (mount t) (map Elapse ds))))
     = Skeleton) /\
  (ResultsPage.loading_ms <= total ds ->
   page (run storage (mount t) (map Elapse ds)) = ResultsPage.loaded storage /\
   ResultsView.title (ResultsView.render (page (run storage (mount t) (map Elapse ds))))
     = Element "h1" [ Value (ResultsPage.userName (ResultsPage.loaded storage));
                      Text "'s Vedic Birth Chart" ]) /\
  (forall es,
     total ds < ResultsPage.loading_ms ->
     page (run storage (mount t) (map Elapse ds ++ Unmount :: es)%list)
       = ResultsPage.initialState /\
     timer (run storage (mount t) (map Elapse ds ++ Unmount :: es)%list) = None).
Proof.
  assert (Hnow : t < t + ResultsPage.loading_ms) by (unfold ResultsPage.loading_ms; lia).
  destruct (waiting storage ds (mount t) (t + ResultsPage.loading_ms)
              eq_refl eq_refl eq_refl Hnow) as [Hbefore Hafter].
  change (now (mount t)) with t in Hbefore, Hafter.
  split; [|split].
  - intros H. destruct Hbefore as (Hp & _); [lia|]. now rewrite Hp.
  - intros H. destruct Hafter as (Hp & _); [lia|]. rewrite Hp. split; [reflexivity|].
    unfold ResultsView.render. cbn [ResultsView.title].
    now rewrite loaded_isLoading.
  - intros es H. destruct Hbefore as (Hp & Ht & Hm); [lia|].
    unfold run in *. rewrite fold_left_app. cbn [fold_left].
    match goal with |- context [fold_left (step storage) es ?s1] =>
      destruct (idle storage es s1) as [Hp1 Hn1]; [reflexivity|];
      unfold run in Hp1, Hn1; rewrite Hp1, Hn1
    end.
    split; [|reflexivity]. cbn [step page]. exact Hp.
Qed.

End ResultsSessionExtras.

Section StorageExtras.
Import Js React Spec Wizard.

Lemma run_localStorage (es : list event) (w : World) :
  Forall (fun e => e <> SaveProgress) es ->
  localStorage (run w es) = localStorage w.
Proof.
  intros H. revert w. induction H as [|e es He _ IH]; intros w; [reflexivity|].
  cbn [run fold_left]. fold (run (dispatch w e) es). rewrite IH, dispatch_localStorage.
  destruct e; congruence.
Qed.

(** X14.  The name on the results page is the one of the latest Save
    Progress.  Events other than Save Progress, the submission among them,
    leave local storage as it is; so after a save, whatever is typed,
    reset or submitted afterwards, the page shows the name as it was
    saved, and when nothing was ever saved it shows "User". *)
Theorem results_page_shows_last_saved_name (w : World) (es : list event) :
  Forall (fun e => e <> SaveProgress) es ->
  localStorage (run w es) = localStorage w /\
  (forall name,
     prop (Wizard.formData w) "name" = VString name ->
     ResultsPage.userName
       (ResultsPage.loaded (localStorage (run (dispatch w SaveProgress) es))) =
     VString (if String.eqb name "" then "User" else name)) /\
  (localStorage w !! "kundaliFormData" = None ->
   ResultsPage.userName (ResultsPage.loaded (localStorage (run w es))) = VString "User").
Proof.
  intros H. split; [now apply run_localStorage|]. split.
  - intros name Hn. rewrite run_localStorage by exact H.
    now rewrite (loaded_after_save w name Hn).
  - intros Hnone. rewrite run_localStorage by exact H.
    now rewrite (loaded_absent _ Hnone).
Qed.

Lemma truthy_or_else (v : JsValue) : truthy (or_else v (VString "User")) = true.
Proof. unfold or_else. now destruct (truthy v) eqn:E. Qed.

(** The snapshot entry can be read: it is neither the JSON text of null
    nor a text other than the empty one that is not JSON. *)
Lemma loaded_name_truthy (st : gmap string document) :
  truthy (ResultsPage.userName (ResultsPage.loaded st)) = true <->
  st !! "kundaliFormData" <> Some (DValue JNull) /\
  st !! "kundaliFormData" <> Some (DMalformed false).
Proof.
  unfold ResultsPage.loaded, ResultsPage.load_user_body.
  destruct (st !! "kundaliFormData") as [[[ | b | x | s] | props | [|]]|];
    try (split; [intros _; split; discriminate | intros _; reflexivity]);
    try (split; [discriminate | intros [H1 H2]; congruence]).
  split; [intros _; split; discriminate | intros _].
  unfold ResultsPage.JSON_parse, ResultsPage.member. run_M.
  cbn [nonempty ResultsPage.apply_actions fold_left ResultsPage.apply_action
       ResultsPage.userName].
  apply truthy_or_else.
Qed.

Lemma dispatch_keeps_readable (w : World) (e : event) (text : document) :
  (forall props, text <> DObject props) ->
  localStorage w !! "kundaliFormData" <> Some text ->
  localStorage (dispatch w e) !! "kundaliFormData" <> Some text.
Proof.
  intros Htext H. rewrite dispatch_localStorage. destruct e; try exact H.
  rewrite lookup_insert_ne by discriminate. rewrite lookup_insert_eq.
  unfold JSON_stringify. intros Heq. inversion Heq as [Heq']. symmetry in Heq'.
  now apply Htext in Heq'.
Qed.

Lemma run_keeps_readable (es : list event) (w : World) (text : document) :
  (forall props, text <> DObject props) ->
  localStorage w !! "kundaliFormData" <> Some text ->
  localStorage (run w es) !! "kundaliFormData" <> Some text.
Proof.
  intros Htext. revert w. induction es as [|e es IH]; intros w Hw; [exact Hw|].
  cbn [run fold_left]. apply IH. now apply dispatch_keeps_readable.
Qed.

(** X15.  The user name the results page loads is truthy, the saved name or
    "User", unless the snapshot entry of local storage is the JSON text of
    null or a text, other than the empty one, that is not JSON: for these
    two reading the name throws after the loading flag is cleared, and the
    name stays empty.  The wizard writes objects only, so when the entry
    could be read at the time the wizard mounted, the name is truthy after
    any events of the wizard, with any values in the updates. *)
Theorem results_title_blank_only_for_unreadable_entry
    (storage : gmap string document) (es : list event) :
  (truthy (ResultsPage.userName
             (ResultsPage.loaded (localStorage (run (initial storage) es)))) = true <->
   localStorage (run (initial storage) es) !! "kundaliFormData" <> Some (DValue JNull) /\
   localStorage (run (initial storage) es) !! "kundaliFormData"
     <> Some (DMalformed false)) /\
  (storage !! "kundaliFormData" <> Some (DValue JNull) ->
   storage !! "kundaliFormData" <> Some (DMalformed false) ->
   truthy (ResultsPage.userName
             (ResultsPage.loaded (localStorage (run (initial storage) es)))) = true) /\
  (forall st,
     st !! "kundaliFormData" = Some (DValue JNull) \/
     st !! "kundaliFormData" = Some (DMalformed false) ->
     ResultsPage.loaded st =
       {| ResultsPage.isLoading := false; ResultsPage.userName := VString "" |}).
Proof.
  split; [apply loaded_name_truthy|]. split.
  - intros H1 H2. apply loaded_name_truthy.
    split; apply run_keeps_readable; try assumption; intros props; discriminate.
  - intros st [H | H]; unfold ResultsPage.loaded, ResultsPage.load_user_body;
      now rewrite H.
Qed.

(** X16.  What Save Progress writes can always be read back: reading a
    property of the parsed snapshot never throws.  A string, a boolean and
    null come back as they were, a property that was undefined is missing
    and reads as undefined, and a date comes back as the string of its ISO
    form, not as a date. *)
Theorem saved_form_reads_back (formData : gmap string JsValue) (k : string) :
  exists v,
    ResultsPage.member (JSON_stringify formData) k = ([], Some v) /\
    (forall s, prop formData k = VString s -> v = VString s) /\
    (forall b, prop formData k = VBool b -> v = VBool b) /\
    (prop formData k = VNull -> v = VNull) /\
    (prop formData k = VUndefined -> v = VUndefined) /\
    (forall t, prop formData k = VDate t -> v = VString (toISOString t)).
Proof.
  unfold ResultsPage.member, JSON_stringify, prop. rewrite lookup_omap.
  destruct (formData !! k) as [[ | | b | s | x | t]|];
    cbn [mbind option_bind toJSON fmap option_fmap option_map fromJSON default
         from_option id];
    eexists; (split; [reflexivity|]); repeat split; intros; congruence.
Qed.

End StorageExtras.

Section ViewExtras.
Import Js React Spec Spec2 MultiStepForm Wizard WizardView Session.



End ViewExtras.

Section HouseTabsExtras.
Import HouseInterpretations HouseTabs.

Lemma house_numbers_range (n : Z) : In n house_numbers <-> 1 <= n <= 12.
Proof.
  unfold house_numbers. rewrite in_map_iff. split.
  - intros (i & <- & Hi). apply in_seq in Hi. lia.
  - intros H. exists (Z.to_nat (n - 1)). split; [lia|]. apply in_seq. lia.
Qed.

Lemma house_numbers_NoDup : List.NoDup house_numbers.
Proof.
  apply NoDup_ListNoDup. apply (bool_decide_unpack _). vm_compute. reflexivity.
Qed.

Lemma without_data_spec (data : list House) (n : Z) :
  In n (without_data data) <-> In n house_numbers /\ ~ In n (map house data).
Proof.
  unfold without_data. rewrite filter_In, negb_true_iff.
  split; intros [Hn Hd]; (split; [exact Hn|]).
  - intros Hin. apply in_map_iff in Hin as (h & Hh & Hin).
    assert (Hex : existsb (fun h => house h =? n) data = true).
    { apply existsb_exists. exists h. split; [exact Hin | now apply Z.eqb_eq]. }
    congruence.
  - destruct (existsb (fun h => house h =? n) data) eqn:E; [|reflexivity].
    exfalso. apply Hd. apply existsb_exists in E as (h & Hin & Heq).
    apply Z.eqb_eq in Heq. apply in_map_iff. now exists h.
Qed.

(** X18.  The house tabs have one content panel for each of the twelve
    triggers.  For any list of houses in the place of [houseData] whose
    house numbers are distinct and between 1 and 12, the numbers of the
    panels rendered (the houses of the list, then the placeholders) are
    the numbers 1 to 12, each once; the component renders these panels for
    [houseData]. *)
Theorem every_house_has_one_panel (data : list House) :
  List.NoDup (map house data) ->
  (forall h, In h data -> 1 <= house h <= 12) ->
  Permutation (panel_numbers data) house_numbers /\
  length (panels data) = 12%nat /\
  tabs false =
    Element "Tabs"
      (Element "TabsList"
         (map (fun n => Element "TabsTrigger" [Text ("House " +:+ pretty n)]) house_numbers)
       :: panels houseData).
Proof.
  intros Hnd Hrange. apply NoDup_ListNoDup in Hnd.
  assert (HP : Permutation (panel_numbers data) house_numbers).
  { apply NoDup_Permutation.
    - unfold panel_numbers. apply NoDup_app. split; [exact Hnd|]. split.
      + intros n Hin Hout. apply list_elem_of_In in Hin, Hout.
        apply without_data_spec in Hout as [_ Hout]. contradiction.
      + unfold without_data. apply NoDup_ListNoDup, List.NoDup_filter, house_numbers_NoDup.
    - apply NoDup_ListNoDup, house_numbers_NoDup.
    - intros n. rewrite !list_elem_of_In. unfold panel_numbers.
      rewrite in_app_iff, without_data_spec. split.
      + intros [Hin | [Hin _]]; [|exact Hin].
        apply in_map_iff in Hin as (h & <- & Hin). apply house_numbers_range.
        now apply Hrange.
      + intros Hin. destruct (in_dec Z.eq_dec n (map house data)); [now left | now right]. }
  split; [exact HP|]. split; [|reflexivity].
  apply Permutation_length in HP. unfold panels, panel_numbers in *.
  rewrite length_app, !length_map in *. exact HP.
Qed.

End HouseTabsExtras.

Section ExtraWitnesses.
Import Js React Spec Spec2 MultiStepForm Wizard WizardView Session.

Lemma filled_in_session : in_session Examples.filled.
Proof.
  apply in_session_run; [constructor|].
  cbn [Examples.filled_in offered_all offered]. split; [|split; [|exact I]];
    exists (PersonalInfoStep VUndefined VUndefined ∅); cbn [input_of].
  - split; [now left | now eexists].
  - split; [now right | now eexists].
Qed.

Lemma on_last_step_in_session : in_session Examples.on_last_step.
Proof.
  apply in_session_run; [exact filled_in_session|].
  cbn [offered_all offered].
  split; [exact I|]. split; [|split; [|split; [exact I|split; [|exact I]]]].
  - exists (BirthDetailsStep VUndefined VUndefined ∅). cbn [input_of].
    left. split; [reflexivity|]. right. now eexists.
  - exists (BirthDetailsStep VUndefined VUndefined ∅). cbn [input_of].
    right. split; [reflexivity | now eexists].
  - vm_compute. tauto.
Qed.

Lemma blank_name_reachable : reachable Examples.blank_name.
Proof. apply reachable_run; [exact filled_reachable | repeat constructor]. Qed.

(** X1 where the name was cleared while the first panel faded out: the
    form is submitted although the name is blank. *)
Lemma submission_checks_only_the_last_step_witness :
  reachable Examples.blank_name /\
  prop (Wizard.formData Examples.blank_name) "name" = VString "" /\
  Wizard.currentStep Examples.blank_name = 2 /\
  checks_pass 2 (Wizard.formData Examples.blank_name) /\
  effects (handler Examples.blank_name Next) =
    effects (handler Examples.on_last_step Next).
Proof.
  assert (He : effects (handler Examples.blank_name Next) <> [])
    by (vm_compute; discriminate).
  split; [exact blank_name_reachable|]. split; [vm_compute; reflexivity|].
  destruct (submission_checks_only_the_last_step Examples.blank_name
              blank_name_reachable) as [Hiff Hsame].
  destruct (proj1 Hiff He) as [H2 Hpass].
  split; [exact H2|]. split; [exact Hpass|]. symmetry.
  apply Hsame;
    [exact (in_session_reachable _ on_last_step_in_session) | vm_compute; reflexivity ..].
Defined.

(** X2 after the first step was filled in. *)
Lemma progress_bar_follows_the_step_witness :
  reachable Examples.filled /\
  length (List.filter reached (progress (render Examples.filled))) = 1%nat.
Proof.
  split; [exact filled_reachable|].
  destruct (progress_bar_follows_the_step Examples.filled filled_reachable)
    as (_ & _ & Hn).
  exact Hn.
Defined.

(** X20 on the last step of a complete session. *)
Lemma keyed_child_is_the_panel_of_the_step_witness :
  reachable Examples.on_last_step /\
  exists p, keyed_children (render Examples.on_last_step) = [p] /\ panel_step p = 2.
Proof.
  split; [exact (in_session_reachable _ on_last_step_in_session)|].
  exact (keyed_child_is_the_panel_of_the_step Examples.on_last_step
           (in_session_reachable _ on_last_step_in_session)).
Defined.

(** X3 on the last step: Back is rendered and goes to the second step. *)
Lemma buttons_agree_with_handlers_witness :
  reachable Examples.on_last_step /\
  Wizard.currentStep (dispatch Examples.on_last_step Back) = 1.
Proof.
  split; [exact (in_session_reachable _ on_last_step_in_session)|].
  destruct (buttons_agree_with_handlers Examples.on_last_step
              (in_session_reachable _ on_last_step_in_session)) as (Hback & _).
  now apply Hback.
Defined.

(** X7 after the first step was filled in. *)
Lemma back_undoes_next_witness :
  reachable Examples.filled /\
  checks_pass (Wizard.currentStep Examples.filled) (Wizard.formData Examples.filled) /\
  Wizard.currentStep Examples.filled < 2 /\
  Wizard.formData (dispatch (dispatch Examples.filled Next) Back)
    = Wizard.formData Examples.filled /\
  Wizard.currentStep (dispatch (dispatch Examples.filled Next) Back) = 0.
Proof.
  assert (Hlt : Wizard.currentStep Examples.filled < 2) by (vm_compute; reflexivity).
  split; [exact filled_reachable|]. split; [exact filled_checks_pass|].
  split; [exact Hlt|].
  rewrite (back_undoes_next Examples.filled filled_reachable filled_checks_pass Hlt).
  split; reflexivity.
Defined.

(** X10 after three letters and a wait of half a second. *)
Lemma lookup_settles_after_quiet_wait_witness :
  LocationStep.debounce_ms <= Z.of_N 500 /\
  let s := LocationStep.run (handleUpdateFormData ∅) (LocationStep.mount 0)
             ([LocationStep.Type_query "del"] ++ [LocationStep.Elapse 500])%list in
  LocationStep.timers s = [] /\
  LocationStep.searchResults s = matches_of (LocationStep.searchQuery s).
Proof.
  assert (Hms : LocationStep.debounce_ms <= Z.of_N 500)
    by (unfold LocationStep.debounce_ms; lia).
  split; [exact Hms|].
  exact (lookup_settles_after_quiet_wait ∅ 0 [LocationStep.Type_query "del"] 500 Hms).
Defined.

(** X14: the name is saved, then changed, then Next is pressed. *)
Lemma results_page_shows_last_saved_name_witness :
  Forall (fun e => e <> SaveProgress) [Update "name" (VString "Bo"); Next] /\
  ResultsPage.userName
    (ResultsPage.loaded
       (localStorage (run (dispatch Examples.filled SaveProgress)
                          [Update "name" (VString "Bo"); Next]))) = VString "Asha".
Proof.
  assert (Hes : Forall (fun e => e <> SaveProgress) [Update "name" (VString "Bo"); Next])
    by (repeat constructor; discriminate).
  split; [exact Hes|].
  destruct (results_page_shows_last_saved_name Examples.filled
              [Update "name" (VString "Bo"); Next] Hes) as (_ & Hname & _).
  apply (Hname "Asha"). vm_compute. reflexivity.
Defined.


(** X18 for the list of the component. *)
Lemma every_house_has_one_panel_witness :
  List.NoDup (map HouseInterpretations.house HouseInterpretations.houseData) /\
  (forall h, In h HouseInterpretations.houseData ->
             1 <= HouseInterpretations.house h <= 12) /\
  Permutation (HouseTabs.panel_numbers HouseInterpretations.houseData)
              HouseInterpretations.house_numbers.
Proof.
  assert (Hnd : List.NoDup (map HouseInterpretations.house HouseInterpretations.houseData)).
  { apply NoDup_ListNoDup. apply (bool_decide_unpack _). vm_compute. reflexivity. }
  assert (Hrange : forall h, In h HouseInterpretations.houseData ->
                             1 <= HouseInterpretations.house h <= 12).
  { intros h [<- | [<- | [<- | []]]]; cbn; lia. }
  split; [exact Hnd|]. split; [exact Hrange|].
  exact (proj1 (every_house_has_one_panel HouseInterpretations.houseData Hnd Hrange)).
Defined.

End ExtraWitnesses.
